(** * Test-run progress tracker: [TestRunner] and [runTestSuite]

    A shallow embedding of the run tracker (class [TestRunner] of
    test-runner.ts) and of the category-by-category executor
    ([parseAndUpdateTestCounts] and [runTestSuite]), followed by the
    properties of the run they implement. *)

From Stdlib Require Import ZArith NArith List Bool Lia.
From Stdlib Require Import Ascii String DecimalString.
From stdpp Require Import base option numbers list gmap.
Import ListNotations.

Local Open Scope Z_scope.

(** ** JavaScript strings

    A JavaScript string is a sequence of UTF-16 code units. *)

Definition jsstring := list N.

(** An ASCII literal of the source, as code units. *)
Definition js (s : string) : jsstring :=
  List.map N_of_ascii (list_ascii_of_string s).

Definition LF : N := 10%N.
Definition CHECK : N := 10003%N.   (* U+2713, the pass marker *)
Definition CROSS : N := 10007%N.   (* U+2717, the fail marker *)
Definition DOWN : N := 8595%N.     (* U+2193, the skip marker *)

(** [LineTerminator]: LF, CR, LS, PS. *)
Definition isLineTerminator (c : N) : bool :=
  (N.eqb c 10 || N.eqb c 13 || N.eqb c 8232 || N.eqb c 8233)%N.

(** [WhiteSpace] together with [LineTerminator]: what [trim] strips and
    what [\s] matches. *)
Definition isSpace (c : N) : bool :=
  (N.eqb c 9 || N.eqb c 11 || N.eqb c 12 || N.eqb c 32 || N.eqb c 160
   || N.eqb c 5760 || (N.leb 8192 c && N.leb c 8202) || N.eqb c 8239
   || N.eqb c 8287 || N.eqb c 12288 || N.eqb c 65279
   || isLineTerminator c)%N.

(** [\d] *)
Definition isDigit (c : N) : bool := (N.leb 48 c && N.leb c 57)%N.

(** [.] without the [s] flag *)
Definition isDot (c : N) : bool := negb (isLineTerminator c).

Fixpoint trimStart (s : jsstring) : jsstring :=
  match s with
  | c :: s' => if isSpace c then trimStart s' else s
  | [] => []
  end.

Definition trim (s : jsstring) : jsstring :=
  rev (trimStart (rev (trimStart s))).

Fixpoint startsWith (p s : jsstring) : bool :=
  match p, s with
  | [], _ => true
  | a :: p', b :: s' => N.eqb a b && startsWith p' s'
  | _ :: _, [] => false
  end.

(** [s.split(sep)] for a non-empty separator: [skip] counts the code
    units of a separator that has just been recognised and is being
    stepped over, [cur] is the piece under construction, reversed. *)
Fixpoint splitFrom (sep : jsstring) (skip : nat) (cur : jsstring)
    (s : jsstring) : list jsstring :=
  match s with
  | [] => [rev cur]
  | c :: s' =>
      match skip with
      | S k => splitFrom sep k cur s'
      | O =>
          if startsWith sep s
          then rev cur :: splitFrom sep (Nat.pred (length sep)) [] s'
          else splitFrom sep 0 (c :: cur) s'
      end
  end.

Definition split (sep s : jsstring) : list jsstring := splitFrom sep 0 [] s.

(** [parts.join(sep)] *)
Fixpoint join (sep : jsstring) (parts : list jsstring) : jsstring :=
  match parts with
  | [] => []
  | [p] => p
  | p :: rest => p ++ sep ++ join sep rest
  end.

(** [a || b] on strings: the empty string is falsy. *)
Definition orStr (a b : jsstring) : jsstring :=
  match a with [] => b | _ => a end.

(** Numbers are integers here, which a JavaScript number represents
    exactly up to 2^53.  [parseInt] on a run of decimal digits (the only
    argument it is given is a [(\d+)] capture), and [`${n}`] for an
    integer. *)
Definition digitVal (c : N) : Z := Z.of_N c - 48.

Definition parseInt (s : jsstring) : Z :=
  fold_left (fun acc c => 10 * acc + digitVal c) s 0.

(** [n || 0] on numbers. *)
Definition orZero (n : Z) : Z := if n =? 0 then 0 else n.

Definition numToString (n : Z) : jsstring :=
  js (NilZero.string_of_int (Z.to_int n)).

(** ** Regular expressions

    The three expressions of [parseAndUpdateTestCounts] are sequences of
    literals, [+] and [+?] over a character class, capture groups and the
    two anchors.  The matcher backtracks in the order of the ECMAScript
    semantics: a greedy quantifier tries the longer repetition first, a
    lazy one the shorter. *)

Inductive Node :=
| NStart                                   (* ^ *)
| NEnd                                     (* $ *)
| NChar (c : N)                            (* a literal code unit *)
| NPlus (cls : N -> bool) (greedy : bool)  (* cls+ and cls+? *)
| NOpen (i : nat)                          (* ( of group i *)
| NClose (i : nat).                        (* ) of group i *)

Record Caps := {
  opened : list (nat * jsstring);   (* group, input left at its ( *)
  closed : list (nat * jsstring)    (* group, captured text *)
}.

Definition noCaps : Caps := {| opened := []; closed := [] |}.

Fixpoint assoc {A} (i : nat) (l : list (nat * A)) : option A :=
  match l with
  | [] => None
  | (j, x) :: l' => if Nat.eqb i j then Some x else assoc i l'
  end.

Definition openGroup (i : nat) (s : jsstring) (c : Caps) : Caps :=
  {| opened := (i, s) :: opened c; closed := closed c |}.

Definition closeGroup (i : nat) (s : jsstring) (c : Caps) : Caps :=
  match assoc i (opened c) with
  | Some s0 =>
      {| opened := opened c;
         closed := (i, firstn (length s0 - length s)%nat s0) :: closed c |}
  | None => c
  end.

Fixpoint matchNodes (r : list Node) (pos : nat) (s : jsstring) (c : Caps)
    : option Caps :=
  match r with
  | [] => Some c
  | NStart :: r' =>
      match pos with O => matchNodes r' pos s c | S _ => None end
  | NEnd :: r' =>
      match s with [] => matchNodes r' pos s c | _ :: _ => None end
  | NChar a :: r' =>
      match s with
      | x :: s' => if N.eqb x a then matchNodes r' (S pos) s' c else None
      | [] => None
      end
  | NOpen i :: r' => matchNodes r' pos s (openGroup i s c)
  | NClose i :: r' => matchNodes r' pos s (closeGroup i s c)
  | NPlus cls greedy :: r' =>
      (fix plus (pos : nat) (s : jsstring) {struct s} : option Caps :=
         match s with
         | [] => None
         | x :: s' =>
             if cls x then
               if greedy then
                 match plus (S pos) s' with
                 | Some c' => Some c'
                 | None => matchNodes r' (S pos) s' c
                 end
               else
                 match matchNodes r' (S pos) s' c with
                 | Some c' => Some c'
                 | None => plus (S pos) s'
                 end
             else None
         end) pos s
  end.

(** [s.match(re)] for a non-global expression: the first start index at
    which the expression matches, leftmost first. *)
Fixpoint matchAt (r : list Node) (pos : nat) (s : jsstring) : option Caps :=
  match matchNodes r pos s noCaps with
  | Some c => Some c
  | None =>
      match s with
      | [] => None
      | _ :: s' => matchAt r (S pos) s'
      end
  end.

Definition jsMatch (r : list Node) (s : jsstring) : option Caps :=
  matchAt r 0 s.

(** [match[i]] of a successful match whose group [i] took part. *)
Definition group (i : nat) (c : Caps) : jsstring :=
  match assoc i (closed c) with Some g => g | None => [] end.

(** The expressions of [parseAndUpdateTestCounts]:
    [/^✓\s+(.+?)\s+(\d+)ms$/], [/^✗\s+(.+?)\s+(\d+)ms$/] and
    [/^↓\s+(.+)$/]. *)
Definition passedRegex : list Node :=
  [ NStart; NChar CHECK; NPlus isSpace true;
    NOpen 1; NPlus isDot false; NClose 1;
    NPlus isSpace true;
    NOpen 2; NPlus isDigit true; NClose 2;
    NChar 109%N; NChar 115%N; NEnd ].

Definition failedRegex : list Node :=
  [ NStart; NChar CROSS; NPlus isSpace true;
    NOpen 1; NPlus isDot false; NClose 1;
    NPlus isSpace true;
    NOpen 2; NPlus isDigit true; NClose 2;
    NChar 109%N; NChar 115%N; NEnd ].

Definition skippedRegex : list Node :=
  [ NStart; NChar DOWN; NPlus isSpace true;
    NOpen 1; NPlus isDot true; NClose 1; NEnd ].

(** ** Test results *)

Inductive Status := running | passed | failed | skipped.

Inductive Phase := backend | frontend.

Module TestResult.
Record t := {
  suite : jsstring;
  name : jsstring;
  status : Status;
  duration : Z;
  error : option jsstring;
  stackTrace : option jsstring
}.
End TestResult.

Module TestRunResult.
Record t := {
  status : Status;
  totalTests : Z;
  passedTests : Z;
  failedTests : Z;
  duration : Z;
  tests : list TestResult.t;
  errorSummary : option jsstring
}.
End TestRunResult.

(** The object [{ passed, failed, total }] returned by the parser. *)
Module Stats.
Record t := { passed : Z; failed : Z; total : Z }.
End Stats.

(** ** parseAndUpdateTestCounts *)

(** The locals of the loop over the lines: the three counters and the
    array [testResults] the caller passed in. *)
Record ParseState := {
  filePassed : Z;
  fileFailed : Z;
  fileTotal : Z;
  testResults : list TestResult.t
}.

Definition push (st : ParseState) (r : TestResult.t) : ParseState :=
  {| filePassed := filePassed st; fileFailed := fileFailed st;
     fileTotal := fileTotal st; testResults := testResults st ++ [r] |}.

Definition suiteOf (label : jsstring) : jsstring :=
  let parts := split (js " > ") label in
  orStr (hd [] parts) (js "unknown").

Definition nameOf (label : jsstring) : jsstring :=
  let parts := split (js " > ") label in
  orStr (join (js " > ") (tl parts)) label.

(** The body of [for (const line of lines)]. *)
Definition parseLine (st : ParseState) (line : jsstring) : ParseState :=
  let trimmed := trim line in
  if startsWith [CHECK] trimmed then
    let st := {| filePassed := filePassed st + 1; fileFailed := fileFailed st;
                 fileTotal := fileTotal st + 1;
                 testResults := testResults st |} in
    match jsMatch passedRegex trimmed with
    | Some m =>
        push st {| TestResult.suite := suiteOf (group 1 m);
                   TestResult.name := nameOf (group 1 m);
                   TestResult.status := passed;
                   TestResult.duration := orZero (parseInt (group 2 m));
                   TestResult.error := None;
                   TestResult.stackTrace := None |}
    | None => st
    end
  else if startsWith [CROSS] trimmed then
    let st := {| filePassed := filePassed st; fileFailed := fileFailed st + 1;
                 fileTotal := fileTotal st + 1;
                 testResults := testResults st |} in
    match jsMatch failedRegex trimmed with
    | Some m =>
        push st {| TestResult.suite := suiteOf (group 1 m);
                   TestResult.name := nameOf (group 1 m);
                   TestResult.status := failed;
                   TestResult.duration := orZero (parseInt (group 2 m));
                   TestResult.error :=
                     Some (js "Test failed - check logs for details");
                   TestResult.stackTrace := None |}
    | None => st
    end
  else if startsWith [DOWN] trimmed then
    let st := {| filePassed := filePassed st; fileFailed := fileFailed st;
                 fileTotal := fileTotal st + 1;
                 testResults := testResults st |} in
    match jsMatch skippedRegex trimmed with
    | Some m =>
        push st {| TestResult.suite := suiteOf (group 1 m);
                   TestResult.name := nameOf (group 1 m);
                   TestResult.status := skipped;
                   TestResult.duration := 0;
                   TestResult.error := None;
                   TestResult.stackTrace := None |}
    | None => st
    end
  else st.

Definition parseLines (lines : list jsstring) (given : list TestResult.t)
    : ParseState :=
  fold_left parseLine lines
    {| filePassed := 0; fileFailed := 0; fileTotal := 0;
       testResults := given |}.

(** Returns the statistics; the second component is the array
    [testResults] after the call ([given] before it), the array being
    extended in place. *)
Definition parseAndUpdateTestCounts (output : jsstring)
    (given : list TestResult.t) : Stats.t * list TestResult.t :=
  let st := parseLines (split [LF] output) given in
  ({| Stats.passed := filePassed st; Stats.failed := fileFailed st;
      Stats.total := fileTotal st |},
   testResults st).

(** ** The persistence store

    The store is handed to the tracker's constructor ([database],
    [testRunsTable], [testCasesTable]); the tracker uses it through
    insert-returning, update-by-identifier and bulk insert. *)

Module TestRun.
(** A row of [testRuns]. *)
Record t := {
  commitHash : option jsstring;
  branch : jsstring;
  status : Status;
  startedAt : Z;
  totalFiles : Z;
  completedFiles : Z;
  currentFile : option jsstring;
  currentPhase : option Phase;
  totalTests : Z;
  passedTests : Z;
  failedTests : Z;
  duration : option Z;
  completedAt : option Z;
  errorSummary : option jsstring
}.
End TestRun.

Module TestCase.
(** A row of [testCases]. *)
Record t := {
  testRunId : Z;
  testSuite : jsstring;
  testName : jsstring;
  status : Status;
  duration : Z;
  errorMessage : option jsstring;
  stackTrace : option jsstring
}.
End TestCase.

Record Db := {
  testRuns : gmap Z TestRun.t;
  nextId : Z;
  testCases : list TestCase.t
}.

(** The statements the tracker issues, with the values it passes. *)
Inductive Stmt :=
| InsertTestRun (values : TestRun.t)
| SetProgress (id : Z) (currentFile : jsstring) (completedFiles : Z)
    (currentPhase : Phase) (totalFiles : Z)
| SetCounts (id : Z) (totalTests passedTests failedTests : Z)
| SetCompleted (id : Z) (status : Status)
    (totalTests passedTests failedTests duration completedAt : Z)
    (errorSummary : option jsstring)
| InsertTestCases (rows : list TestCase.t).

Definition setProgress (currentFile : jsstring) (completedFiles : Z)
    (currentPhase : Phase) (totalFiles : Z) (r : TestRun.t) : TestRun.t :=
  {| TestRun.commitHash := TestRun.commitHash r;
     TestRun.branch := TestRun.branch r;
     TestRun.status := TestRun.status r;
     TestRun.startedAt := TestRun.startedAt r;
     TestRun.totalFiles := totalFiles;
     TestRun.completedFiles := completedFiles;
     TestRun.currentFile := Some currentFile;
     TestRun.currentPhase := Some currentPhase;
     TestRun.totalTests := TestRun.totalTests r;
     TestRun.passedTests := TestRun.passedTests r;
     TestRun.failedTests := TestRun.failedTests r;
     TestRun.duration := TestRun.duration r;
     TestRun.completedAt := TestRun.completedAt r;
     TestRun.errorSummary := TestRun.errorSummary r |}.

Definition setCounts (totalTests passedTests failedTests : Z)
    (r : TestRun.t) : TestRun.t :=
  {| TestRun.commitHash := TestRun.commitHash r;
     TestRun.branch := TestRun.branch r;
     TestRun.status := TestRun.status r;
     TestRun.startedAt := TestRun.startedAt r;
     TestRun.totalFiles := TestRun.totalFiles r;
     TestRun.completedFiles := TestRun.completedFiles r;
     TestRun.currentFile := TestRun.currentFile r;
     TestRun.currentPhase := TestRun.currentPhase r;
     TestRun.totalTests := totalTests;
     TestRun.passedTests := passedTests;
     TestRun.failedTests := failedTests;
     TestRun.duration := TestRun.duration r;
     TestRun.completedAt := TestRun.completedAt r;
     TestRun.errorSummary := TestRun.errorSummary r |}.

(** A key whose value is [undefined] is left out of the update: the
    column keeps what it held. *)
Definition setCompleted (status : Status)
    (totalTests passedTests failedTests duration completedAt : Z)
    (errorSummary : option jsstring) (r : TestRun.t) : TestRun.t :=
  {| TestRun.commitHash := TestRun.commitHash r;
     TestRun.branch := TestRun.branch r;
     TestRun.status := status;
     TestRun.startedAt := TestRun.startedAt r;
     TestRun.totalFiles := TestRun.totalFiles r;
     TestRun.completedFiles := TestRun.completedFiles r;
     TestRun.currentFile := TestRun.currentFile r;
     TestRun.currentPhase := TestRun.currentPhase r;
     TestRun.totalTests := totalTests;
     TestRun.passedTests := passedTests;
     TestRun.failedTests := failedTests;
     TestRun.duration := Some duration;
     TestRun.completedAt := Some completedAt;
     TestRun.errorSummary :=
       match errorSummary with
       | Some e => Some e
       | None => TestRun.errorSummary r
       end |}.

(** Modelled from the spec: the store itself (section 6: insert returning
    the identifier, update by identifier over a partial field set, bulk
    insert).  Identifiers are handed out in sequence; an update of an
    identifier with no row changes nothing. *)
Definition applyStmt (s : Stmt) (d : Db) : Db :=
  match s with
  | InsertTestRun values =>
      {| testRuns := <[nextId d := values]> (testRuns d);
         nextId := nextId d + 1;
         testCases := testCases d |}
  | SetProgress id currentFile completedFiles currentPhase totalFiles =>
      {| testRuns :=
           alter (setProgress currentFile completedFiles currentPhase
                    totalFiles) id (testRuns d);
         nextId := nextId d;
         testCases := testCases d |}
  | SetCounts id totalTests passedTests failedTests =>
      {| testRuns :=
           alter (setCounts totalTests passedTests failedTests) id
             (testRuns d);
         nextId := nextId d;
         testCases := testCases d |}
  | SetCompleted id status totalTests passedTests failedTests duration
      completedAt errorSummary =>
      {| testRuns :=
           alter (setCompleted status totalTests passedTests failedTests
                    duration completedAt errorSummary) id (testRuns d);
         nextId := nextId d;
         testCases := testCases d |}
  | InsertTestCases rows =>
      {| testRuns := testRuns d;
         nextId := nextId d;
         testCases := testCases d ++ rows |}
  end.

(** ** Effects *)

(** A thrown value: [message] of an [Error], and the [stdout] and
    [stderr] that [execSync] attaches to the error of a failed command
    (absent, which [||] treats as the empty string, on other errors). *)
Record JsError := {
  message : jsstring;
  stdout : jsstring;
  stderr : jsstring
}.

Definition mkError (msg : jsstring) : JsError :=
  {| message := msg; stdout := []; stderr := [] |}.

Inductive ExecResult := ExecOk (output : jsstring) | ExecFailed (e : JsError).

(** What the program does not decide: the readings of the clock, the
    outcome of [find] and the outcome of [vitest] on each pattern. *)
Record Env := {
  clock : nat -> Z;
  findFiles : ExecResult;
  vitest : jsstring -> ExecResult
}.

Inductive Cmd := CmdFind | CmdVitest (pattern : jsstring).

Inductive Level := LLog | LWarn | LError.

(** The console messages, by template. *)
Inductive Msg :=
| MsgRunStarted (id : Z)
| MsgNoRunForProgress
| MsgProgress (completedFiles totalFiles : Z) (phase : Phase)
    (currentFile : jsstring)
| MsgProgressGaveUp (attempts : Z) (message : jsstring)
| MsgProgressLocal (completedFiles totalFiles : Z) (phase : Phase)
    (currentFile : jsstring)
| MsgProgressRetry (attempt attempts : Z)
| MsgNoRunForCounts
| MsgCounts (passedTests totalTests failedTests : Z)
| MsgCountsGaveUp (attempts : Z) (message : jsstring)
| MsgCountsRetry (attempt attempts : Z)
| MsgNoRunForCompletion
| MsgRunCompleted (status : Status) (passedTests totalTests : Z)
| MsgCompleteFailed (e : JsError)
| MsgSuiteStarting
| MsgRule
| MsgFound (totalFiles : Z)
| MsgSkipping (name : jsstring)
| MsgRunning (name : jsstring)
| MsgCategoryDone (name : jsstring) (passed total : Z)
| MsgCategoryFailed (name : jsstring) (message : jsstring)
| MsgSuiteCompleted
| MsgResults (totalPassed totalTests totalFailed : Z)
| MsgSuiteFailed (message : jsstring).

Inductive Event :=
| EvConsole (l : Level) (m : Msg)
| EvSleep (ms : Z)                 (* an awaited setTimeout *)
| EvDb (s : Stmt) (ok : bool)      (* a statement sent to the store *)
| EvExec (c : Cmd)
| EvSetInterval (ms : Z)
| EvClearInterval.

(** The fields of a [TestRunner] besides the store. *)
Record TestRunner := {
  testRunId : option Z;
  startTime : Z
}.

(** The locals of [runTestSuite] that are assigned after their
    declaration. *)
Record Frame := {
  durationUpdateInterval : bool;    (* holds a timer *)
  totalPassed : Z;
  totalFailed : Z;
  totalTests : Z;
  allTestResults : list TestResult.t;
  completedFiles : Z
}.

Inductive Call :=
| CallStartTestRun (commitHash : option jsstring) (branch : jsstring)
    (totalFiles : Z)
| CallUpdateFileProgress (currentFile : jsstring) (completedFiles : Z)
    (currentPhase : Phase) (totalFiles : Z)
| CallUpdateTestCounts (passedTests failedTests totalTests : Z)
| CallCompleteTestRun (result : TestRunResult.t).

(** [dbScript] lists the outcomes of the coming statements, [Some msg]
    for one that fails with that message; past its end every statement
    succeeds.  [calls] records each call of a tracker method that has
    returned, with the store as it was on return. *)
Record World := {
  db : Db;
  this : TestRunner;
  frame : Frame;
  dbScript : list (option jsstring);
  ticks : nat;
  trace : list Event;
  calls : list (Call * Db)
}.

Definition setDb (d : Db) (w : World) : World :=
  {| db := d; this := this w; frame := frame w; dbScript := dbScript w;
     ticks := ticks w; trace := trace w; calls := calls w |}.

Definition setThis (t : TestRunner) (w : World) : World :=
  {| db := db w; this := t; frame := frame w; dbScript := dbScript w;
     ticks := ticks w; trace := trace w; calls := calls w |}.

Definition setFrame (f : Frame) (w : World) : World :=
  {| db := db w; this := this w; frame := f; dbScript := dbScript w;
     ticks := ticks w; trace := trace w; calls := calls w |}.

Definition setScript (s : list (option jsstring)) (w : World) : World :=
  {| db := db w; this := this w; frame := frame w; dbScript := s;
     ticks := ticks w; trace := trace w; calls := calls w |}.

Definition tick (w : World) : World :=
  {| db := db w; this := this w; frame := frame w; dbScript := dbScript w;
     ticks := S (ticks w); trace := trace w; calls := calls w |}.

Definition addEvent (e : Event) (w : World) : World :=
  {| db := db w; this := this w; frame := frame w; dbScript := dbScript w;
     ticks := ticks w; trace := trace w ++ [e]; calls := calls w |}.

Definition addCall (c : Call) (w : World) : World :=
  {| db := db w; this := this w; frame := frame w; dbScript := dbScript w;
     ticks := ticks w; trace := trace w; calls := calls w ++ [(c, db w)] |}.

(** A computation returns or throws, and leaves a world behind. *)
Inductive Res (A : Type) :=
| Ret (a : A)
| Throw (e : JsError).

Arguments Ret {A} a.
Arguments Throw {A} e.

Definition M (A : Type) : Type := World -> Res A * World.

Definition ret {A} (a : A) : M A := fun w => (Ret a, w).

Definition throw {A} (e : JsError) : M A := fun w => (Throw e, w).

Definition bind {A B} (m : M A) (k : A -> M B) : M B :=
  fun w =>
    match m w with
    | (Ret a, w') => k a w'
    | (Throw e, w') => (Throw e, w')
    end.

Notation "'do' x <- m ; k" := (bind m (fun x => k))
  (at level 10, x name, m at level 100, k at level 200).

(** [try { m } catch (error) { h error }] *)
Definition tryCatch {A} (m : M A) (h : JsError -> M A) : M A :=
  fun w =>
    match m w with
    | (Ret a, w') => (Ret a, w')
    | (Throw e, w') => h e w'
    end.

(** [try { m } finally { fin }] *)
Definition tryFinally {A} (m : M A) (fin : M unit) : M A :=
  fun w =>
    match m w with
    | (r, w') =>
        match fin w' with
        | (Ret _, w'') => (r, w'')
        | (Throw e, w'') => (Throw e, w'')
        end
    end.

Definition gets {A} (f : World -> A) : M A := fun w => (Ret (f w), w).

Definition modify (f : World -> World) : M unit := fun w => (Ret tt, f w).

Definition console (l : Level) (m : Msg) : M unit :=
  modify (addEvent (EvConsole l m)).

(** [await new Promise(resolve => setTimeout(resolve, ms))] *)
Definition sleep (ms : Z) : M unit := modify (addEvent (EvSleep ms)).

(** One statement against the store: it fails, leaving the store as it
    was, or it is applied; [result] reads what the statement returns off
    the store it ran against. *)
Definition dbRun {A} (s : Stmt) (result : Db -> A) : M A :=
  fun w =>
    match dbScript w with
    | Some msg :: rest =>
        (Throw (mkError msg), addEvent (EvDb s false) (setScript rest w))
    | None :: rest =>
        (Ret (result (db w)),
         addEvent (EvDb s true) (setDb (applyStmt s (db w)) (setScript rest w)))
    | [] =>
        (Ret (result (db w)),
         addEvent (EvDb s true) (setDb (applyStmt s (db w)) w))
    end.

(** ** The categories and the locals of runTestSuite *)

Module Category.
Record t := { pattern : jsstring; phase : Phase; name : jsstring }.
End Category.

Definition testCategories : list Category.t :=
  [ {| Category.pattern := js "tests/integration/"; Category.phase := backend;
       Category.name := js "Integration Tests" |};
    {| Category.pattern := js "tests/auth/"; Category.phase := backend;
       Category.name := js "Authentication Tests" |};
    {| Category.pattern := js "tests/storage/"; Category.phase := backend;
       Category.name := js "Storage Tests" |};
    {| Category.pattern := js "tests/api/"; Category.phase := backend;
       Category.name := js "API Tests" |};
    {| Category.pattern := js "tests/components/"; Category.phase := frontend;
       Category.name := js "Component Tests" |};
    {| Category.pattern := js "tests/pages/"; Category.phase := frontend;
       Category.name := js "Page Tests" |};
    {| Category.pattern := js "tests/e2e/"; Category.phase := frontend;
       Category.name := js "End-to-End Tests" |} ].

Definition nonEmpty (f : jsstring) : bool :=
  match f with [] => false | _ :: _ => true end.

(** [allTestFiles], from the output of [find]. *)
Definition testFilesOf (out : jsstring) : list jsstring :=
  List.filter nonEmpty (split [LF] (trim out)).

Definition categoryFilesOf (allTestFiles : list jsstring)
    (category : Category.t) : list jsstring :=
  List.filter (fun file => startsWith (Category.pattern category) file)
    allTestFiles.

Definition freshFrame : Frame :=
  {| durationUpdateInterval := false;
     totalPassed := 0; totalFailed := 0; totalTests := 0;
     allTestResults := []; completedFiles := 0 |}.

Definition setInterval (ms : Z) : M unit :=
  do _ <- modify (addEvent (EvSetInterval ms));
  modify (fun w =>
    setFrame {| durationUpdateInterval := true;
                totalPassed := totalPassed (frame w);
                totalFailed := totalFailed (frame w);
                totalTests := totalTests (frame w);
                allTestResults := allTestResults (frame w);
                completedFiles := completedFiles (frame w) |} w).

(** The five assignments that follow a parse:
    [totalPassed += categoryStats.passed], ...,
    [allTestResults.push(...categoryResults)],
    [completedFiles += categoryFiles.length]. *)
Definition accumulate (categoryStats : Stats.t)
    (categoryResults : list TestResult.t) (categoryFiles : list jsstring)
    (f : Frame) : Frame :=
  {| durationUpdateInterval := durationUpdateInterval f;
     totalPassed := totalPassed f + Stats.passed categoryStats;
     totalFailed := totalFailed f + Stats.failed categoryStats;
     totalTests := totalTests f + Stats.total categoryStats;
     allTestResults := allTestResults f ++ categoryResults;
     completedFiles := completedFiles f + Z.of_nat (length categoryFiles) |}.

Definition finalResultOf (f : Frame) : TestRunResult.t :=
  {| TestRunResult.status := if totalFailed f =? 0 then passed else failed;
     TestRunResult.totalTests := totalTests f;
     TestRunResult.passedTests := totalPassed f;
     TestRunResult.failedTests := totalFailed f;
     TestRunResult.duration := 0;
     TestRunResult.tests := allTestResults f;
     TestRunResult.errorSummary :=
       if totalFailed f >? 0
       then Some (numToString (totalFailed f) ++ js " test(s) failed")
       else None |}.

Definition errorResultOf (error : JsError) : TestRunResult.t :=
  {| TestRunResult.status := failed;
     TestRunResult.totalTests := 0;
     TestRunResult.passedTests := 0;
     TestRunResult.failedTests := 0;
     TestRunResult.duration := 0;
     TestRunResult.tests := [];
     TestRunResult.errorSummary :=
       Some (js "Test execution failed: " ++ message error) |}.

Section Program.

Variable env : Env.

(** [Date.now()] and [new Date()] *)
Definition dateNow : M Z := fun w => (Ret (clock env (ticks w)), tick w).

(** [execSync(cmd, { encoding: 'utf8', ... })] *)
Definition execSync (c : Cmd) : M jsstring :=
  do _ <- modify (addEvent (EvExec c));
  match c with
  | CmdFind =>
      match findFiles env with
      | ExecOk out => ret out
      | ExecFailed e => throw e
      end
  | CmdVitest pattern =>
      match vitest env pattern with
      | ExecOk out => ret out
      | ExecFailed e => throw e
      end
  end.

(** *** class TestRunner *)

(** [!this.testRunId] is false: the identifier is neither [null] nor 0. *)
Definition activeRun (t : TestRunner) : option Z :=
  match testRunId t with
  | Some id => if id =? 0 then None else Some id
  | None => None
  end.

Definition startTestRun (commitHash : option jsstring) (branch : jsstring)
    (totalFiles : Z) : M Z :=
  do now <- dateNow;
  do _ <- modify (fun w =>
            setThis {| testRunId := testRunId (this w);
                       startTime := now |} w);
  do startedAt <- dateNow;
  do id <- dbRun (InsertTestRun
                    {| TestRun.commitHash := commitHash;
                       TestRun.branch := branch;
                       TestRun.status := running;
                       TestRun.startedAt := startedAt;
                       TestRun.totalFiles := totalFiles;
                       TestRun.completedFiles := 0;
                       TestRun.currentFile := None;
                       TestRun.currentPhase := Some backend;
                       TestRun.totalTests := 0;
                       TestRun.passedTests := 0;
                       TestRun.failedTests := 0;
                       TestRun.duration := None;
                       TestRun.completedAt := None;
                       TestRun.errorSummary := None |}) nextId;
  do _ <- modify (fun w =>
            setThis {| testRunId := Some id;
                       startTime := startTime (this w) |} w);
  do _ <- console LLog (MsgRunStarted id);
  do _ <- modify (addCall (CallStartTestRun commitHash branch totalFiles));
  ret id.

(** The closure [retryOperation] of [updateFileProgress] and of
    [updateTestCounts]: the two differ in the statement ([attempt], with
    the log that follows it) and in the messages ([lastFailed],
    [retrying]).  [left] is what remains of [attempts - i]. *)
Fixpoint retryLoop (attempt : M unit) (lastFailed : Z -> JsError -> M unit)
    (retrying : Z -> Z -> M unit) (attempts : Z) (i : Z) (left : nat)
    : M unit :=
  match left with
  | O => ret tt
  | S left' =>
      do returned <-
        tryCatch
          (do _ <- attempt;
           ret true)
          (fun error =>
             do _ <- (if i =? attempts - 1 then lastFailed attempts error
                      else (do _ <- retrying i attempts;
                            sleep (1000 * (i + 1))));
             ret false);
      if (returned : bool) then ret tt
      else retryLoop attempt lastFailed retrying attempts (i + 1) left'
  end.

Definition retryOperation (attempt : M unit)
    (lastFailed : Z -> JsError -> M unit) (retrying : Z -> Z -> M unit)
    (attempts : Z) : M unit :=
  retryLoop attempt lastFailed retrying attempts 0 (Z.to_nat attempts).

(** [totalFiles] defaults to 45; [runTestSuite] always passes it. *)
Definition updateFileProgress (currentFile : jsstring) (completedFiles : Z)
    (currentPhase : Phase) (totalFiles : Z) : M unit :=
  do t <- gets this;
  do _ <-
    match activeRun t with
    | None => console LWarn MsgNoRunForProgress
    | Some id =>
        retryOperation
          (do _ <- dbRun (SetProgress id currentFile completedFiles
                            currentPhase totalFiles) (fun _ => tt);
           console LLog
             (MsgProgress completedFiles totalFiles currentPhase currentFile))
          (fun attempts error =>
             do _ <- console LWarn
                       (MsgProgressGaveUp attempts (message error));
             console LLog
               (MsgProgressLocal completedFiles totalFiles currentPhase
                  currentFile))
          (fun i attempts =>
             console LWarn (MsgProgressRetry (i + 1) attempts))
          3
    end;
  modify (addCall (CallUpdateFileProgress currentFile completedFiles
                     currentPhase totalFiles)).

Definition updateTestCounts (passedTests failedTests totalTests : Z)
    : M unit :=
  do t <- gets this;
  do _ <-
    match activeRun t with
    | None => console LWarn MsgNoRunForCounts
    | Some id =>
        retryOperation
          (do _ <- dbRun (SetCounts id totalTests passedTests failedTests)
                     (fun _ => tt);
           console LLog (MsgCounts passedTests totalTests failedTests))
          (fun attempts error =>
             console LWarn (MsgCountsGaveUp attempts (message error)))
          (fun i attempts =>
             console LWarn (MsgCountsRetry (i + 1) attempts))
          3
    end;
  modify (addCall (CallUpdateTestCounts passedTests failedTests totalTests)).

Definition toTestCase (id : Z) (test : TestResult.t) : TestCase.t :=
  {| TestCase.testRunId := id;
     TestCase.testSuite := TestResult.suite test;
     TestCase.testName := TestResult.name test;
     TestCase.status := TestResult.status test;
     TestCase.duration := TestResult.duration test;
     TestCase.errorMessage := TestResult.error test;
     TestCase.stackTrace := TestResult.stackTrace test |}.

Definition completeTestRun (result : TestRunResult.t) : M unit :=
  do t <- gets this;
  do _ <-
    match activeRun t with
    | None => console LWarn MsgNoRunForCompletion
    | Some id =>
        do now <- dateNow;
        let duration := now - startTime t in
        tryCatch
          (do completedAt <- dateNow;
           do _ <- dbRun (SetCompleted id (TestRunResult.status result)
                            (TestRunResult.totalTests result)
                            (TestRunResult.passedTests result)
                            (TestRunResult.failedTests result)
                            duration completedAt
                            (TestRunResult.errorSummary result))
                     (fun _ => tt);
           do _ <-
             match TestRunResult.tests result with
             | [] => ret tt
             | _ :: _ =>
                 dbRun (InsertTestCases
                          (List.map (toTestCase id)
                             (TestRunResult.tests result)))
                   (fun _ => tt)
             end;
           console LLog
             (MsgRunCompleted (TestRunResult.status result)
                (TestRunResult.passedTests result)
                (TestRunResult.totalTests result)))
          (fun error => console LError (MsgCompleteFailed error))
    end;
  modify (addCall (CallCompleteTestRun result)).

(** *** runTestSuite *)

(** The body of [for (const category of testCategories)]. *)
Definition runCategory (allTestFiles : list jsstring) (totalFiles : Z)
    (category : Category.t) : M unit :=
  let categoryFiles := categoryFilesOf allTestFiles category in
  if (length categoryFiles =? 0)%nat then
    console LLog (MsgSkipping (Category.name category))
  else
    do _ <- console LLog (MsgRunning (Category.name category));
    do f <- gets frame;
    do _ <- updateFileProgress (Category.name category) (completedFiles f)
              (Category.phase category) totalFiles;
    do _ <-
      tryCatch
        (do vitestOutput <- execSync (CmdVitest (Category.pattern category));
         let (categoryStats, categoryResults) :=
           parseAndUpdateTestCounts vitestOutput [] in
         do _ <- modify (fun w =>
                   setFrame (accumulate categoryStats categoryResults
                               categoryFiles (frame w)) w);
         do f <- gets frame;
         do _ <- updateTestCounts (totalPassed f) (totalFailed f)
                   (totalTests f);
         do _ <- updateFileProgress
                   (js "Completed " ++ Category.name category)
                   (completedFiles f) (Category.phase category) totalFiles;
         console LLog
           (MsgCategoryDone (Category.name category)
              (Stats.passed categoryStats) (Stats.total categoryStats)))
        (fun error =>
         do _ <- console LError
                   (MsgCategoryFailed (Category.name category)
                      (message error));
         let errorOutput := orStr (stdout error) (orStr (stderr error) []) in
         let (categoryStats, categoryResults) :=
           parseAndUpdateTestCounts errorOutput [] in
         do _ <- modify (fun w =>
                   setFrame (accumulate categoryStats categoryResults
                               categoryFiles (frame w)) w);
         do f <- gets frame;
         do _ <- updateTestCounts (totalPassed f) (totalFailed f)
                   (totalTests f);
         updateFileProgress
           (js "Completed " ++ Category.name category ++ js " (with errors)")
           (completedFiles f) (Category.phase category) totalFiles);
    sleep 500.

Fixpoint forEachCategory (allTestFiles : list jsstring) (totalFiles : Z)
    (categories : list Category.t) : M unit :=
  match categories with
  | [] => ret tt
  | category :: rest =>
      do _ <- runCategory allTestFiles totalFiles category;
      forEachCategory allTestFiles totalFiles rest
  end.

(** The [try] block.  The timer started by [setInterval] runs
    [updateRunningDuration] between the steps that follow; its writes,
    to [duration] alone, are not part of the model. *)
Definition runTestSuiteTry : M unit :=
  do _ <- console LLog MsgSuiteStarting;
  do _ <- console LLog MsgRule;
  do out <- execSync CmdFind;
  let allTestFiles := testFilesOf out in
  let totalFiles := Z.of_nat (length allTestFiles) in
  do _ <- console LLog (MsgFound totalFiles);
  do testRunId <- startTestRun (Some (js "HEAD")) (js "main") totalFiles;
  do _ <- setInterval 5000;
  do _ <- forEachCategory allTestFiles totalFiles testCategories;
  do f <- gets frame;
  let finalResult := finalResultOf f in
  do _ <- completeTestRun finalResult;
  do _ <- console LLog MsgRule;
  do _ <- console LLog MsgSuiteCompleted;
  do _ <- console LLog
            (MsgResults (totalPassed f) (totalTests f) (totalFailed f));
  console LLog MsgRule.

(** The [catch] block. *)
Definition runTestSuiteCatch (error : JsError) : M unit :=
  do _ <- console LError (MsgSuiteFailed (message error));
  let errorResult := errorResultOf error in
  do _ <- completeTestRun errorResult;
  throw error.

(** The [finally] block. *)
Definition runTestSuiteFinally : M unit :=
  do f <- gets frame;
  if durationUpdateInterval f
  then modify (addEvent EvClearInterval)
  else ret tt.

Definition runTestSuite : M unit :=
  do _ <- modify (setFrame freshFrame);
  tryFinally (tryCatch runTestSuiteTry runTestSuiteCatch) runTestSuiteFinally.

End Program.


(** ** Observations on a computation *)

(** The events a computation adds to the trace, and the calls it adds to
    the record of calls. *)
Definition emitted {A} (m : M A) (w : World) : list Event :=
  drop (length (trace w)) (trace (snd (m w))).

Definition issued {A} (m : M A) (w : World) : list (Call * Db) :=
  drop (length (calls w)) (calls (snd (m w))).

Definition isAttempt (e : Event) : bool :=
  match e with EvDb _ _ => true | _ => false end.

Definition isSleep (e : Event) : bool :=
  match e with EvSleep _ => true | _ => false end.

(** The statements sent, in order, and the statements and waits. *)
Definition attemptsOf (evs : list Event) : list Event :=
  List.filter isAttempt evs.

Definition timeline (evs : list Event) : list Event :=
  List.filter (fun e => isAttempt e || isSleep e) evs.

(** [n] failed attempts of [s], numbered from [k], each followed by a
    wait of [1000 * k] ms. *)
Fixpoint backoff (s : Stmt) (n : nat) (k : Z) : list Event :=
  match n with
  | O => []
  | S n' => EvDb s false :: EvSleep (1000 * k) :: backoff s n' (k + 1)
  end.

(** The results handed to [completeTestRun]. *)
Definition completions (cs : list (Call * Db)) : list TestRunResult.t :=
  flat_map (fun c => match fst c with
                     | CallCompleteTestRun r => [r]
                     | _ => []
                     end) cs.

(** The outcome the store has in stock for the [n]-th coming statement. *)
Definition failsAt (n : nat) (w : World) : option jsstring :=
  match dbScript w !! n with
  | Some o => o
  | None => None
  end.

(** ** Predicates on the tracker's operations *)

(** What a retried update of statement [s] does: it returns, after at
    most three attempts spaced by the waits of [backoff]; either one
    attempt went through, or the third failed too, the warning [gaveUp]
    was printed and the store is as it was, which is what happens when
    the store fails three times in a row. *)
Definition boundedRetry (s : Stmt) (gaveUp : jsstring -> Event)
    (m : M unit) (w : World) : Prop :=
  fst (m w) = Ret tt /\
  (length (attemptsOf (emitted m w)) <= 3)%nat /\
  ((exists n, (n <= 2)%nat /\
      timeline (emitted m w) = backoff s n 1 ++ [EvDb s true] /\
      db (snd (m w)) = applyStmt s (db w)) \/
   (timeline (emitted m w) = backoff s 2 1 ++ [EvDb s false] /\
    (exists msg, In (gaveUp msg) (emitted m w)) /\
    db (snd (m w)) = db w)) /\
  (forall msg1 msg2 msg3,
     failsAt 0 w = Some msg1 -> failsAt 1 w = Some msg2 ->
     failsAt 2 w = Some msg3 ->
     In (gaveUp msg3) (emitted m w) /\ db (snd (m w)) = db w).

(** The store after an update is the store before it, or that store with
    the statement applied for the active run. *)
Definition dbStep (t : TestRunner) (s : Z -> Stmt) (d d' : Db) : Prop :=
  d' = d \/ exists id, activeRun t = Some id /\ d' = applyStmt (s id) d.

(** An update returned: it touched nothing but the store, the script and
    the trace, and its call is on record. *)
Definition updated (c : Call) (s : Z -> Stmt) (w w' : World) : Prop :=
  this w' = this w /\ frame w' = frame w /\ ticks w' = ticks w /\
  calls w' = calls w ++ [(c, db w')] /\
  dbStep (this w) s (db w) (db w').

(** The row [startTestRun] inserts. *)
Definition startedRow (commitHash : option jsstring) (branch : jsstring)
    (totalFiles startedAt : Z) : TestRun.t :=
  {| TestRun.commitHash := commitHash;
     TestRun.branch := branch;
     TestRun.status := running;
     TestRun.startedAt := startedAt;
     TestRun.totalFiles := totalFiles;
     TestRun.completedFiles := 0;
     TestRun.currentFile := None;
     TestRun.currentPhase := Some backend;
     TestRun.totalTests := 0;
     TestRun.passedTests := 0;
     TestRun.failedTests := 0;
     TestRun.duration := None;
     TestRun.completedAt := None;
     TestRun.errorSummary := None |}.


(** The update [completeTestRun] sends for [result], and the rows it
    inserts after it. *)
Definition completion (env : Env) (w : World) (id : Z)
    (result : TestRunResult.t) : Stmt :=
  SetCompleted id (TestRunResult.status result)
    (TestRunResult.totalTests result) (TestRunResult.passedTests result)
    (TestRunResult.failedTests result)
    (clock env (ticks w) - startTime (this w)) (clock env (S (ticks w)))
    (TestRunResult.errorSummary result).

Definition caseRows (id : Z) (result : TestRunResult.t) : Stmt :=
  InsertTestCases (List.map (toTestCase id) (TestRunResult.tests result)).

(** ** Lines and categories *)

Definition isPassLine (line : jsstring) : bool := startsWith [CHECK] (trim line).
Definition isFailLine (line : jsstring) : bool := startsWith [CROSS] (trim line).
Definition isSkipLine (line : jsstring) : bool := startsWith [DOWN] (trim line).

(** A line that carries a marker and that the marker's expression does
    not match. *)
Definition malformed (line : jsstring) : bool :=
  (isPassLine line && bool_decide (jsMatch passedRegex (trim line) = None))
  || (isFailLine line && bool_decide (jsMatch failedRegex (trim line) = None))
  || (isSkipLine line && bool_decide (jsMatch skippedRegex (trim line) = None)).

Definition b2z (b : bool) : Z := if b then 1 else 0.

Definition countLines (p : jsstring -> bool) (lines : list jsstring) : Z :=
  Z.of_nat (length (List.filter p lines)).

Definition sumOver {A} (f : A -> Z) (l : list A) : Z :=
  fold_right (fun x acc => f x + acc) 0 l.

(** What [runTestSuite] parses for a category: the output of [vitest],
    or what the error of a failed [vitest] carries. *)
Definition outputOf (env : Env) (category : Category.t) : jsstring :=
  match vitest env (Category.pattern category) with
  | ExecOk out => out
  | ExecFailed error => orStr (stdout error) (orStr (stderr error) [])
  end.

Definition statsOf (env : Env) (category : Category.t) : Stats.t :=
  fst (parseAndUpdateTestCounts (outputOf env category) []).

Definition resultsOf (env : Env) (category : Category.t)
    : list TestResult.t :=
  snd (parseAndUpdateTestCounts (outputOf env category) []).

(** The skip-marker lines of a category's output. *)
Definition skippedOf (env : Env) (category : Category.t) : Z :=
  countLines isSkipLine (split [LF] (outputOf env category)).

(** A category is run when some discovered file is under its pattern. *)
Definition ran (allTestFiles : list jsstring) (category : Category.t) : bool :=
  negb (length (categoryFilesOf allTestFiles category) =? 0)%nat.

Definition processed (allTestFiles : list jsstring) : list Category.t :=
  List.filter (ran allTestFiles) testCategories.

Definition filesIn (allTestFiles : list jsstring) (category : Category.t)
    : Z :=
  Z.of_nat (length (categoryFilesOf allTestFiles category)).

(** No string of [ps] is a prefix of another. *)
Fixpoint separated (ps : list jsstring) : bool :=
  match ps with
  | [] => true
  | p :: rest =>
      forallb (fun q => negb (startsWith p q) && negb (startsWith q p)) rest
      && separated rest
  end.

(** The frame after the iteration of the loop for [category]. *)
Definition afterCategory (env : Env) (allTestFiles : list jsstring)
    (category : Category.t) (f : Frame) : Frame :=
  if ran allTestFiles category
  then accumulate (statsOf env category) (resultsOf env category)
         (categoryFilesOf allTestFiles category) f
  else f.

Definition afterCategories (env : Env) (allTestFiles : list jsstring)
    (categories : list Category.t) (f : Frame) : Frame :=
  fold_left (fun f category => afterCategory env allTestFiles category f)
    categories f.

(** ** The invariant of the stored run *)

Definition rowOk (row : TestRun.t) : Prop :=
  TestRun.passedTests row + TestRun.failedTests row <= TestRun.totalTests row
  /\ TestRun.completedFiles row <= TestRun.totalFiles row.

Definition storedOk (id : Z) (d : Db) : Prop :=
  exists row, testRuns d !! id = Some row /\ rowOk row.

Definition isUpdate (c : Call) : Prop :=
  match c with
  | CallUpdateFileProgress _ _ _ _ | CallUpdateTestCounts _ _ _ => True
  | _ => False
  end.

Definition okCall (id : Z) (cd : Call * Db) : Prop :=
  isUpdate (fst cd) /\ storedOk id (snd cd).

(** The frame once the timer is set, before the first category. *)
Definition startedFrame : Frame :=
  {| durationUpdateInterval := true;
     totalPassed := 0; totalFailed := 0; totalTests := 0;
     allTestResults := []; completedFiles := 0 |}.

(** ** Sample worlds *)

Definition emptyDb : Db := {| testRuns := ∅; nextId := 1; testCases := [] |}.

(** A tracker fresh from its constructor, on an empty store. *)
Definition idleWorld : World :=
  {| db := emptyDb;
     this := {| testRunId := None; startTime := 0 |};
     frame := freshFrame;
     dbScript := []; ticks := 0; trace := []; calls := [] |}.

(** A clock that advances by one at each reading, a [find] that lists
    two API tests and an end-to-end test, and a [vitest] that passes two
    tests and skips one under [tests/api/] and exits with an error, one
    failure on its standard output, elsewhere. *)
Definition sampleEnv : Env :=
  {| clock := fun n => 1000 + Z.of_nat n;
     findFiles :=
       ExecOk (js "tests/api/a.test.ts" ++ [LF] ++ js "tests/api/b.test.ts"
               ++ [LF] ++ js "tests/e2e/c.test.ts" ++ [LF]);
     vitest := fun pattern =>
       if startsWith (js "tests/api/") pattern
       then ExecOk ([CHECK] ++ js " Users > lists 3ms" ++ [LF; CHECK]
                    ++ js " Users > creates 12ms" ++ [LF; DOWN]
                    ++ js " Users > deletes")
       else ExecFailed
              {| message := js "Command failed";
                 stdout := [CROSS] ++ js " Login > submits 10ms";
                 stderr := [] |} |}.

(** The tracker after a [startTestRun] on the empty store. *)
Definition startedWorld : World :=
  snd (startTestRun sampleEnv None (js "main") 0 idleWorld).

(** The same, facing a store that is about to fail three times, and one
    that will take the next statement and fail the one after. *)
Definition failingWorld : World :=
  setScript [Some (js "down"); Some (js "down"); Some (js "down")]
    startedWorld.

Definition halfFailingWorld : World :=
  setScript [None; Some (js "down")] startedWorld.

Definition sampleTest : TestResult.t :=
  {| TestResult.suite := js "Users"; TestResult.name := js "lists";
     TestResult.status := passed; TestResult.duration := 3;
     TestResult.error := None; TestResult.stackTrace := None |}.

Definition sampleResult : TestRunResult.t :=
  {| TestRunResult.status := passed;
     TestRunResult.totalTests := 1;
     TestRunResult.passedTests := 1;
     TestRunResult.failedTests := 0;
     TestRunResult.duration := 0;
     TestRunResult.tests := [sampleTest];
     TestRunResult.errorSummary := None |}.

(** The end-to-end scenario of the specification: three files in a
    first category whose output has two pass lines, no file in a second,
    one file in a third whose output has one fail line. *)
Definition scenarioEnv : Env :=
  {| clock := fun n => 1000 + Z.of_nat n;
     findFiles :=
       ExecOk (js "tests/integration/a.test.ts" ++ [LF]
               ++ js "tests/integration/b.test.ts" ++ [LF]
               ++ js "tests/integration/c.test.ts" ++ [LF]
               ++ js "tests/storage/d.test.ts" ++ [LF]);
     vitest := fun pattern =>
       if startsWith (js "tests/integration/") pattern
       then ExecOk ([CHECK] ++ js " Db > connects 5ms" ++ [LF; CHECK]
                    ++ js " Db > migrates 7ms" ++ [LF])
       else ExecOk ([CROSS] ++ js " Store > saves 9ms" ++ [LF]) |}.

(** A [find] that fails. *)
Definition findError : JsError :=
  {| message := js "Command failed: find"; stdout := []; stderr := [] |}.

Definition failingEnv : Env :=
  {| clock := fun n => 1000 + Z.of_nat n;
     findFiles := ExecFailed findError;
     vitest := fun _ => ExecOk [] |}.

(** The files a run of [env] works on. *)
Definition discovered (env : Env) : list jsstring :=
  match findFiles env with
  | ExecOk out => testFilesOf out
  | ExecFailed _ => []
  end.
From Stdlib Require Import Sorted.


(** ** More observations on the parser *)

Definition matches (r : list Node) (s : jsstring) : bool :=
  match jsMatch r s with Some _ => true | None => false end.

(** A line that carries a marker and that the marker's expression
    matches: the lines for which a test case is recorded. *)
Definition wellFormed (line : jsstring) : bool :=
  (isPassLine line && matches passedRegex (trim line))
  || (isFailLine line && matches failedRegex (trim line))
  || (isSkipLine line && matches skippedRegex (trim line)).

(** The statistics of two outputs parsed one after the other. *)
Definition addStats (a b : Stats.t) : Stats.t :=
  {| Stats.passed := Stats.passed a + Stats.passed b;
     Stats.failed := Stats.failed a + Stats.failed b;
     Stats.total := Stats.total a + Stats.total b |}.

(** The shapes of the pieces of a marker line: a run of white space, a
    label (code units that [.] matches, the first and the last of them
    not white space), a run of digits. *)
Definition isBlank (s : jsstring) : bool := nonEmpty s && forallb isSpace s.

Definition isLabel (s : jsstring) : bool :=
  nonEmpty s && forallb isDot s
  && negb (isSpace (hd 0%N s)) && negb (isSpace (List.last s 0%N)).




(** ** The rest of the tracker *)

(** A statement of the tracker's other methods: it consumes the store's
    next outcome like the statements of [dbRun], fails leaving the store
    as it was, or applies [change] and returns what [result] reads off
    the store it ran against.  (The trace records the statements of
    [Stmt] only.) *)
Definition dbQuery {A} (change : Db -> Db) (result : Db -> A) : M A :=
  fun w =>
    match dbScript w with
    | Some msg :: rest => (Throw (mkError msg), setScript rest w)
    | None :: rest =>
        (Ret (result (db w)), setDb (change (db w)) (setScript rest w))
    | [] => (Ret (result (db w)), setDb (change (db w)) w)
    end.

(** Modelled from the spec: the store's select ordered by identifier
    descending with limit 1 (section 6): the row with the greatest
    identifier, with that identifier. *)
Definition latestOf (rows : list (Z * TestRun.t)) : option (Z * TestRun.t) :=
  fold_right
    (fun kv best =>
       match best with
       | None => Some kv
       | Some b => if fst b <? fst kv then Some kv else Some b
       end)
    None rows.

Definition selectLatest (d : Db) : option (Z * TestRun.t) :=
  latestOf (map_to_list (testRuns d)).

(** [const [latest] = await this.db.select({...}).from(...)
    .orderBy(desc(id)).limit(1); return latest]: the latest run with its
    identifier, [None] for [undefined]. *)
Definition getLatestTestRun : M (option (Z * TestRun.t)) :=
  dbQuery (fun d => d) selectLatest.

Definition setDuration (duration : Z) (r : TestRun.t) : TestRun.t :=
  {| TestRun.commitHash := TestRun.commitHash r;
     TestRun.branch := TestRun.branch r;
     TestRun.status := TestRun.status r;
     TestRun.startedAt := TestRun.startedAt r;
     TestRun.totalFiles := TestRun.totalFiles r;
     TestRun.completedFiles := TestRun.completedFiles r;
     TestRun.currentFile := TestRun.currentFile r;
     TestRun.currentPhase := TestRun.currentPhase r;
     TestRun.totalTests := TestRun.totalTests r;
     TestRun.passedTests := TestRun.passedTests r;
     TestRun.failedTests := TestRun.failedTests r;
     TestRun.duration := Some duration;
     TestRun.completedAt := TestRun.completedAt r;
     TestRun.errorSummary := TestRun.errorSummary r |}.

Definition writeDuration (id duration : Z) (d : Db) : Db :=
  {| testRuns := alter (setDuration duration) id (testRuns d);
     nextId := nextId d;
     testCases := testCases d |}.

Definition updateRunningDuration (env : Env) (testRunId : Z) : M unit :=
  do run <- dbQuery (fun d => d)
              (fun d => TestRun.startedAt <$> testRuns d !! testRunId);
  match run with
  | Some startedAt =>
      do now <- dateNow env;
      let duration := now - startedAt in
      dbQuery (writeDuration testRunId duration) (fun _ => tt)
  | None => ret tt
  end.

(** Two rows that differ in [duration] at most. *)
Definition sameButDuration (a b : TestRun.t) : Prop :=
  setDuration 0 a = setDuration 0 b.

(** ** A run on a store that takes every statement *)

Definition reliable (w : World) : Prop :=
  Forall (fun outcome => outcome = None) (dbScript w).




(** ** The routes: GET /api/test-status/deploy-ready *)

Module DeployReady.
(** The body of the answer.  [ready] is [None] when the expression
    [latest && ...] is [undefined], which [res.json] leaves out. *)
Record t := {
  ready : option bool;
  reason : jsstring
}.
End DeployReady.


(** [latest && (latest.status === 'passed' || latest.status ===
    'completed') && latest.failedTests === 0].  No row of the model has
    the status 'completed': [startTestRun] and [completeTestRun] write
    'running', 'passed' and 'failed'. *)
Definition readyOf (latest : option (Z * TestRun.t)) : option bool :=
  match latest with
  | None => None
  | Some (_, run) =>
      Some (match TestRun.status run with
            | passed => true
            | _ => false
            end && (TestRun.failedTests run =? 0))
  end.





(** ** The duration timer *)




(** ** The calls of a run *)

(** The label of the update that closes the iteration for [category]. *)
Definition doneLabel (env : Env) (category : Category.t) : jsstring :=
  match vitest env (Category.pattern category) with
  | ExecOk _ => js "Completed " ++ Category.name category
  | ExecFailed _ =>
      js "Completed " ++ Category.name category ++ js " (with errors)"
  end.

(** The updates of the iteration for [category], entered with the frame
    [f]: none when no file is under its pattern. *)
Definition updatesFor (env : Env) (allTestFiles : list jsstring)
    (totalFiles : Z) (category : Category.t) (f : Frame) : list Call :=
  if ran allTestFiles category then
    let f' := afterCategory env allTestFiles category f in
    [ CallUpdateFileProgress (Category.name category) (completedFiles f)
        (Category.phase category) totalFiles;
      CallUpdateTestCounts (totalPassed f') (totalFailed f') (totalTests f');
      CallUpdateFileProgress (doneLabel env category) (completedFiles f')
        (Category.phase category) totalFiles ]
  else [].

Fixpoint updatesOf (env : Env) (allTestFiles : list jsstring)
    (totalFiles : Z) (categories : list Category.t) (f : Frame)
    : list Call :=
  match categories with
  | [] => []
  | category :: rest =>
      updatesFor env allTestFiles totalFiles category f
      ++ updatesOf env allTestFiles totalFiles rest
           (afterCategory env allTestFiles category f)
  end.

(** The [completedFiles] argument of the progress updates among [cs],
    and the counters of the count updates, in order. *)
Definition progressOf (cs : list Call) : list Z :=
  flat_map (fun c => match c with
                     | CallUpdateFileProgress _ completed _ _ => [completed]
                     | _ => []
                     end) cs.

Definition countsOf (cs : list Call) : list (Z * Z * Z) :=
  flat_map (fun c => match c with
                     | CallUpdateTestCounts p f t => [(p, f, t)]
                     | _ => []
                     end) cs.

Definition countsLe (a b : Z * Z * Z) : Prop :=
  fst (fst a) <= fst (fst b) /\ snd (fst a) <= snd (fst b) /\ snd a <= snd b.

(** ** Files and categories *)

(** [file] is under the pattern of one of the categories of
    [runTestSuite]. *)
Definition categorised (file : jsstring) : bool :=
  existsb (fun category => startsWith (Category.pattern category) file)
    testCategories.

(** ** The test generator: [TestGenerator.generateAllTests] *)

Module Role.
Record t := { name : jsstring; permissions : list jsstring }.
End Role.

Module Page.
Record t := {
  name : jsstring;
  path : jsstring;
  component : jsstring;
  viewModes : list jsstring;
  requiredRole : option jsstring;
  hasTabNavigation : option bool
}.
End Page.

Module Endpoint.
Record t := {
  path : jsstring;
  methods : list jsstring;
  requiresAuth : bool;
  allowedRoles : option (list jsstring)
}.
End Endpoint.

Module Table.
Record t := {
  name : jsstring;
  requiredFields : list jsstring;
  relationships : option (list jsstring)
}.
End Table.

Module TestConfig.
Record t := {
  appName : jsstring;
  domain : jsstring;
  entities : list jsstring;
  roles : list Role.t;
  pages : list Page.t;
  apiEndpoints : list Endpoint.t;
  dbTables : list Table.t
}.
End TestConfig.

Definition SLASH : N := 47.
Definition DASH : N := 45.

(** [path.replace(/^\/api\//, '')] *)
Definition stripApi (path : jsstring) : jsstring :=
  if startsWith (js "/api/") path then drop 5 path else path.

(** [s.replace(/\//g, '-')] *)
Definition dashed (s : jsstring) : jsstring :=
  List.map (fun c => if N.eqb c SLASH then DASH else c) s.

(** [endpoint.path.replace(/^\/api\//, '').replace(/\//g, '-')] *)
Definition apiFilename (path : jsstring) : jsstring :=
  dashed (stripApi path).

Definition apiTestFile (endpoint : Endpoint.t) : jsstring :=
  js "tests/api/" ++ apiFilename (Endpoint.path endpoint) ++ js ".test.ts".

Definition roleAccessFile : jsstring :=
  js "tests/integration/role-access.test.ts".

Definition databaseFile : jsstring :=
  js "tests/integration/database.test.ts".

Section Generator.

(** [String.prototype.toLowerCase], and the templates of the other
    modules, which the file names do not depend on. *)
Variable toLowerCase : jsstring -> jsstring.
Variable generatePageTest : Page.t -> jsstring.
Variable generateAPITest : Endpoint.t -> jsstring.
Variable generateRoleAccessTest :
  list Endpoint.t -> list jsstring -> jsstring.
Variable generateDatabaseTests : TestConfig.t -> jsstring.

Definition pageTestFile (page : Page.t) : jsstring :=
  js "tests/pages/" ++ toLowerCase (Page.name page) ++ js "-page.test.tsx".

(** The object [tests], from file name to the text of the test. *)
Definition generateAllTests (config : TestConfig.t)
    : gmap jsstring jsstring :=
  let tests : gmap jsstring jsstring := ∅ in
  let tests :=
    fold_left
      (fun tests page =>
         let pageTest := generatePageTest page in
         <[pageTestFile page := pageTest]> tests)
      (TestConfig.pages config) tests in
  let tests :=
    fold_left
      (fun tests endpoint =>
         let apiTest := generateAPITest endpoint in
         <[apiTestFile endpoint := apiTest]> tests)
      (TestConfig.apiEndpoints config) tests in
  let roleAccessTest :=
    generateRoleAccessTest (TestConfig.apiEndpoints config)
      (List.map Role.name (TestConfig.roles config)) in
  let tests := <[roleAccessFile := roleAccessTest]> tests in
  let dbTest := generateDatabaseTests config in
  <[databaseFile := dbTest]> tests.

End Generator.

(** ** The output of [find] *)

(** A line of the output of [find]: a path, not empty and without a
    line feed. *)
Definition isPath (name : jsstring) : bool :=
  nonEmpty name && forallb (fun c => negb (N.eqb c LF)) name.

(** ** What a run may change in the store *)

(** From [d] to [d'] no run was added, no run other than [id] was
    changed, the run [id] was not removed, and the test cases that were
    added are cases of [id]. *)
Definition ownRunOnly (id : Z) (d d' : Db) : Prop :=
  nextId d' = nextId d /\
  (forall k, k <> id -> testRuns d' !! k = testRuns d !! k) /\
  (is_Some (testRuns d !! id) -> is_Some (testRuns d' !! id)) /\
  exists added,
    testCases d' = testCases d ++ added /\
    Forall (fun c => TestCase.testRunId c = id) added.

(** ** The tracker's updates *)



Lemma emitted_app {A} (m : M A) (w : World) (evs : list Event) :
  trace (snd (m w)) = trace w ++ evs -> emitted m w = evs.
Proof. intros H. unfold emitted. rewrite H. apply drop_app_length. Qed.

Lemma issued_app {A} (m : M A) (w : World) (cs : list (Call * Db)) :
  calls (snd (m w)) = calls w ++ cs -> issued m w = cs.
Proof. intros H. unfold issued. rewrite H. apply drop_app_length. Qed.

(** Splits the script far enough to decide three statements. *)
Ltac split_script sc :=
  let m1 := fresh "msg1" in
  let m2 := fresh "msg2" in
  let m3 := fresh "msg3" in
  destruct sc as [|[m1|] [|[m2|] [|[m3|] sc]]].

(** Runs the primitives on a world given by its fields. *)
Ltac run :=
  unfold retryOperation, bind, tryCatch, dbRun, dateNow, gets, modify,
    console, sleep, ret; simpl.

Ltac close_retry :=
  split; [reflexivity|];
  rewrite <- ?app_assoc, drop_app_length; simpl;
  split; [lia|];
  split;
  [ first
      [ left; exists 0%nat; repeat split; (lia || reflexivity)
      | left; exists 1%nat; repeat split; (lia || reflexivity)
      | left; exists 2%nat; repeat split; (lia || reflexivity)
      | right; repeat split; try reflexivity; eexists; simpl; eauto 12 ]
  | unfold failsAt; simpl; intros ? ? ? E1 E2 E3;
    first [ discriminate
          | injection E3 as <-; split; [simpl; auto 12 | reflexivity] ] ].

Lemma updateTestCounts_retry w id p f t :
  activeRun (this w) = Some id ->
  boundedRetry (SetCounts id t p f)
    (fun msg => EvConsole LWarn (MsgCountsGaveUp 3 msg))
    (updateTestCounts p f t) w.
Proof.
  intros H. unfold boundedRetry, emitted, updateTestCounts, bind, gets.
  destruct w as [d th fr sc tk tr cs]; simpl in *; rewrite H.
  split_script sc; run; close_retry.
Qed.

Lemma updateFileProgress_retry w id cf c ph tf :
  activeRun (this w) = Some id ->
  boundedRetry (SetProgress id cf c ph tf)
    (fun msg => EvConsole LWarn (MsgProgressGaveUp 3 msg))
    (updateFileProgress cf c ph tf) w.
Proof.
  intros H. unfold boundedRetry, emitted, updateFileProgress, bind, gets.
  destruct w as [d th fr sc tk tr cs]; simpl in *; rewrite H.
  split_script sc; run; close_retry.
Qed.

Ltac close_updated :=
  repeat split;
  first [ left; reflexivity
        | right; eexists; split; reflexivity ].

Lemma updateTestCounts_updated p f t w :
  fst (updateTestCounts p f t w) = Ret tt /\
  updated (CallUpdateTestCounts p f t) (fun id => SetCounts id t p f) w
    (snd (updateTestCounts p f t w)).
Proof.
  unfold updated, dbStep, updateTestCounts, bind, gets.
  destruct w as [d th fr sc tk tr cs]; simpl.
  destruct (activeRun th) as [id|].
  - split_script sc; run; close_updated.
  - run. close_updated.
Qed.

Lemma updateFileProgress_updated cf c ph tf w :
  fst (updateFileProgress cf c ph tf w) = Ret tt /\
  updated (CallUpdateFileProgress cf c ph tf)
    (fun id => SetProgress id cf c ph tf) w
    (snd (updateFileProgress cf c ph tf w)).
Proof.
  unfold updated, dbStep, updateFileProgress, bind, gets.
  destruct w as [d th fr sc tk tr cs]; simpl.
  destruct (activeRun th) as [id|].
  - split_script sc; run; close_updated.
  - run. close_updated.
Qed.

(** [completeTestRun] returns whatever the store does, and leaves one
    call on record. *)
Lemma completeTestRun_returns env result w :
  let w' := snd (completeTestRun env result w) in
  fst (completeTestRun env result w) = Ret tt /\
  this w' = this w /\ frame w' = frame w /\
  calls w' = calls w ++ [(CallCompleteTestRun result, db w')].
Proof.
  unfold completeTestRun, bind, gets.
  destruct w as [d th fr sc tk tr cs]; simpl.
  destruct (activeRun th) as [id|] eqn:H.
  - destruct (TestRunResult.tests result) eqn:T;
      split_script sc; run; rewrite ?T; simpl; auto.
  - run. auto.
Qed.

Lemma startTestRun_ok env commitHash branch totalFiles w :
  failsAt 0 w = None ->
  let w' := snd (startTestRun env commitHash branch totalFiles w) in
  let row := startedRow commitHash branch totalFiles
               (clock env (S (ticks w))) in
  fst (startTestRun env commitHash branch totalFiles w)
    = Ret (nextId (db w)) /\
  this w' = {| testRunId := Some (nextId (db w));
               startTime := clock env (ticks w) |} /\
  frame w' = frame w /\
  db w' = applyStmt (InsertTestRun row) (db w) /\
  calls w' = calls w ++
    [(CallStartTestRun commitHash branch totalFiles, db w')] /\
  trace w' = trace w ++
    [EvDb (InsertTestRun row) true;
     EvConsole LLog (MsgRunStarted (nextId (db w)))].
Proof.
  unfold startTestRun, failsAt, bind.
  destruct w as [d th fr sc tk tr cs]; simpl.
  destruct sc as [|[m|] sc]; simpl; intros H; try discriminate;
    run; rewrite <- ?app_assoc; repeat split; reflexivity.
Qed.

Lemma startTestRun_fails env commitHash branch totalFiles w msg :
  failsAt 0 w = Some msg ->
  let w' := snd (startTestRun env commitHash branch totalFiles w) in
  fst (startTestRun env commitHash branch totalFiles w)
    = Throw (mkError msg) /\
  testRunId (this w') = testRunId (this w) /\
  frame w' = frame w /\ db w' = db w /\ calls w' = calls w.
Proof.
  unfold startTestRun, failsAt, bind.
  destruct w as [d th fr sc tk tr cs]; simpl.
  destruct sc as [|[m|] sc]; simpl; intros H; try discriminate.
  injection H as ->.
  run; repeat split; reflexivity.
Qed.

(** ** The tracker: claims *)

(** C3. With an active run, [updateFileProgress] and [updateTestCounts]
    each send their statement at most three times; a failed first
    attempt is followed by a wait of 1000 ms and a failed second one by
    a wait of 2000 ms before the next attempt; when the third attempt
    fails as well, the call still returns normally, having printed the
    warning that it gave up. *)
Theorem updates_retry_with_backoff (w : World) (id : Z)
    (currentFile : jsstring) (completedFiles : Z) (currentPhase : Phase)
    (totalFiles passedTests failedTests totalTests : Z) :
  activeRun (this w) = Some id ->
  boundedRetry
    (SetProgress id currentFile completedFiles currentPhase totalFiles)
    (fun msg => EvConsole LWarn (MsgProgressGaveUp 3 msg))
    (updateFileProgress currentFile completedFiles currentPhase totalFiles) w
  /\ boundedRetry
       (SetCounts id totalTests passedTests failedTests)
       (fun msg => EvConsole LWarn (MsgCountsGaveUp 3 msg))
       (updateTestCounts passedTests failedTests totalTests) w.
Proof.
  intros H. split.
  - now apply updateFileProgress_retry.
  - now apply updateTestCounts_retry.
Qed.

Lemma updates_retry_with_backoff_witness :
  activeRun (this failingWorld) = Some 1 /\
  (boundedRetry (SetProgress 1 (js "API Tests") 0 backend 3)
     (fun msg => EvConsole LWarn (MsgProgressGaveUp 3 msg))
     (updateFileProgress (js "API Tests") 0 backend 3) failingWorld
   /\ boundedRetry (SetCounts 1 2 1 1)
        (fun msg => EvConsole LWarn (MsgCountsGaveUp 3 msg))
        (updateTestCounts 1 1 2) failingWorld).
Proof.
  split; [reflexivity|].
  apply (updates_retry_with_backoff failingWorld 1); reflexivity.
Defined.

(** The retry scenarios of the specification: two failures and a
    success make two warnings and waits of 1 s and 2 s; three failures
    end in the final warning, with no third wait. *)
Example retry_then_success :
  emitted (updateTestCounts 1 0 1)
    (setScript [Some (js "down"); Some (js "down"); None] startedWorld)
  = [ EvDb (SetCounts 1 1 1 0) false;
      EvConsole LWarn (MsgCountsRetry 1 3); EvSleep 1000;
      EvDb (SetCounts 1 1 1 0) false;
      EvConsole LWarn (MsgCountsRetry 2 3); EvSleep 2000;
      EvDb (SetCounts 1 1 1 0) true;
      EvConsole LLog (MsgCounts 1 1 0) ].
Proof. reflexivity. Qed.

Example retry_exhausted :
  fst (updateTestCounts 1 0 1 failingWorld) = Ret tt /\
  emitted (updateTestCounts 1 0 1) failingWorld
  = [ EvDb (SetCounts 1 1 1 0) false;
      EvConsole LWarn (MsgCountsRetry 1 3); EvSleep 1000;
      EvDb (SetCounts 1 1 1 0) false;
      EvConsole LWarn (MsgCountsRetry 2 3); EvSleep 2000;
      EvDb (SetCounts 1 1 1 0) false;
      EvConsole LWarn (MsgCountsGaveUp 3 (js "down")) ].
Proof. split; reflexivity. Qed.

(** C9. Without an active run, [updateFileProgress] and
    [updateTestCounts] send nothing to the store, print one warning and
    return normally. *)
Theorem updates_without_run_are_noops (w : World)
    (currentFile : jsstring) (completedFiles : Z) (currentPhase : Phase)
    (totalFiles passedTests failedTests totalTests : Z) :
  activeRun (this w) = None ->
  let progress :=
    updateFileProgress currentFile completedFiles currentPhase totalFiles in
  let counts := updateTestCounts passedTests failedTests totalTests in
  (fst (progress w) = Ret tt /\
   emitted progress w = [EvConsole LWarn MsgNoRunForProgress] /\
   db (snd (progress w)) = db w /\
   dbScript (snd (progress w)) = dbScript w) /\
  (fst (counts w) = Ret tt /\
   emitted counts w = [EvConsole LWarn MsgNoRunForCounts] /\
   db (snd (counts w)) = db w /\
   dbScript (snd (counts w)) = dbScript w).
Proof.
  intros H. unfold emitted, updateFileProgress, updateTestCounts, bind, gets.
  destruct w as [d th fr sc tk tr cs]; simpl in *. rewrite H. run.
  rewrite !drop_app_length. repeat split.
Qed.

Lemma updates_without_run_are_noops_witness :
  activeRun (this idleWorld) = None /\
  (let progress := updateFileProgress (js "API Tests") 0 backend 3 in
   let counts := updateTestCounts 1 0 1 in
   (fst (progress idleWorld) = Ret tt /\
    emitted progress idleWorld = [EvConsole LWarn MsgNoRunForProgress] /\
    db (snd (progress idleWorld)) = db idleWorld /\
    dbScript (snd (progress idleWorld)) = dbScript idleWorld) /\
   (fst (counts idleWorld) = Ret tt /\
    emitted counts idleWorld = [EvConsole LWarn MsgNoRunForCounts] /\
    db (snd (counts idleWorld)) = db idleWorld /\
    dbScript (snd (counts idleWorld)) = dbScript idleWorld)).
Proof.
  split; [reflexivity|].
  apply (updates_without_run_are_noops idleWorld); reflexivity.
Defined.

(** C5, as the claim states it, fails: the row [startTestRun] inserts
    has [currentPhase] set, to ['backend']. *)
Lemma startTestRun_sets_currentPhase :
  exists row,
    testRuns (db (snd (startTestRun sampleEnv None (js "main") 0 idleWorld)))
      !! 1 = Some row /\
    TestRun.currentPhase row <> None.
Proof.
  eexists. split.
  - simpl. apply lookup_insert_eq.
  - discriminate.
Qed.

(** C5, amended. A [startTestRun] whose insert goes through sends that
    one statement and no other; the row it creates has status
    [running], [startedAt] read off the clock during the call, the three
    test counters and [completedFiles] at zero, [totalFiles] as given,
    [currentFile] unset and [currentPhase] set to ['backend']; the
    identifier the store assigned is returned and is the tracker's
    [testRunId] from then on. *)
Theorem startTestRun_creates_running_row (env : Env) (w : World)
    (commitHash : option jsstring) (branch : jsstring) (totalFiles : Z) :
  failsAt 0 w = None ->
  let start := startTestRun env commitHash branch totalFiles in
  let id := nextId (db w) in
  let row :=
    {| TestRun.commitHash := commitHash;
       TestRun.branch := branch;
       TestRun.status := running;
       TestRun.startedAt := clock env (S (ticks w));
       TestRun.totalFiles := totalFiles;
       TestRun.completedFiles := 0;
       TestRun.currentFile := None;
       TestRun.currentPhase := Some backend;
       TestRun.totalTests := 0;
       TestRun.passedTests := 0;
       TestRun.failedTests := 0;
       TestRun.duration := None;
       TestRun.completedAt := None;
       TestRun.errorSummary := None |} in
  fst (start w) = Ret id /\
  attemptsOf (emitted start w) = [EvDb (InsertTestRun row) true] /\
  testRuns (db (snd (start w))) !! id = Some row /\
  testRunId (this (snd (start w))) = Some id /\
  startTime (this (snd (start w))) = clock env (ticks w).
Proof.
  intros H start id row.
  destruct (startTestRun_ok env commitHash branch totalFiles w H)
    as (Hret & Hthis & _ & Hdb & _ & Htrace).
  fold start in Hret, Hthis, Hdb, Htrace.
  repeat split.
  - exact Hret.
  - rewrite (emitted_app _ _ _ Htrace). reflexivity.
  - rewrite Hdb. unfold applyStmt. simpl. apply lookup_insert_eq.
  - rewrite Hthis. reflexivity.
  - rewrite Hthis. reflexivity.
Qed.

Lemma startTestRun_creates_running_row_witness :
  failsAt 0 idleWorld = None /\
  (let start := startTestRun sampleEnv (Some (js "HEAD")) (js "main") 3 in
   let row :=
     {| TestRun.commitHash := Some (js "HEAD");
        TestRun.branch := js "main";
        TestRun.status := running;
        TestRun.startedAt := 1001;
        TestRun.totalFiles := 3;
        TestRun.completedFiles := 0;
        TestRun.currentFile := None;
        TestRun.currentPhase := Some backend;
        TestRun.totalTests := 0;
        TestRun.passedTests := 0;
        TestRun.failedTests := 0;
        TestRun.duration := None;
        TestRun.completedAt := None;
        TestRun.errorSummary := None |} in
   fst (start idleWorld) = Ret 1 /\
   attemptsOf (emitted start idleWorld) = [EvDb (InsertTestRun row) true] /\
   testRuns (db (snd (start idleWorld))) !! 1 = Some row /\
   testRunId (this (snd (start idleWorld))) = Some 1 /\
   startTime (this (snd (start idleWorld))) = 1000).
Proof.
  split; [reflexivity|].
  apply (startTestRun_creates_running_row sampleEnv idleWorld
           (Some (js "HEAD")) (js "main") 3).
  reflexivity.
Defined.

(** C7, as the claim states it, fails: when the update goes through and
    the bulk insert fails, persistence has failed and yet the run has
    its terminal write. *)
Lemma completeTestRun_insert_failure_keeps_terminal_write :
  let w' := snd (completeTestRun sampleEnv sampleResult halfFailingWorld) in
  In (EvDb (caseRows 1 sampleResult) false)
    (emitted (completeTestRun sampleEnv sampleResult) halfFailingWorld) /\
  exists row,
    testRuns (db w') !! 1 = Some row /\
    TestRun.status row = passed /\
    TestRun.completedAt row = Some 1003.
Proof.
  split.
  - right. left. reflexivity.
  - eexists. split.
    + simpl. unfold applyStmt. simpl.
      rewrite lookup_alter_eq, lookup_insert_eq. reflexivity.
    + split; reflexivity.
Qed.

Ltac close_complete :=
  repeat split; intros; unfold failsAt in *; simpl in *;
  try discriminate; try congruence;
  rewrite <- ?app_assoc, ?drop_app_length; simpl;
  repeat split; try reflexivity; simplify_eq; simpl; auto 8.

(** C7, amended. With an active run, [completeTestRun] returns normally
    whatever the store does and sends the terminal update (status,
    counters, duration, completedAt, errorSummary) once.  If the update
    goes through, the rows of [result.tests] are then inserted in one
    statement, provided there are any; if the update fails, nothing else
    is sent, the error is printed and the run is left without a terminal
    write; if the update goes through and the insert fails, the error is
    printed, nothing is sent again, and the run keeps its terminal write
    without its test cases. *)
Theorem completeTestRun_writes_once (env : Env) (w : World) (id : Z)
    (result : TestRunResult.t) :
  activeRun (this w) = Some id ->
  let complete := completeTestRun env result in
  let upd := completion env w id result in
  let ins := caseRows id result in
  fst (complete w) = Ret tt /\
  (failsAt 0 w = None -> TestRunResult.tests result = [] ->
     attemptsOf (emitted complete w) = [EvDb upd true] /\
     db (snd (complete w)) = applyStmt upd (db w)) /\
  (failsAt 0 w = None -> TestRunResult.tests result <> [] ->
   failsAt 1 w = None ->
     attemptsOf (emitted complete w) = [EvDb upd true; EvDb ins true] /\
     db (snd (complete w)) = applyStmt ins (applyStmt upd (db w))) /\
  (forall msg, failsAt 0 w = Some msg ->
     attemptsOf (emitted complete w) = [EvDb upd false] /\
     In (EvConsole LError (MsgCompleteFailed (mkError msg)))
       (emitted complete w) /\
     db (snd (complete w)) = db w) /\
  (forall msg, failsAt 0 w = None -> TestRunResult.tests result <> [] ->
   failsAt 1 w = Some msg ->
     attemptsOf (emitted complete w) = [EvDb upd true; EvDb ins false] /\
     In (EvConsole LError (MsgCompleteFailed (mkError msg)))
       (emitted complete w) /\
     db (snd (complete w)) = applyStmt upd (db w)).
Proof.
  intros H. unfold emitted, completion, caseRows, completeTestRun, bind, gets.
  destruct w as [d th fr sc tk tr cs]; simpl in *. rewrite H.
  destruct (TestRunResult.tests result) as [|test tests] eqn:T;
    split_script sc; run; close_complete.
Qed.

Lemma completeTestRun_writes_once_witness :
  activeRun (this halfFailingWorld) = Some 1 /\
  (let complete := completeTestRun sampleEnv sampleResult in
   let w := halfFailingWorld in
   let upd := completion sampleEnv w 1 sampleResult in
   let ins := caseRows 1 sampleResult in
   fst (complete w) = Ret tt /\
   (failsAt 0 w = None -> TestRunResult.tests sampleResult = [] ->
      attemptsOf (emitted complete w) = [EvDb upd true] /\
      db (snd (complete w)) = applyStmt upd (db w)) /\
   (failsAt 0 w = None -> TestRunResult.tests sampleResult <> [] ->
    failsAt 1 w = None ->
      attemptsOf (emitted complete w) = [EvDb upd true; EvDb ins true] /\
      db (snd (complete w)) = applyStmt ins (applyStmt upd (db w))) /\
   (forall msg, failsAt 0 w = Some msg ->
      attemptsOf (emitted complete w) = [EvDb upd false] /\
      In (EvConsole LError (MsgCompleteFailed (mkError msg)))
        (emitted complete w) /\
      db (snd (complete w)) = db w) /\
   (forall msg, failsAt 0 w = None -> TestRunResult.tests sampleResult <> [] ->
    failsAt 1 w = Some msg ->
      attemptsOf (emitted complete w) = [EvDb upd true; EvDb ins false] /\
      In (EvConsole LError (MsgCompleteFailed (mkError msg)))
        (emitted complete w) /\
      db (snd (complete w)) = applyStmt upd (db w))).
Proof.
  split; [reflexivity|].
  apply (completeTestRun_writes_once sampleEnv halfFailingWorld 1
           sampleResult).
  reflexivity.
Defined.

(** C10. [completeTestRun] leaves [testRunId] as it is and does not
    look at the row before writing.  On a store that takes every
    statement, a second [completeTestRun] on a run that has been
    completed sends the terminal update again, so that the row holds the
    status, counters and completion time of the second call, and sends
    the bulk insert again when its [tests] are not empty, so that the
    rows of the second call follow those of the first in [testCases]:
    completing twice with one result stores each of its test cases
    twice. *)
Theorem completeTestRun_twice (env : Env) (w : World) (id : Z)
    (result again : TestRunResult.t) (row : TestRun.t) :
  activeRun (this w) = Some id ->
  (forall n, failsAt n w = None) ->
  testRuns (db w) !! id = Some row ->
  let w1 := snd (completeTestRun env result w) in
  let w2 := snd (completeTestRun env again w1) in
  testRunId (this w1) = testRunId (this w) /\
  testRunId (this w2) = testRunId (this w) /\
  attemptsOf
    (emitted (do _ <- completeTestRun env result;
              completeTestRun env again) w)
    = EvDb (completion env w id result) true
      :: match TestRunResult.tests result with
         | [] => []
         | _ :: _ => [EvDb (caseRows id result) true]
         end
      ++ EvDb (completion env w1 id again) true
      :: match TestRunResult.tests again with
         | [] => []
         | _ :: _ => [EvDb (caseRows id again) true]
         end /\
  testCases (db w2)
    = testCases (db w)
      ++ List.map (toTestCase id) (TestRunResult.tests result)
      ++ List.map (toTestCase id) (TestRunResult.tests again) /\
  exists row1 row2,
    testRuns (db w1) !! id = Some row1 /\
    TestRun.status row1 = TestRunResult.status result /\
    testRuns (db w2) !! id = Some row2 /\
    TestRun.status row2 = TestRunResult.status again /\
    TestRun.totalTests row2 = TestRunResult.totalTests again /\
    TestRun.passedTests row2 = TestRunResult.passedTests again /\
    TestRun.failedTests row2 = TestRunResult.failedTests again /\
    TestRun.completedAt row2 = Some (clock env (3 + ticks w)) /\
    TestRun.completedAt row1 = Some (clock env (1 + ticks w)).
Proof.
  intros H Hok Hrow.
  pose proof (Hok 0%nat) as H0. pose proof (Hok 1%nat) as H1.
  pose proof (Hok 2%nat) as H2. pose proof (Hok 3%nat) as H3.
  clear Hok. revert H0 H1 H2 H3.
  unfold emitted, completion, caseRows, completeTestRun, bind, gets, failsAt.
  destruct w as [d th fr sc tk tr cs]; simpl in *. rewrite H.
  destruct (TestRunResult.tests result) as [|t1 ts1] eqn:T1;
    destruct (TestRunResult.tests again) as [|t2 ts2] eqn:T2;
    destruct sc as [|[?|] [|[?|] [|[?|] [|[?|] sc]]]]; simpl;
    intros H0 H1 H2 H3; try discriminate;
    run; rewrite ?H; run;
    rewrite <- ?app_assoc, ?drop_app_length, ?app_nil_r; simpl;
    (repeat split; try reflexivity);
    unfold applyStmt; simpl;
    rewrite ?lookup_alter_eq, Hrow; simpl;
    eexists; eexists; repeat split; reflexivity.
Qed.

Lemma completeTestRun_twice_witness :
  activeRun (this startedWorld) = Some 1 /\
  (forall n, failsAt n startedWorld = None) /\
  testRuns (db startedWorld) !! 1
    = Some (startedRow None (js "main") 0 1001) /\
  (let w1 := snd (completeTestRun sampleEnv sampleResult startedWorld) in
   let w2 := snd (completeTestRun sampleEnv sampleResult w1) in
   testCases (db w2)
   = [toTestCase 1 sampleTest; toTestCase 1 sampleTest]).
Proof.
  assert (Hrow : testRuns (db startedWorld) !! 1
                 = Some (startedRow None (js "main") 0 1001))
    by (simpl; apply lookup_insert_eq).
  assert (Hok : forall n, failsAt n startedWorld = None)
    by (intros [|n]; reflexivity).
  split; [reflexivity|]. split; [exact Hok|]. split; [exact Hrow|].
  exact (proj1 (proj2 (proj2 (proj2
    (completeTestRun_twice sampleEnv startedWorld 1 sampleResult
       sampleResult _ eq_refl Hok Hrow))))).
Defined.

(** ** The parser *)

Lemma markers_exclusive (s : jsstring) :
  (startsWith [CHECK] s = true -> startsWith [CROSS] s = false) /\
  (startsWith [CHECK] s = true -> startsWith [DOWN] s = false) /\
  (startsWith [CROSS] s = true -> startsWith [DOWN] s = false).
Proof.
  destruct s as [|c s]; cbn [startsWith]; [intuition discriminate|].
  rewrite !andb_true_r.
  repeat split; intros H; apply N.eqb_eq in H; subst c; reflexivity.
Qed.

Lemma parseLine_counts (st : ParseState) (line : jsstring) :
  filePassed (parseLine st line) = filePassed st + b2z (isPassLine line) /\
  fileFailed (parseLine st line) = fileFailed st + b2z (isFailLine line) /\
  fileTotal (parseLine st line)
    = fileTotal st + b2z (isPassLine line) + b2z (isFailLine line)
      + b2z (isSkipLine line).
Proof.
  unfold parseLine, isPassLine, isFailLine, isSkipLine.
  destruct (markers_exclusive (trim line)) as (Hpf & Hps & Hfs).
  destruct (startsWith [CHECK] (trim line)) eqn:Hp.
  - rewrite Hpf, Hps by reflexivity.
    destruct (jsMatch passedRegex (trim line)); simpl; lia.
  - destruct (startsWith [CROSS] (trim line)) eqn:Hf.
    + rewrite Hfs by reflexivity.
      destruct (jsMatch failedRegex (trim line)); simpl; lia.
    + destruct (startsWith [DOWN] (trim line)) eqn:Hs.
      * destruct (jsMatch skippedRegex (trim line)); simpl; lia.
      * simpl; lia.
Qed.

Lemma countLines_cons (p : jsstring -> bool) (line : jsstring)
    (lines : list jsstring) :
  countLines p (line :: lines) = b2z (p line) + countLines p lines.
Proof.
  unfold countLines. simpl. destruct (p line); simpl; lia.
Qed.

Lemma countLines_nonneg (p : jsstring -> bool) (lines : list jsstring) :
  0 <= countLines p lines.
Proof. unfold countLines. lia. Qed.

Lemma fold_parseLine_counts (lines : list jsstring) (st : ParseState) :
  let st' := fold_left parseLine lines st in
  filePassed st' = filePassed st + countLines isPassLine lines /\
  fileFailed st' = fileFailed st + countLines isFailLine lines /\
  fileTotal st'
    = fileTotal st + countLines isPassLine lines
      + countLines isFailLine lines + countLines isSkipLine lines.
Proof.
  revert st. induction lines as [|line lines IH]; intros st; simpl.
  - unfold countLines; simpl. lia.
  - destruct (IH (parseLine st line)) as (Hp & Hf & Ht).
    destruct (parseLine_counts st line) as (Hp1 & Hf1 & Ht1).
    rewrite !countLines_cons. lia.
Qed.

(** The statistics of an output count its marker lines. *)
Lemma parse_stats (output : jsstring) (given : list TestResult.t) :
  let stats := fst (parseAndUpdateTestCounts output given) in
  let lines := split [LF] output in
  Stats.passed stats = countLines isPassLine lines /\
  Stats.failed stats = countLines isFailLine lines /\
  Stats.total stats
    = countLines isPassLine lines + countLines isFailLine lines
      + countLines isSkipLine lines.
Proof.
  unfold parseAndUpdateTestCounts, parseLines. simpl.
  match goal with
  | |- context [fold_left parseLine ?ls ?st] =>
      destruct (fold_parseLine_counts ls st) as (Hp & Hf & Ht)
  end.
  simpl in *. lia.
Qed.

Lemma statsOf_bounds (env : Env) (category : Category.t) :
  0 <= Stats.passed (statsOf env category) /\
  0 <= Stats.failed (statsOf env category) /\
  Stats.total (statsOf env category)
    = Stats.passed (statsOf env category)
      + Stats.failed (statsOf env category) + skippedOf env category /\
  0 <= skippedOf env category.
Proof.
  unfold statsOf, skippedOf.
  destruct (parse_stats (outputOf env category) []) as (Hp & Hf & Ht).
  pose proof (countLines_nonneg isPassLine
                (split [LF] (outputOf env category))).
  pose proof (countLines_nonneg isFailLine
                (split [LF] (outputOf env category))).
  pose proof (countLines_nonneg isSkipLine
                (split [LF] (outputOf env category))).
  lia.
Qed.

(** C4, as the claim states it, fails: a pass-marker line without a
    duration is counted, and no test case is recorded for it. *)
Lemma malformed_pass_line_records_no_case :
  parseAndUpdateTestCounts ([CHECK] ++ js " LoginSuite > renders") []
  = ({| Stats.passed := 1; Stats.failed := 0; Stats.total := 1 |}, []).
Proof. reflexivity. Qed.

(** C4, amended. A line that begins with the pass, fail or skip marker
    and that the marker's expression does not match is counted: in the
    total, and in the passed or failed count for a pass or fail marker;
    no test case is recorded for it. *)
Theorem malformed_line_counted_not_recorded (st : ParseState)
    (line : jsstring) :
  malformed line = true ->
  filePassed (parseLine st line) = filePassed st + b2z (isPassLine line) /\
  fileFailed (parseLine st line) = fileFailed st + b2z (isFailLine line) /\
  fileTotal (parseLine st line) = fileTotal st + 1 /\
  testResults (parseLine st line) = testResults st.
Proof.
  intros H.
  destruct (parseLine_counts st line) as (Hp & Hf & Ht).
  split; [exact Hp|]. split; [exact Hf|].
  revert H Ht. unfold malformed, parseLine, isPassLine, isFailLine, isSkipLine.
  destruct (markers_exclusive (trim line)) as (Hpf & Hps & Hfs).
  destruct (startsWith [CHECK] (trim line)) eqn:Hp'.
  - rewrite Hpf, Hps by reflexivity. simpl.
    destruct (jsMatch passedRegex (trim line)); simpl.
    + intros H; discriminate.
    + intros _ _. split; [lia | reflexivity].
  - destruct (startsWith [CROSS] (trim line)) eqn:Hf'.
    + rewrite Hfs by reflexivity. simpl.
      destruct (jsMatch failedRegex (trim line)); simpl.
      * intros H; discriminate.
      * intros _ _. split; [lia | reflexivity].
    + destruct (startsWith [DOWN] (trim line)) eqn:Hs'; simpl.
      * destruct (jsMatch skippedRegex (trim line)); simpl.
        -- intros H; discriminate.
        -- intros _ _. split; [lia | reflexivity].
      * intros H; discriminate.
Qed.

Lemma malformed_line_counted_not_recorded_witness :
  let st := {| filePassed := 0; fileFailed := 0; fileTotal := 0;
               testResults := [] |} in
  let line := [CROSS] ++ js " LoginSuite > submits 1.5ms" in
  malformed line = true /\
  (filePassed (parseLine st line) = filePassed st + b2z (isPassLine line) /\
   fileFailed (parseLine st line) = fileFailed st + b2z (isFailLine line) /\
   fileTotal (parseLine st line) = fileTotal st + 1 /\
   testResults (parseLine st line) = testResults st).
Proof.
  split; [reflexivity|].
  apply malformed_line_counted_not_recorded. reflexivity.
Defined.

(** The parsing scenarios of the specification. *)
Example parse_pass_line :
  snd (parseAndUpdateTestCounts ([CHECK] ++ js " LoginSuite > renders 42ms") [])
  = [ {| TestResult.suite := js "LoginSuite"; TestResult.name := js "renders";
         TestResult.status := passed; TestResult.duration := 42;
         TestResult.error := None; TestResult.stackTrace := None |} ].
Proof. reflexivity. Qed.

Example parse_fail_line :
  snd (parseAndUpdateTestCounts ([CROSS] ++ js " LoginSuite > submits 10ms") [])
  = [ {| TestResult.suite := js "LoginSuite"; TestResult.name := js "submits";
         TestResult.status := failed; TestResult.duration := 10;
         TestResult.error := Some (js "Test failed - check logs for details");
         TestResult.stackTrace := None |} ].
Proof. reflexivity. Qed.

Example parse_skip_line :
  parseAndUpdateTestCounts ([DOWN] ++ js " LoginSuite > skipped-case") []
  = ({| Stats.passed := 0; Stats.failed := 0; Stats.total := 1 |},
     [ {| TestResult.suite := js "LoginSuite";
          TestResult.name := js "skipped-case";
          TestResult.status := skipped; TestResult.duration := 0;
          TestResult.error := None; TestResult.stackTrace := None |} ]).
Proof. reflexivity. Qed.

(** ** The categories partition the files they match *)

Lemma startsWith_comparable (s p q : jsstring) :
  startsWith p s = true -> startsWith q s = true ->
  startsWith p q = true \/ startsWith q p = true.
Proof.
  revert p q. induction s as [|c s IH]; intros [|a p] [|b q]; cbn [startsWith];
    auto; try discriminate.
  intros Hp Hq.
  apply andb_true_iff in Hp as [Ha Hp]. apply andb_true_iff in Hq as [Hb Hq].
  apply N.eqb_eq in Ha, Hb. subst a b. rewrite N.eqb_refl. simpl.
  apply IH; assumption.
Qed.

Lemma separated_matches_once (ps : list jsstring) (file : jsstring) :
  separated ps = true ->
  (length (List.filter (fun p => startsWith p file) ps) <= 1)%nat.
Proof.
  induction ps as [|p ps IH]; simpl; [lia|].
  intros H. apply andb_true_iff in H as [Hall Hsep].
  destruct (startsWith p file) eqn:Hp; [|auto].
  assert (Hnone : List.filter (fun q => startsWith q file) ps = []).
  { clear IH Hsep. induction ps as [|q ps IHps]; [reflexivity|].
    simpl in Hall. apply andb_true_iff in Hall as [Hq Hall].
    simpl. destruct (startsWith q file) eqn:Hqf; [|auto].
    destruct (startsWith_comparable file p q Hp Hqf) as [E|E];
      rewrite E in Hq; simpl in Hq; try discriminate.
    rewrite andb_false_r in Hq. discriminate. }
  rewrite Hnone. simpl. lia.
Qed.

Lemma sumOver_nonneg {A} (f : A -> Z) (l : list A) :
  (forall x, 0 <= f x) -> 0 <= sumOver f l.
Proof.
  intros H. induction l as [|x l IH]; simpl; [lia|]. specialize (H x). lia.
Qed.

Lemma filesIn_nonneg (files : list jsstring) (category : Category.t) :
  0 <= filesIn files category.
Proof. unfold filesIn. lia. Qed.

Lemma filesIn_cons (file : jsstring) (files : list jsstring)
    (category : Category.t) :
  filesIn (file :: files) category
  = b2z (startsWith (Category.pattern category) file) + filesIn files category.
Proof.
  unfold filesIn, categoryFilesOf. simpl.
  destruct (startsWith (Category.pattern category) file); simpl; lia.
Qed.

Lemma sumOver_matching (file : jsstring) (categories : list Category.t) :
  sumOver (fun c => b2z (startsWith (Category.pattern c) file)) categories
  = Z.of_nat (length (List.filter (fun p => startsWith p file)
                        (List.map Category.pattern categories))).
Proof.
  induction categories as [|c cs IH]; simpl; [reflexivity|].
  rewrite IH.
  destruct (startsWith (Category.pattern c) file); simpl; lia.
Qed.

Lemma sumOver_filesIn_cons (file : jsstring) (files : list jsstring)
    (categories : list Category.t) :
  sumOver (filesIn (file :: files)) categories
  = sumOver (fun c => b2z (startsWith (Category.pattern c) file)) categories
    + sumOver (filesIn files) categories.
Proof.
  induction categories as [|c cs IH]; simpl; [reflexivity|].
  rewrite IH, filesIn_cons. lia.
Qed.

Lemma files_partitioned (files : list jsstring)
    (categories : list Category.t) :
  separated (List.map Category.pattern categories) = true ->
  sumOver (filesIn files) categories <= Z.of_nat (length files).
Proof.
  intros Hsep. induction files as [|file files IH].
  - induction categories as [|c cs IHc]; simpl in *; [lia|].
    apply andb_true_iff in Hsep as [_ Hsep]. specialize (IHc Hsep).
    unfold filesIn at 1. simpl. lia.
  - rewrite sumOver_filesIn_cons, sumOver_matching.
    pose proof (separated_matches_once _ file Hsep). simpl length. lia.
Qed.

Lemma testCategories_separated :
  separated (List.map Category.pattern testCategories) = true.
Proof. reflexivity. Qed.

(** ** The stored run under the updates *)

Lemma activeRun_is_testRunId (t : TestRunner) (id id' : Z) :
  testRunId t = Some id -> activeRun t = Some id' -> id' = id.
Proof.
  unfold activeRun. intros ->. destruct (id =? 0); congruence.
Qed.

Lemma storedOk_counts (t : TestRunner) (id total passed failed : Z)
    (d d' : Db) :
  testRunId t = Some id -> storedOk id d -> passed + failed <= total ->
  dbStep t (fun id => SetCounts id total passed failed) d d' ->
  storedOk id d'.
Proof.
  intros Ht (row & Hrow & Hc & Hf) Hle [->|(id' & Ha & ->)].
  - exists row. repeat split; assumption.
  - rewrite (activeRun_is_testRunId t id id' Ht Ha).
    exists (setCounts total passed failed row). split.
    + unfold applyStmt. simpl. rewrite lookup_alter_eq, Hrow. reflexivity.
    + split; simpl; assumption.
Qed.

Lemma storedOk_progress (t : TestRunner) (id : Z) (currentFile : jsstring)
    (completed : Z) (phase : Phase) (total : Z) (d d' : Db) :
  testRunId t = Some id -> storedOk id d -> completed <= total ->
  dbStep t (fun id => SetProgress id currentFile completed phase total) d d' ->
  storedOk id d'.
Proof.
  intros Ht (row & Hrow & Hc & Hf) Hle [->|(id' & Ha & ->)].
  - exists row. repeat split; assumption.
  - rewrite (activeRun_is_testRunId t id id' Ht Ha).
    exists (setProgress currentFile completed phase total row). split.
    + unfold applyStmt. simpl. rewrite lookup_alter_eq, Hrow. reflexivity.
    + split; simpl; assumption.
Qed.

(** ** The loop over the categories *)

(** Unfolds the plumbing of the monad and the projections of a world,
    and nothing of the program. *)
Ltac plumb :=
  unfold bind, tryCatch, tryFinally, console, modify, gets, ret, throw, sleep,
    setInterval;
  cbn [fst snd db this frame dbScript ticks trace calls
       setDb setThis setFrame setScript tick addEvent addCall].

Ltac plumb_in H :=
  unfold updated in H;
  cbn [fst snd db this frame dbScript ticks trace calls
       setDb setThis setFrame setScript tick addEvent addCall] in H.

(** Steps over the next call of an update in the goal. *)
Ltac step_progress :=
  match goal with
  | |- context [updateFileProgress ?a ?b ?c ?d ?w0] =>
      let r := fresh "r" in
      let w1 := fresh "w" in
      let Hu := fresh "Hu" in
      pose proof (updateFileProgress_updated a b c d w0) as Hu;
      destruct (updateFileProgress a b c d w0) as [r w1];
      plumb_in Hu; destruct Hu as (-> & Hu)
  end.

Ltac step_counts :=
  match goal with
  | |- context [updateTestCounts ?a ?b ?c ?w0] =>
      let r := fresh "r" in
      let w1 := fresh "w" in
      let Hu := fresh "Hu" in
      pose proof (updateTestCounts_updated a b c w0) as Hu;
      destruct (updateTestCounts a b c w0) as [r w1];
      plumb_in Hu; destruct Hu as (-> & Hu)
  end.

Lemma parse_bounds (output : jsstring) (given : list TestResult.t) :
  let stats := fst (parseAndUpdateTestCounts output given) in
  0 <= Stats.passed stats /\ 0 <= Stats.failed stats /\
  Stats.passed stats + Stats.failed stats <= Stats.total stats.
Proof.
  destruct (parse_stats output given) as (Hp & Hf & Ht).
  pose proof (countLines_nonneg isPassLine (split [LF] output)).
  pose proof (countLines_nonneg isFailLine (split [LF] output)).
  pose proof (countLines_nonneg isSkipLine (split [LF] output)).
  cbv zeta in *. lia.
Qed.

(** The three updates of an iteration keep the stored run within its
    bounds, given that what they write is within them. *)
Lemma category_updates_ok (id total : Z) (w w0 w1 w2 : World) (F : Frame)
    (name label : jsstring) (phase : Phase) :
  testRunId (this w) = Some id ->
  storedOk id (db w) ->
  completedFiles (frame w) <= total ->
  completedFiles F <= total ->
  totalPassed F + totalFailed F <= totalTests F ->
  this w0 = this w /\ frame w0 = frame w /\ ticks w0 = ticks w /\
    calls w0 = calls w ++
      [(CallUpdateFileProgress name (completedFiles (frame w)) phase total,
        db w0)] /\
    dbStep (this w)
      (fun id => SetProgress id name (completedFiles (frame w)) phase total)
      (db w) (db w0) ->
  this w1 = this w0 /\ frame w1 = F /\ ticks w1 = ticks w0 /\
    calls w1 = calls w0 ++
      [(CallUpdateTestCounts (totalPassed F) (totalFailed F) (totalTests F),
        db w1)] /\
    dbStep (this w0)
      (fun id => SetCounts id (totalTests F) (totalPassed F) (totalFailed F))
      (db w0) (db w1) ->
  this w2 = this w1 /\ frame w2 = frame w1 /\ ticks w2 = ticks w1 /\
    calls w2 = calls w1 ++
      [(CallUpdateFileProgress label (completedFiles F) phase total, db w2)] /\
    dbStep (this w1)
      (fun id => SetProgress id label (completedFiles F) phase total)
      (db w1) (db w2) ->
  this w2 = this w /\ frame w2 = F /\ storedOk id (db w2) /\
  exists cs, calls w2 = calls w ++ cs /\ Forall (okCall id) cs.
Proof.
  intros Hid Hrow Hc0 HcF HF (Ht0 & Hf0 & _ & Hk0 & Hd0)
    (Ht1 & Hf1 & _ & Hk1 & Hd1) (Ht2 & Hf2 & _ & Hk2 & Hd2).
  assert (Hid0 : testRunId (this w0) = Some id) by (rewrite Ht0; exact Hid).
  assert (Hid1 : testRunId (this w1) = Some id) by (rewrite Ht1; exact Hid0).
  pose proof (storedOk_progress _ _ _ _ _ _ _ _ Hid Hrow Hc0 Hd0) as Hrow0.
  pose proof (storedOk_counts _ _ _ _ _ _ _ Hid0 Hrow0 HF Hd1) as Hrow1.
  pose proof (storedOk_progress _ _ _ _ _ _ _ _ Hid1 Hrow1 HcF Hd2) as Hrow2.
  repeat split.
  - congruence.
  - congruence.
  - exact Hrow2.
  - eexists. split.
    + rewrite Hk2, Hk1, Hk0, <- !app_assoc. reflexivity.
    + simpl. repeat constructor; simpl; assumption.
Qed.

Lemma runCategory_step (env : Env) (files : list jsstring) (total : Z)
    (category : Category.t) (w : World) (id rest : Z) :
  testRunId (this w) = Some id ->
  storedOk id (db w) ->
  totalPassed (frame w) + totalFailed (frame w) <= totalTests (frame w) ->
  0 <= rest ->
  completedFiles (frame w) + filesIn files category + rest <= total ->
  let w' := snd (runCategory env files total category w) in
  fst (runCategory env files total category w) = Ret tt /\
  this w' = this w /\
  frame w' = afterCategory env files category (frame w) /\
  totalPassed (frame w') + totalFailed (frame w') <= totalTests (frame w') /\
  completedFiles (frame w')
    = completedFiles (frame w) + filesIn files category /\
  storedOk id (db w') /\
  exists cs, calls w' = calls w ++ cs /\ Forall (okCall id) cs.
Proof.
  intros Hid Hrow Hcounts Hrest Hfiles.
  pose proof (filesIn_nonneg files category) as Hnn.
  unfold runCategory, afterCategory, ran.
  destruct (length (categoryFilesOf files category) =? 0)%nat eqn:Hlen;
    cbn [negb].
  - plumb. apply Nat.eqb_eq in Hlen.
    unfold filesIn. rewrite Hlen.
    repeat split; try assumption; try (simpl; lia).
    exists []. rewrite app_nil_r. split; constructor.
  - unfold execSync, statsOf, resultsOf, outputOf. plumb.
    step_progress.
    destruct (vitest env (Category.pattern category)) as [out|error] eqn:Ev.
    + pose proof (parse_bounds out []) as Hb.
      destruct (parseAndUpdateTestCounts out []) as [stats results].
      plumb. step_counts. step_progress. plumb.
      assert (Hf0 : frame w0 = frame w) by apply Hu.
      rewrite Hf0 in Hu0, Hu1.
      set (F := accumulate stats results (categoryFilesOf files category)
                  (frame w)) in *.
      assert (HcF : completedFiles F
                    = completedFiles (frame w) + filesIn files category)
        by reflexivity.
      assert (HF : totalPassed F + totalFailed F <= totalTests F)
        by (unfold F, accumulate; simpl in *; lia).
      destruct (category_updates_ok id total w w0 w1 w2 F _ _ _
                  Hid Hrow ltac:(lia) ltac:(lia) HF Hu Hu0 Hu1)
        as (Ht & Hf & Hs & Hcs).
      rewrite Hf. repeat split; assumption.
    + pose proof (parse_bounds
                    (orStr (stdout error) (orStr (stderr error) [])) [])
        as Hb.
      destruct (parseAndUpdateTestCounts
                  (orStr (stdout error) (orStr (stderr error) [])) [])
        as [stats results].
      plumb. step_counts. step_progress. plumb.
      assert (Hf0 : frame w0 = frame w) by apply Hu.
      rewrite Hf0 in Hu0, Hu1.
      set (F := accumulate stats results (categoryFilesOf files category)
                  (frame w)) in *.
      assert (HcF : completedFiles F
                    = completedFiles (frame w) + filesIn files category)
        by reflexivity.
      assert (HF : totalPassed F + totalFailed F <= totalTests F)
        by (unfold F, accumulate; simpl in *; lia).
      destruct (category_updates_ok id total w w0 w1 w2 F _ _ _
                  Hid Hrow ltac:(lia) ltac:(lia) HF Hu Hu0 Hu1)
        as (Ht & Hf & Hs & Hcs).
      rewrite Hf. repeat split; assumption.
Qed.

Lemma forEachCategory_steps (env : Env) (files : list jsstring) (total : Z)
    (categories : list Category.t) :
  forall (w : World) (id rest : Z),
  testRunId (this w) = Some id ->
  storedOk id (db w) ->
  totalPassed (frame w) + totalFailed (frame w) <= totalTests (frame w) ->
  0 <= rest ->
  completedFiles (frame w) + sumOver (filesIn files) categories + rest
    <= total ->
  let w' := snd (forEachCategory env files total categories w) in
  fst (forEachCategory env files total categories w) = Ret tt /\
  this w' = this w /\
  frame w' = afterCategories env files categories (frame w) /\
  storedOk id (db w') /\
  exists cs, calls w' = calls w ++ cs /\ Forall (okCall id) cs.
Proof.
  induction categories as [|category categories IH];
    intros w id rest Hid Hrow Hcounts Hrest Hfiles.
  - cbn [forEachCategory afterCategories fold_left]. plumb.
    repeat split; try assumption.
    exists []. rewrite app_nil_r. split; constructor.
  - cbn [forEachCategory afterCategories fold_left] in *.
    change (sumOver (filesIn files) (category :: categories))
      with (filesIn files category + sumOver (filesIn files) categories)
      in Hfiles.
    pose proof (sumOver_nonneg (filesIn files) categories
                  (filesIn_nonneg files)) as Hnn.
    unfold bind.
    destruct (runCategory_step env files total category w id
                (sumOver (filesIn files) categories + rest)
                Hid Hrow Hcounts ltac:(lia) ltac:(lia))
      as (Hr & Ht & Hf & Hc & Hcf & Hs & cs1 & Hk & Hok).
    destruct (runCategory env files total category w) as [r w1].
    cbn [fst snd] in *. subst r.
    destruct (IH w1 id rest ltac:(congruence) Hs Hc Hrest ltac:(lia))
      as (Hr2 & Ht2 & Hf2 & Hs2 & cs2 & Hk2 & Hok2).
    repeat split.
    + exact Hr2.
    + congruence.
    + rewrite Hf2, Hf. reflexivity.
    + exact Hs2.
    + exists (cs1 ++ cs2). split.
      * rewrite Hk2, Hk, app_assoc. reflexivity.
      * apply Forall_app. split; assumption.
Qed.

(** What the loop leaves in the frame. *)
Lemma afterCategories_totals (env : Env) (files : list jsstring)
    (categories : list Category.t) :
  forall f : Frame,
  let f' := afterCategories env files categories f in
  let ranOnes := List.filter (ran files) categories in
  totalTests f'
    = totalTests f + sumOver (fun c => Stats.total (statsOf env c)) ranOnes /\
  totalPassed f'
    = totalPassed f + sumOver (fun c => Stats.passed (statsOf env c)) ranOnes /\
  totalFailed f'
    = totalFailed f + sumOver (fun c => Stats.failed (statsOf env c)) ranOnes /\
  allTestResults f' = allTestResults f ++ flat_map (resultsOf env) ranOnes.
Proof.
  induction categories as [|category categories IH]; intros f.
  - unfold sumOver. simpl. rewrite app_nil_r. repeat split; lia.
  - cbn [afterCategories fold_left List.filter].
    specialize (IH (afterCategory env files category f)).
    fold (afterCategories env files categories
            (afterCategory env files category f)).
    unfold afterCategory in *.
    destruct (ran files category); cbn zeta in *.
    + destruct IH as (Ht & Hp & Hf & Hr).
      rewrite Ht, Hp, Hf, Hr. unfold accumulate, sumOver.
      cbn [totalTests totalPassed totalFailed allTestResults fold_right
           flat_map].
      rewrite <- app_assoc. repeat split; lia.
    + exact IH.
Qed.

(** ** The whole run *)

Ltac step_complete :=
  match goal with
  | |- context [completeTestRun ?e ?r ?w0] =>
      let r' := fresh "r" in
      let w1 := fresh "w" in
      let Hc := fresh "Hc" in
      pose proof (completeTestRun_returns e r w0) as Hc;
      destruct (completeTestRun e r w0) as [r' w1];
      plumb_in Hc; cbv zeta in Hc; destruct Hc as (-> & Hc)
  end.

(** When the [try] block throws, the error is handed to
    [completeTestRun] in a failed result and thrown again. *)
Lemma runTestSuite_rethrows (env : Env) (w : World) (e : JsError) :
  fst (runTestSuiteTry env (setFrame freshFrame w)) = Throw e ->
  let thrown := snd (runTestSuiteTry env (setFrame freshFrame w)) in
  let w' := snd (runTestSuite env w) in
  fst (runTestSuite env w) = Throw e /\
  calls w' = calls thrown ++ [(CallCompleteTestRun (errorResultOf e), db w')].
Proof.
  intros H. unfold runTestSuite, runTestSuiteCatch, runTestSuiteFinally.
  plumb.
  destruct (runTestSuiteTry env (setFrame freshFrame w)) as [r w1].
  cbn [fst snd] in *. subst r.
  step_complete. plumb.
  destruct (durationUpdateInterval (frame w0)); plumb.
  - split; [reflexivity|]. apply Hc.
  - split; [reflexivity|]. apply Hc.
Qed.

Lemma runTestSuiteTry_find_fails (env : Env) (w : World) (e : JsError) :
  findFiles env = ExecFailed e ->
  fst (runTestSuiteTry env w) = Throw e /\
  calls (snd (runTestSuiteTry env w)) = calls w.
Proof.
  intros H. unfold runTestSuiteTry, execSync. plumb. rewrite H. plumb.
  split; reflexivity.
Qed.

Lemma runTestSuiteTry_start_fails (env : Env) (w : World)
    (out msg : jsstring) :
  findFiles env = ExecOk out -> failsAt 0 w = Some msg ->
  fst (runTestSuiteTry env w) = Throw (mkError msg) /\
  calls (snd (runTestSuiteTry env w)) = calls w.
Proof.
  intros H Hf. unfold runTestSuiteTry, execSync. plumb. rewrite H. plumb.
  match goal with
  | |- context [startTestRun ?e ?a ?b ?c ?w0] =>
      destruct (startTestRun_fails e a b c w0 msg Hf) as (Hr & _ & _ & _ & Hk);
      destruct (startTestRun e a b c w0) as [r w1]
  end.
  cbn [fst snd calls addEvent] in *. subst r. split; [reflexivity|exact Hk].
Qed.

Lemma runTestSuiteTry_completes (env : Env) (w : World) (out : jsstring) :
  findFiles env = ExecOk out -> failsAt 0 w = None ->
  frame w = freshFrame ->
  let files := testFilesOf out in
  let total := Z.of_nat (length files) in
  let F := afterCategories env files testCategories startedFrame in
  let w' := snd (runTestSuiteTry env w) in
  fst (runTestSuiteTry env w) = Ret tt /\
  exists d0 cs,
    calls w' = calls w
      ++ (CallStartTestRun (Some (js "HEAD")) (js "main") total, d0)
         :: cs ++ [(CallCompleteTestRun (finalResultOf F), db w')] /\
    Forall (okCall (nextId (db w))) cs.
Proof.
  intros H Hf Hfr. unfold runTestSuiteTry, execSync. plumb. rewrite H. plumb.
  match goal with
  | |- context [startTestRun ?e ?a ?b ?c ?w0] =>
      destruct (startTestRun_ok e a b c w0 Hf)
        as (Hr & Ht & Hfr1 & Hd & Hk & _);
      destruct (startTestRun e a b c w0) as [r w1]
  end.
  plumb_in Hr. plumb_in Ht. plumb_in Hfr1. plumb_in Hd. plumb_in Hk.
  subst r. plumb.
  rewrite Hfr1, Hfr.
  change {| durationUpdateInterval := true;
            totalPassed := totalPassed freshFrame;
            totalFailed := totalFailed freshFrame;
            totalTests := totalTests freshFrame;
            allTestResults := allTestResults freshFrame;
            completedFiles := completedFiles freshFrame |}
    with startedFrame.
  set (files := testFilesOf out) in *.
  set (total := Z.of_nat (length files)) in *.
  set (W1 := setFrame startedFrame (addEvent (EvSetInterval 5000) w1)).
  assert (Hid : testRunId (this W1) = Some (nextId (db w)))
    by (unfold W1; plumb; rewrite Ht; reflexivity).
  assert (Hrow : storedOk (nextId (db w)) (db W1)).
  { unfold W1; plumb. rewrite Hd. eexists. split.
    - unfold applyStmt. cbn [testRuns]. apply lookup_insert_eq.
    - unfold rowOk, startedRow; simpl. lia. }
  pose proof (files_partitioned files testCategories
                testCategories_separated) as Hpart.
  destruct (forEachCategory_steps env files total testCategories W1
              (nextId (db w)) 0 Hid Hrow
              ltac:(unfold W1; plumb; reflexivity) ltac:(lia)
              ltac:(unfold W1; plumb;
                    change (completedFiles startedFrame) with 0; lia))
    as (Hr2 & Ht2 & Hf2 & Hs2 & cs & Hk2 & Hok).
  destruct (forEachCategory env files total testCategories W1) as [r w2].
  cbn [fst snd] in *. subst r.
  step_complete. plumb.
  split; [reflexivity|].
  destruct Hc as (_ & _ & Hk3).
  exists (db w1), cs. split; [|exact Hok].
  rewrite Hk3, Hk2, Hf2. unfold W1. plumb. rewrite Hk.
  rewrite <- !app_assoc. reflexivity.
Qed.

(** A run whose discovery and start go through returns, having called
    [startTestRun], then updates that keep the stored run within its
    bounds, then [completeTestRun] on the result built from the frame. *)
Lemma runTestSuite_completes (env : Env) (w : World) (out : jsstring) :
  findFiles env = ExecOk out -> failsAt 0 w = None ->
  let files := testFilesOf out in
  let total := Z.of_nat (length files) in
  let F := afterCategories env files testCategories startedFrame in
  fst (runTestSuite env w) = Ret tt /\
  exists d0 cs dN,
    issued (runTestSuite env) w
      = (CallStartTestRun (Some (js "HEAD")) (js "main") total, d0)
        :: cs ++ [(CallCompleteTestRun (finalResultOf F), dN)] /\
    Forall (okCall (nextId (db w))) cs.
Proof.
  intros H Hf files total F.
  destruct (runTestSuiteTry_completes env (setFrame freshFrame w) out H Hf
              eq_refl) as (Hr & d0 & cs & Hk & Hok).
  fold files total F in Hk.
  unfold issued, runTestSuite, runTestSuiteFinally. plumb.
  destruct (runTestSuiteTry env (setFrame freshFrame w)) as [r w1].
  cbn [fst snd] in *. subst r.
  destruct (durationUpdateInterval (frame w1)); plumb;
    (split; [reflexivity|]); exists d0, cs, (db w1);
    (split; [|exact Hok]); rewrite Hk; plumb; apply drop_app_length.
Qed.

(** A run whose discovery or start fails calls [completeTestRun], on the
    failed result made from the error, and nothing else. *)
Lemma runTestSuite_fails_early (env : Env) (w : World) (e : JsError) :
  findFiles env = ExecFailed e \/
  (exists out msg, findFiles env = ExecOk out /\ failsAt 0 w = Some msg /\
                   e = mkError msg) ->
  fst (runTestSuite env w) = Throw e /\
  exists dN,
    issued (runTestSuite env) w = [(CallCompleteTestRun (errorResultOf e), dN)].
Proof.
  intros H.
  assert (Htry : fst (runTestSuiteTry env (setFrame freshFrame w)) = Throw e /\
                 calls (snd (runTestSuiteTry env (setFrame freshFrame w)))
                 = calls w).
  { destruct H as [H|(out & msg & H & Hf & ->)].
    - apply (runTestSuiteTry_find_fails env (setFrame freshFrame w) e H).
    - apply (runTestSuiteTry_start_fails env (setFrame freshFrame w) out msg
               H Hf). }
  destruct Htry as (Hthrow & Hcalls).
  destruct (runTestSuite_rethrows env w e Hthrow) as (Hr & Hk).
  split; [exact Hr|].
  eexists. apply issued_app. rewrite Hk, Hcalls. reflexivity.
Qed.


(** ** The run: claims *)

Lemma sumOver_ext {A} (f g : A -> Z) (l : list A) :
  (forall x, f x = g x) -> sumOver f l = sumOver g l.
Proof.
  intros H. induction l as [|x l IH]; simpl; [reflexivity|].
  unfold sumOver in *. simpl. rewrite IH, H. reflexivity.
Qed.

Lemma completions_app (cs1 cs2 : list (Call * Db)) :
  completions (cs1 ++ cs2) = completions cs1 ++ completions cs2.
Proof. unfold completions. apply flat_map_app. Qed.

Lemma completions_updates (id : Z) (cs : list (Call * Db)) :
  Forall (okCall id) cs -> completions cs = [].
Proof.
  induction 1 as [|[c d] cs [Hu _] _ IH]; [reflexivity|].
  unfold completions in *. simpl. rewrite IH.
  destruct c; simpl in Hu; try contradiction; reflexivity.
Qed.

(** The one result a completed run hands to [completeTestRun]. *)
Lemma runTestSuite_final_result (env : Env) (w : World) (out : jsstring) :
  findFiles env = ExecOk out -> failsAt 0 w = None ->
  fst (runTestSuite env w) = Ret tt /\
  completions (issued (runTestSuite env) w)
  = [finalResultOf
       (afterCategories env (testFilesOf out) testCategories startedFrame)].
Proof.
  intros H Hf.
  destruct (runTestSuite_completes env w out H Hf)
    as (Hr & d0 & cs & dN & Hk & Hok).
  split; [exact Hr|].
  rewrite Hk.
  change (completions ((?c, d0) :: ?l)) with (completions l).
  rewrite completions_app, (completions_updates _ _ Hok). reflexivity.
Qed.

(** C1, as the claim states it, fails: in the sample run the API tests
    pass twice and skip once and the end-to-end tests fail once; the
    final result has one failure, while the per-category totals minus
    the per-category passed counts add up to two. *)
Lemma failed_count_leaves_skips_out :
  let r := finalResultOf
             (afterCategories sampleEnv (discovered sampleEnv) testCategories
                startedFrame) in
  completions (issued (runTestSuite sampleEnv) idleWorld) = [r] /\
  TestRunResult.failedTests r = 1 /\
  TestRunResult.failedTests r
  <> sumOver (fun c => Stats.total (statsOf sampleEnv c)
                       - Stats.passed (statsOf sampleEnv c))
       (processed (discovered sampleEnv)).
Proof.
  split; [vm_compute; reflexivity|].
  split; [vm_compute; reflexivity|].
  vm_compute. discriminate.
Qed.

(** C1, amended. A run whose discovery and start go through hands one
    result to [completeTestRun]; over the categories that were run, its
    [totalTests] is the sum of the category totals, its [passedTests]
    the sum of the category passed counts, and its [failedTests] the sum
    of the category failed counts, that is of the category totals minus
    the passed counts minus the skip-marker lines. *)
Theorem final_counts_sum_categories (env : Env) (w : World)
    (out : jsstring) :
  findFiles env = ExecOk out -> failsAt 0 w = None ->
  let ranOnes := processed (testFilesOf out) in
  fst (runTestSuite env w) = Ret tt /\
  exists r,
    completions (issued (runTestSuite env) w) = [r] /\
    TestRunResult.totalTests r
      = sumOver (fun c => Stats.total (statsOf env c)) ranOnes /\
    TestRunResult.passedTests r
      = sumOver (fun c => Stats.passed (statsOf env c)) ranOnes /\
    TestRunResult.failedTests r
      = sumOver (fun c => Stats.failed (statsOf env c)) ranOnes /\
    TestRunResult.failedTests r
      = sumOver (fun c => Stats.total (statsOf env c)
                          - Stats.passed (statsOf env c)
                          - skippedOf env c) ranOnes.
Proof.
  intros H Hf ranOnes.
  destruct (runTestSuite_final_result env w out H Hf) as (Hr & Hc).
  split; [exact Hr|]. eexists. split; [exact Hc|].
  destruct (afterCategories_totals env (testFilesOf out) testCategories
              startedFrame) as (Ht & Hp & Hfl & _).
  fold (processed (testFilesOf out)) in Ht, Hp, Hfl. fold ranOnes in Ht, Hp, Hfl.
  cbn [finalResultOf TestRunResult.totalTests TestRunResult.passedTests
       TestRunResult.failedTests].
  rewrite Ht, Hp, Hfl.
  change (totalTests startedFrame) with 0.
  change (totalPassed startedFrame) with 0.
  change (totalFailed startedFrame) with 0.
  repeat split; try lia.
  rewrite Z.add_0_l. apply sumOver_ext. intros c.
  pose proof (statsOf_bounds env c). lia.
Qed.

Lemma final_counts_sum_categories_witness :
  let out := js "tests/api/a.test.ts" ++ [LF] ++ js "tests/api/b.test.ts"
             ++ [LF] ++ js "tests/e2e/c.test.ts" ++ [LF] in
  findFiles sampleEnv = ExecOk out /\
  failsAt 0 idleWorld = None /\
  (let ranOnes := processed (testFilesOf out) in
   fst (runTestSuite sampleEnv idleWorld) = Ret tt /\
   exists r,
     completions (issued (runTestSuite sampleEnv) idleWorld) = [r] /\
     TestRunResult.totalTests r
       = sumOver (fun c => Stats.total (statsOf sampleEnv c)) ranOnes /\
     TestRunResult.passedTests r
       = sumOver (fun c => Stats.passed (statsOf sampleEnv c)) ranOnes /\
     TestRunResult.failedTests r
       = sumOver (fun c => Stats.failed (statsOf sampleEnv c)) ranOnes /\
     TestRunResult.failedTests r
       = sumOver (fun c => Stats.total (statsOf sampleEnv c)
                           - Stats.passed (statsOf sampleEnv c)
                           - skippedOf sampleEnv c) ranOnes).
Proof.
  split; [reflexivity|]. split; [reflexivity|].
  apply (final_counts_sum_categories sampleEnv idleWorld); reflexivity.
Defined.

(** C2. In every run, after each [updateTestCounts] the row of the run
    (under the identifier the store assigns at the start) has
    [passedTests + failedTests <= totalTests], and after each
    [updateFileProgress] it has [completedFiles <= totalFiles], whatever
    [find] and [vitest] print and whichever statements the store fails. *)
Theorem stored_run_stays_within_bounds (env : Env) (w : World) :
  Forall
    (fun cd : Call * Db =>
       match fst cd with
       | CallUpdateTestCounts _ _ _ =>
           exists row,
             testRuns (snd cd) !! nextId (db w) = Some row /\
             TestRun.passedTests row + TestRun.failedTests row
               <= TestRun.totalTests row
       | CallUpdateFileProgress _ _ _ _ =>
           exists row,
             testRuns (snd cd) !! nextId (db w) = Some row /\
             TestRun.completedFiles row <= TestRun.totalFiles row
       | _ => True
       end)
    (issued (runTestSuite env) w).
Proof.
  destruct (findFiles env) as [out|e] eqn:Hfind.
  - destruct (failsAt 0 w) as [msg|] eqn:Hf.
    + destruct (runTestSuite_fails_early env w (mkError msg)) as (_ & d & ->).
      { right. exists out, msg. auto. }
      repeat constructor.
    + destruct (runTestSuite_completes env w out Hfind Hf)
        as (_ & d0 & cs & dN & -> & Hok).
      constructor; [exact I|].
      apply Forall_app. split; [|repeat constructor].
      eapply Forall_impl; [exact Hok|].
      intros [c d] [Hu (row & Hrow & Hc & Hfl)]. simpl in *.
      destruct c; try exact I; exists row; split; assumption.
  - destruct (runTestSuite_fails_early env w e) as (_ & d & ->).
    { left. exact Hfind. }
    repeat constructor.
Qed.

(** The calls of the sample run, and the counters and progress stored
    after each. *)
Example sample_run_calls :
  List.map
    (fun cd : Call * Db =>
       (fst cd,
        match testRuns (snd cd) !! 1 with
        | Some row =>
            (TestRun.passedTests row, TestRun.failedTests row,
             TestRun.totalTests row, TestRun.completedFiles row,
             TestRun.totalFiles row)
        | None => (0, 0, 0, 0, 0)
        end))
    (issued (runTestSuite sampleEnv) idleWorld)
  = [ (CallStartTestRun (Some (js "HEAD")) (js "main") 3, (0, 0, 0, 0, 3));
      (CallUpdateFileProgress (js "API Tests") 0 backend 3, (0, 0, 0, 0, 3));
      (CallUpdateTestCounts 2 0 3, (2, 0, 3, 0, 3));
      (CallUpdateFileProgress (js "Completed API Tests") 2 backend 3,
       (2, 0, 3, 2, 3));
      (CallUpdateFileProgress (js "End-to-End Tests") 2 frontend 3,
       (2, 0, 3, 2, 3));
      (CallUpdateTestCounts 2 1 4, (2, 1, 4, 2, 3));
      (CallUpdateFileProgress
         (js "Completed End-to-End Tests (with errors)") 3 frontend 3,
       (2, 1, 4, 3, 3));
      (CallCompleteTestRun
         (finalResultOf
            (afterCategories sampleEnv (discovered sampleEnv) testCategories
               startedFrame)),
       (2, 1, 4, 3, 3)) ].
Proof. vm_compute. reflexivity. Qed.

(** C6. A run whose discovery and start go through hands one result to
    [completeTestRun]: its status is [failed] when its failed count is
    not zero and [passed] otherwise; it carries the totals accumulated
    over the categories that were run and all the test cases parsed from
    them, in order; its [errorSummary] is set exactly when
    [failedTests > 0], and is then the failed count followed by
    [ test(s) failed]. *)
Theorem final_result_reports_failures (env : Env) (w : World)
    (out : jsstring) :
  findFiles env = ExecOk out -> failsAt 0 w = None ->
  let ranOnes := processed (testFilesOf out) in
  fst (runTestSuite env w) = Ret tt /\
  exists r,
    completions (issued (runTestSuite env) w) = [r] /\
    TestRunResult.status r
      = (if TestRunResult.failedTests r =? 0 then passed else failed) /\
    TestRunResult.totalTests r
      = sumOver (fun c => Stats.total (statsOf env c)) ranOnes /\
    TestRunResult.passedTests r
      = sumOver (fun c => Stats.passed (statsOf env c)) ranOnes /\
    TestRunResult.failedTests r
      = sumOver (fun c => Stats.failed (statsOf env c)) ranOnes /\
    TestRunResult.tests r = flat_map (resultsOf env) ranOnes /\
    (TestRunResult.errorSummary r <> None <-> TestRunResult.failedTests r > 0)
    /\
    (TestRunResult.failedTests r > 0 ->
     TestRunResult.errorSummary r
     = Some (numToString (TestRunResult.failedTests r)
             ++ js " test(s) failed")).
Proof.
  intros H Hf ranOnes.
  destruct (runTestSuite_final_result env w out H Hf) as (Hr & Hc).
  split; [exact Hr|]. eexists. split; [exact Hc|].
  destruct (afterCategories_totals env (testFilesOf out) testCategories
              startedFrame) as (Ht & Hp & Hfl & Hres).
  fold (processed (testFilesOf out)) in Ht, Hp, Hfl, Hres.
  fold ranOnes in Ht, Hp, Hfl, Hres.
  set (F := afterCategories env (testFilesOf out) testCategories startedFrame)
    in *.
  cbn [finalResultOf TestRunResult.totalTests TestRunResult.passedTests
       TestRunResult.failedTests TestRunResult.status TestRunResult.tests
       TestRunResult.errorSummary].
  change (totalTests startedFrame) with 0 in Ht.
  change (totalPassed startedFrame) with 0 in Hp.
  change (totalFailed startedFrame) with 0 in Hfl.
  change (allTestResults startedFrame) with (@nil TestResult.t) in Hres.
  repeat split; try lia; try assumption.
  - destruct (Z.gtb_spec (totalFailed F) 0); [lia | congruence].
  - intros Hgt. destruct (Z.gtb_spec (totalFailed F) 0); [discriminate | lia].
  - intros Hgt. destruct (Z.gtb_spec (totalFailed F) 0); [reflexivity | lia].
Qed.

Lemma final_result_reports_failures_witness :
  let out := js "tests/integration/a.test.ts" ++ [LF]
             ++ js "tests/integration/b.test.ts" ++ [LF]
             ++ js "tests/integration/c.test.ts" ++ [LF]
             ++ js "tests/storage/d.test.ts" ++ [LF] in
  findFiles scenarioEnv = ExecOk out /\
  failsAt 0 idleWorld = None /\
  (let ranOnes := processed (testFilesOf out) in
   fst (runTestSuite scenarioEnv idleWorld) = Ret tt /\
   exists r,
     completions (issued (runTestSuite scenarioEnv) idleWorld) = [r] /\
     TestRunResult.status r
       = (if TestRunResult.failedTests r =? 0 then passed else failed) /\
     TestRunResult.totalTests r
       = sumOver (fun c => Stats.total (statsOf scenarioEnv c)) ranOnes /\
     TestRunResult.passedTests r
       = sumOver (fun c => Stats.passed (statsOf scenarioEnv c)) ranOnes /\
     TestRunResult.failedTests r
       = sumOver (fun c => Stats.failed (statsOf scenarioEnv c)) ranOnes /\
     TestRunResult.tests r = flat_map (resultsOf scenarioEnv) ranOnes /\
     (TestRunResult.errorSummary r <> None
      <-> TestRunResult.failedTests r > 0) /\
     (TestRunResult.failedTests r > 0 ->
      TestRunResult.errorSummary r
      = Some (numToString (TestRunResult.failedTests r)
              ++ js " test(s) failed"))).
Proof.
  split; [reflexivity|]. split; [reflexivity|].
  apply (final_result_reports_failures scenarioEnv idleWorld); reflexivity.
Defined.

(** The end-to-end scenario of the specification. *)
Example end_to_end_scenario :
  List.map
    (fun r => (TestRunResult.totalTests r, TestRunResult.passedTests r,
               TestRunResult.failedTests r, TestRunResult.status r,
               TestRunResult.errorSummary r))
    (completions (issued (runTestSuite scenarioEnv) idleWorld))
  = [(3, 2, 1, failed, Some (js "1 test(s) failed"))].
Proof. vm_compute. reflexivity. Qed.

(** C8. When the [try] block of [runTestSuite] throws, [completeTestRun]
    is called next, with a failed result whose three counts are zero,
    whose test list is empty and whose [errorSummary] is
    [Test execution failed: ] followed by the message of the error; the
    same error is then thrown to the caller. *)
Theorem uncaught_error_is_recorded_and_rethrown (env : Env) (w : World)
    (e : JsError) :
  fst (runTestSuiteTry env (setFrame freshFrame w)) = Throw e ->
  let thrown := snd (runTestSuiteTry env (setFrame freshFrame w)) in
  let w' := snd (runTestSuite env w) in
  fst (runTestSuite env w) = Throw e /\
  exists result d,
    calls w' = calls thrown ++ [(CallCompleteTestRun result, d)] /\
    TestRunResult.status result = failed /\
    TestRunResult.totalTests result = 0 /\
    TestRunResult.passedTests result = 0 /\
    TestRunResult.failedTests result = 0 /\
    TestRunResult.tests result = [] /\
    TestRunResult.errorSummary result
    = Some (js "Test execution failed: " ++ message e).
Proof.
  intros H thrown w'.
  destruct (runTestSuite_rethrows env w e H) as (Hr & Hk).
  split; [exact Hr|].
  exists (errorResultOf e), (db w'). split; [exact Hk|].
  repeat split.
Qed.

Lemma uncaught_error_is_recorded_and_rethrown_witness :
  fst (runTestSuiteTry failingEnv (setFrame freshFrame idleWorld))
    = Throw findError /\
  fst (runTestSuite failingEnv idleWorld) = Throw findError /\
  completions (issued (runTestSuite failingEnv) idleWorld)
    = [errorResultOf findError].
Proof.
  split; [reflexivity|].
  split.
  - exact (proj1 (uncaught_error_is_recorded_and_rethrown failingEnv
                    idleWorld findError eq_refl)).
  - reflexivity.
Defined.

(** A failure of the discovery, or of the insert of [startTestRun], is
    such an error. *)
Lemma early_failure_is_rethrown (env : Env) (w : World) (e : JsError) :
  findFiles env = ExecFailed e \/
  (exists out msg, findFiles env = ExecOk out /\ failsAt 0 w = Some msg /\
                   e = mkError msg) ->
  fst (runTestSuite env w) = Throw e /\
  completions (issued (runTestSuite env) w) = [errorResultOf e].
Proof.
  intros H. destruct (runTestSuite_fails_early env w e H) as (Hr & d & Hk).
  split; [exact Hr|]. rewrite Hk. reflexivity.
Qed.

(** ** The parser: further properties *)

Lemma malformed_or_wellFormed (line : jsstring) :
  b2z (wellFormed line) + b2z (malformed line)
  = b2z (isPassLine line) + b2z (isFailLine line) + b2z (isSkipLine line).
Proof.
  unfold wellFormed, malformed, matches, isPassLine, isFailLine, isSkipLine.
  destruct (markers_exclusive (trim line)) as (Hpf & Hps & Hfs).
  destruct (startsWith [CHECK] (trim line)) eqn:Hp.
  - rewrite Hpf, Hps by reflexivity.
    destruct (jsMatch passedRegex (trim line)); reflexivity.
  - destruct (startsWith [CROSS] (trim line)) eqn:Hf.
    + rewrite Hfs by reflexivity.
      destruct (jsMatch failedRegex (trim line)); reflexivity.
    + destruct (startsWith [DOWN] (trim line)) eqn:Hs; [|reflexivity].
      destruct (jsMatch skippedRegex (trim line)); reflexivity.
Qed.

Lemma parseLine_results (st : ParseState) (line : jsstring) :
  Z.of_nat (length (testResults (parseLine st line)))
  = Z.of_nat (length (testResults st)) + b2z (wellFormed line).
Proof.
  unfold parseLine, wellFormed, matches, isPassLine, isFailLine, isSkipLine.
  destruct (markers_exclusive (trim line)) as (Hpf & Hps & Hfs).
  destruct (startsWith [CHECK] (trim line)) eqn:Hp.
  - rewrite Hpf, Hps by reflexivity.
    destruct (jsMatch passedRegex (trim line)); simpl;
      rewrite ?length_app; simpl; lia.
  - destruct (startsWith [CROSS] (trim line)) eqn:Hf.
    + rewrite Hfs by reflexivity.
      destruct (jsMatch failedRegex (trim line)); simpl;
        rewrite ?length_app; simpl; lia.
    + destruct (startsWith [DOWN] (trim line)) eqn:Hs; [|simpl; lia].
      destruct (jsMatch skippedRegex (trim line)); simpl;
        rewrite ?length_app; simpl; lia.
Qed.

Lemma fold_parseLine_results (lines : list jsstring) (st : ParseState) :
  Z.of_nat (length (testResults (fold_left parseLine lines st)))
  = Z.of_nat (length (testResults st)) + countLines wellFormed lines.
Proof.
  revert st. induction lines as [|line lines IH]; intros st; simpl.
  - unfold countLines. simpl. lia.
  - rewrite IH, parseLine_results, countLines_cons. lia.
Qed.

Lemma countLines_split3 (lines : list jsstring) :
  countLines wellFormed lines + countLines malformed lines
  = countLines isPassLine lines + countLines isFailLine lines
    + countLines isSkipLine lines.
Proof.
  induction lines as [|line lines IH].
  - reflexivity.
  - rewrite !countLines_cons. pose proof (malformed_or_wellFormed line). lia.
Qed.

(** X1. The total of an output is the number of test cases the parse
    records plus the number of malformed marker lines: a marker line
    is counted whether or not a case is recorded for it, and nothing
    else is counted or recorded. *)
Theorem total_is_recorded_plus_malformed (output : jsstring)
    (given : list TestResult.t) :
  let stats := fst (parseAndUpdateTestCounts output given) in
  let results := snd (parseAndUpdateTestCounts output given) in
  Stats.total stats
  = (Z.of_nat (length results) - Z.of_nat (length given))
    + countLines malformed (split [LF] output).
Proof.
  destruct (parse_stats output given) as (_ & _ & Ht).
  cbv zeta in *. rewrite Ht.
  unfold parseAndUpdateTestCounts, parseLines. cbn [snd].
  rewrite fold_parseLine_results. cbn [testResults].
  pose proof (countLines_split3 (split [LF] output)). lia.
Qed.
Lemma split_newline_app (a b cur : jsstring) :
  splitFrom [LF] 0 cur (a ++ LF :: b)
  = splitFrom [LF] 0 cur a ++ splitFrom [LF] 0 [] b.
Proof.
  revert cur. induction a as [|c a IH]; intros cur.
  - cbn [app splitFrom startsWith length Nat.pred]. 
    rewrite N.eqb_refl. reflexivity.
  - cbn [app splitFrom startsWith length Nat.pred].
    destruct (N.eqb LF c); cbn [andb].
    + rewrite IH. reflexivity.
    + apply IH.
Qed.

(** Counters and cases of a fold, against the same fold started from
    zero counters. *)
Lemma fold_parseLine_shift (lines : list jsstring) (st : ParseState) :
  let z := fold_left parseLine lines
             {| filePassed := 0; fileFailed := 0; fileTotal := 0;
                testResults := testResults st |} in
  let st' := fold_left parseLine lines st in
  filePassed st' = filePassed st + filePassed z /\
  fileFailed st' = fileFailed st + fileFailed z /\
  fileTotal st' = fileTotal st + fileTotal z /\
  testResults st' = testResults z.
Proof.
  cbv zeta.
  destruct (fold_parseLine_counts lines st) as (Hp & Hf & Ht).
  destruct (fold_parseLine_counts lines
              {| filePassed := 0; fileFailed := 0; fileTotal := 0;
                 testResults := testResults st |}) as (Hp0 & Hf0 & Ht0).
  cbv zeta in *. cbn [filePassed fileFailed fileTotal] in *.
  repeat split; try lia.
  clear. revert st. induction lines as [|line lines IH]; intros st.
  - reflexivity.
  - cbn [fold_left]. rewrite IH. symmetry. rewrite IH.
    f_equal. f_equal.
    unfold parseLine. cbn [testResults filePassed fileFailed fileTotal].
    repeat match goal with
           | |- context [if ?b then _ else _] => destruct b
           | |- context [match ?o with Some _ => _ | None => _ end] =>
               destruct o
           end; reflexivity.
Qed.
(** X2. Parsing two outputs joined by a newline is parsing the first
    and then the second into the same array: the statistics add up and
    the cases of the second follow those of the first. *)
Theorem parse_concatenation (a b : jsstring) (given : list TestResult.t) :
  let first := parseAndUpdateTestCounts a given in
  let second := parseAndUpdateTestCounts b (snd first) in
  parseAndUpdateTestCounts (a ++ LF :: b) given
  = (addStats (fst first) (fst second), snd second).
Proof.
  cbv zeta. unfold parseAndUpdateTestCounts, parseLines, split, addStats.
  cbn [fst snd Stats.passed Stats.failed Stats.total].
  rewrite split_newline_app, fold_left_app.
  set (st1 := fold_left parseLine (splitFrom [LF] 0 [] a)
                {| filePassed := 0; fileFailed := 0; fileTotal := 0;
                   testResults := given |}).
  destruct (fold_parseLine_shift (splitFrom [LF] 0 [] b) st1)
    as (Hp & Hf & Ht & Hr).
  rewrite Hp, Hf, Ht, Hr. reflexivity.
Qed.
Lemma startsWith_app_iff (p s : jsstring) :
  startsWith p s = true <-> exists rest, s = p ++ rest.
Proof.
  revert s. induction p as [|a p IH]; intros s.
  - cbn [startsWith]. split; [exists s; reflexivity | reflexivity].
  - destruct s as [|b s]; cbn [startsWith].
    + split; [discriminate | intros [rest H]; discriminate].
    + rewrite andb_true_iff, N.eqb_eq, IH. split.
      * intros [-> [rest ->]]. exists rest. reflexivity.
      * intros [rest H]. injection H as -> ->. split; [reflexivity|eauto].
Qed.

(** In a separator, [splitFrom] steps over as many code units as are
    left of it. *)
Lemma splitFrom_skip (sep t rest cur : jsstring) :
  splitFrom sep (length t) cur (t ++ rest) = splitFrom sep 0 cur rest.
Proof.
  induction t as [|c t IH]; [reflexivity|]. exact IH.
Qed.

Lemma splitFrom_nonempty (sep : jsstring) (s : jsstring) :
  forall skip cur, splitFrom sep skip cur s <> [].
Proof.
  induction s as [|c s IH]; intros skip cur; cbn [splitFrom].
  - discriminate.
  - destruct skip; [|apply IH].
    destruct (startsWith sep (c :: s)); [discriminate | apply IH].
Qed.

Lemma join_cons (sep p : jsstring) (parts : list jsstring) :
  parts <> [] -> join sep (p :: parts) = p ++ sep ++ join sep parts.
Proof. destruct parts; [congruence | reflexivity]. Qed.

Lemma join_splitFrom (sep : jsstring) :
  sep <> [] ->
  forall n s cur, (length s <= n)%nat ->
  join sep (splitFrom sep 0 cur s) = rev cur ++ s.
Proof.
  intros Hsep. induction n as [|n IH]; intros s cur Hlen.
  - destruct s; [|simpl in Hlen; lia]. cbn. rewrite app_nil_r. reflexivity.
  - destruct s as [|c s]; [cbn; rewrite app_nil_r; reflexivity|].
    cbn [splitFrom].
    destruct (startsWith sep (c :: s)) eqn:Hs.
    + apply startsWith_app_iff in Hs as [rest Hrest].
      destruct sep as [|a sep']; [congruence|].
      injection Hrest as <- ->.
      cbn [length Nat.pred]. rewrite splitFrom_skip.
      rewrite join_cons by apply splitFrom_nonempty.
      rewrite IH.
      * cbn. reflexivity.
      * simpl in Hlen. rewrite length_app in Hlen. lia.
    + rewrite IH by (simpl in Hlen; lia).
      cbn [rev]. rewrite <- app_assoc. reflexivity.
Qed.

(** Joining the pieces of a split gives the string back. *)
Lemma join_split (sep s : jsstring) :
  sep <> [] -> join sep (split sep s) = s.
Proof.
  intros H. unfold split. rewrite (join_splitFrom sep H (length s)); auto.
Qed.

(** X3. The suite and the name recorded for a label lose nothing of
    it.  A label with a non-empty first segment and a non-empty rest
    after its first [ > ] is the suite, [ > ] and the name; a non-empty
    label without [ > ] is recorded as both the suite and the name, and
    never as the suite [unknown]. *)
Theorem suite_and_name_recombine (label : jsstring) :
  label <> [] ->
  match split (js " > ") label with
  | [_] | [] => suiteOf label = label /\ nameOf label = label
  | first :: rest =>
      first <> [] -> join (js " > ") rest <> [] ->
      suiteOf label ++ js " > " ++ nameOf label = label
  end.
Proof.
  intros Hne.
  assert (Hsep : js " > " <> []) by discriminate.
  pose proof (join_split (js " > ") label Hsep) as Hjoin.
  pose proof (splitFrom_nonempty (js " > ") label 0 []) as Hparts.
  unfold suiteOf, nameOf. fold (split (js " > ") label) in Hparts.
  destruct (split (js " > ") label) as [|first [|second rest]];
    [congruence | |].
  - cbn [hd tl join] in *. subst first.
    destruct label; [congruence|]. split; reflexivity.
  - intros Hfirst Hrest. cbn [hd tl].
    rewrite join_cons in Hjoin by discriminate.
    destruct first; [congruence|].
    cbn [orStr].
    destruct (join (js " > ") (second :: rest)) eqn:Hj; [congruence|].
    cbn [orStr]. exact Hjoin.
Qed.

Lemma suite_and_name_recombine_witness :
  let label := js "LoginSuite > form > submits" in
  label <> [] /\
  suiteOf label ++ js " > " ++ nameOf label = label.
Proof.
  split; [discriminate|].
  assert (Hsplit : split (js " > ") (js "LoginSuite > form > submits")
                   = [js "LoginSuite"; js "form"; js "submits"])
    by (vm_compute; reflexivity).
  generalize (suite_and_name_recombine (js "LoginSuite > form > submits")
                ltac:(discriminate)).
  rewrite Hsplit. intros H. apply H; discriminate.
Defined.

(** ** The matcher on well-formed lines *)

Lemma matchNodes_plus (cls : N -> bool) (g : bool) (r : list Node)
    (pos : nat) (s : jsstring) (c : Caps) :
  matchNodes (NPlus cls g :: r) pos s c
  = match s with
    | [] => None
    | x :: s' =>
        if cls x then
          if g then
            match matchNodes (NPlus cls g :: r) (S pos) s' c with
            | Some c' => Some c'
            | None => matchNodes r (S pos) s' c
            end
          else
            match matchNodes r (S pos) s' c with
            | Some c' => Some c'
            | None => matchNodes (NPlus cls g :: r) (S pos) s' c
            end
        else None
    end.
Proof. destruct s; reflexivity. Qed.


Lemma plus_fails_outside (cls : N -> bool) (g : bool) (r : list Node)
    (pos : nat) (s : jsstring) (c : Caps) :
  match s with [] => True | y :: _ => cls y = false end ->
  matchNodes (NPlus cls g :: r) pos s c = None.
Proof.
  rewrite matchNodes_plus. destruct s as [|y s]; [reflexivity|].
  intros ->. reflexivity.
Qed.

(** A greedy quantifier takes a whole run when what follows the run is
    outside its class and the rest of the expression matches there. *)
Lemma plus_greedy_take (cls : N -> bool) (r : list Node) (c c' : Caps)
    (rest : jsstring) :
  match rest with [] => True | y :: _ => cls y = false end ->
  (forall pos, matchNodes r pos rest c = Some c') ->
  forall a pos, a <> [] -> forallb cls a = true ->
  matchNodes (NPlus cls true :: r) pos (a ++ rest) c = Some c'.
Proof.
  intros Hout Hrest. induction a as [|x a IH]; intros pos Hne Hall;
    [congruence|].
  cbn [forallb] in Hall. apply andb_true_iff in Hall as [Hx Hall].
  cbn [app]. rewrite matchNodes_plus, Hx.
  destruct a as [|y a].
  - cbn [app]. rewrite (plus_fails_outside cls true r (S pos) rest c Hout).
    apply Hrest.
  - rewrite IH by (auto; discriminate). reflexivity.
Qed.


Lemma matchNodes_open (i : nat) (r : list Node) (pos : nat) (s : jsstring)
    (c : Caps) :
  matchNodes (NOpen i :: r) pos s c = matchNodes r pos s (openGroup i s c).
Proof. reflexivity. Qed.



Lemma last_app_nonempty (p q : jsstring) (d : N) :
  q <> [] -> List.last (p ++ q) d = List.last q d.
Proof.
  intros Hq. induction p as [|x p IH]; [reflexivity|].
  cbn [app]. destruct (p ++ q) eqn:E.
  - apply app_eq_nil in E as [_ ->]. congruence.
  - cbn [List.last]. exact IH.
Qed.




Lemma isLabel_parts (label : jsstring) :
  isLabel label = true ->
  label <> [] /\ forallb isDot label = true /\
  isSpace (hd 0%N label) = false /\ isSpace (List.last label 0%N) = false.
Proof.
  unfold isLabel. rewrite !andb_true_iff, !negb_true_iff.
  intros [[[Hne Hdot] Hh] Hl]. repeat split; auto.
  destruct label; [discriminate | discriminate].
Qed.

Lemma isBlank_parts (w : jsstring) :
  isBlank w = true -> w <> [] /\ forallb isSpace w = true.
Proof.
  unfold isBlank. rewrite andb_true_iff. intros [Hne H]. split; auto.
  destruct w; discriminate.
Qed.



Lemma trimStart_pad (pad s : jsstring) :
  forallb isSpace pad = true -> isSpace (hd 0%N s) = false -> s <> [] ->
  trimStart (pad ++ s) = s.
Proof.
  intros Hpad Hhd Hs. induction pad as [|x pad IH].
  - destruct s as [|y s]; [congruence|]. cbn in *. rewrite Hhd. reflexivity.
  - cbn [forallb] in Hpad. apply andb_true_iff in Hpad as [Hx Hpad].
    cbn [app trimStart]. rewrite Hx. apply IH. exact Hpad.
Qed.

Lemma hd_rev_last (s : jsstring) (d : N) : hd d (rev s) = List.last s d.
Proof.
  induction s as [|x s IH] using rev_ind; [reflexivity|].
  rewrite rev_app_distr, last_last. reflexivity.
Qed.

(** [trim] strips the white space around a string that begins and ends
    with something else. *)
Lemma trim_padded (pre core post : jsstring) :
  forallb isSpace pre = true -> forallb isSpace post = true ->
  core <> [] -> isSpace (hd 0%N core) = false ->
  isSpace (List.last core 0%N) = false ->
  trim (pre ++ core ++ post) = core.
Proof.
  intros Hpre Hpost Hne Hhd Hlast. unfold trim.
  rewrite (trimStart_pad pre (core ++ post)); auto.
  - rewrite rev_app_distr, (trimStart_pad (rev post) (rev core)).
    + apply rev_involutive.
    + rewrite forallb_forall in *. intros x Hx. apply Hpost.
      apply in_rev. exact Hx.
    + rewrite hd_rev_last. exact Hlast.
    + intros E. apply Hne. rewrite <- (rev_involutive core), E. reflexivity.
  - destruct core; [congruence | exact Hhd].
  - destruct core; [congruence | discriminate].
Qed.

Lemma skipped_line_matches (w1 label : jsstring) :
  isBlank w1 = true -> isLabel label = true ->
  exists c,
    jsMatch skippedRegex (DOWN :: w1 ++ label) = Some c /\
    group 1 c = label.
Proof.
  intros Hw1 Hl.
  apply isBlank_parts in Hw1 as [Hw1n Hw1].
  apply isLabel_parts in Hl as (Hln & Hdot & Hhd & Hlast).
  set (c1 := openGroup 1 label noCaps).
  set (c2 := closeGroup 1 [] c1).
  assert (L : forall pos,
            matchNodes [NPlus isDot true; NClose 1; NEnd] pos label c1
            = Some c2).
  { intros pos. rewrite <- (app_nil_r label) at 1.
    apply plus_greedy_take; [exact I | | assumption..].
    intros pos'. reflexivity. }
  exists c2. split.
  - unfold jsMatch, skippedRegex.
    assert (Hm : matchNodes
                   [NStart; NChar DOWN; NPlus isSpace true; NOpen 1;
                    NPlus isDot true; NClose 1; NEnd] 0
                   (DOWN :: w1 ++ label) noCaps = Some c2).
    { change (matchNodes (NStart :: NChar DOWN :: ?r) 0 (DOWN :: ?s) noCaps)
        with (matchNodes r 1 s noCaps).
      apply plus_greedy_take; [ | | assumption..].
      - destruct label as [|x label]; [congruence|]. exact Hhd.
      - intros pos. rewrite matchNodes_open. apply L. }
    cbn [matchAt]. rewrite Hm. reflexivity.
  - unfold group, c2, c1, closeGroup, openGroup.
    cbn [opened closed assoc Nat.eqb length].
    rewrite Nat.sub_0_r. apply firstn_all.
Qed.

Lemma marker_line_shape (m : N) (body : jsstring) :
  isSpace m = false -> isSpace (List.last (m :: body) 0%N) = false ->
  forall pre post,
  forallb isSpace pre = true -> forallb isSpace post = true ->
  trim (pre ++ (m :: body) ++ post) = m :: body.
Proof.
  intros Hm Hl pre post Hpre Hpost.
  apply trim_padded; auto; discriminate.
Qed.




(** X5. A line printed as the skip marker, white space and a label,
    indented or not, counts in the total only and records one skipped
    case with the suite and name of the label and duration 0. *)
Theorem formatted_skip_line_parses (st : ParseState)
    (pre w1 label post : jsstring) :
  forallb isSpace pre = true -> isBlank w1 = true -> isLabel label = true ->
  forallb isSpace post = true ->
  parseLine st (pre ++ (DOWN :: w1 ++ label) ++ post)
  = {| filePassed := filePassed st; fileFailed := fileFailed st;
       fileTotal := fileTotal st + 1;
       testResults := testResults st ++
         [ {| TestResult.suite := suiteOf label;
              TestResult.name := nameOf label;
              TestResult.status := skipped;
              TestResult.duration := 0;
              TestResult.error := None;
              TestResult.stackTrace := None |} ] |}.
Proof.
  intros Hpre Hw1 Hl Hpost.
  destruct (skipped_line_matches w1 label Hw1 Hl) as (c & Hm & Hg1).
  unfold parseLine.
  assert (Hlast : isSpace (List.last (DOWN :: w1 ++ label) 0%N) = false).
  { apply isLabel_parts in Hl as (Hln & _ & _ & Hlast).
    change (DOWN :: w1 ++ label) with ((DOWN :: w1) ++ label).
    rewrite last_app_nonempty by exact Hln. exact Hlast. }
  rewrite (marker_line_shape DOWN _ eq_refl Hlast pre post Hpre Hpost).
  change (startsWith [CHECK] (DOWN :: ?s)) with false.
  change (startsWith [CROSS] (DOWN :: ?s)) with false.
  change (startsWith [DOWN] (DOWN :: ?s)) with true. cbv iota.
  rewrite Hm, Hg1. reflexivity.
Qed.

Lemma formatted_skip_line_parses_witness :
  let st := {| filePassed := 0; fileFailed := 0; fileTotal := 0;
               testResults := [] |} in
  forallb isSpace (js " ") = true /\ isBlank (js " ") = true /\
  isLabel (js "LoginSuite > skipped-case") = true /\
  forallb isSpace [] = true /\
  parseLine st (js " " ++ (DOWN :: js " " ++ js "LoginSuite > skipped-case")
                ++ [])
  = {| filePassed := 0; fileFailed := 0; fileTotal := 0 + 1;
       testResults :=
         [] ++
         [ {| TestResult.suite := suiteOf (js "LoginSuite > skipped-case");
              TestResult.name := nameOf (js "LoginSuite > skipped-case");
              TestResult.status := skipped;
              TestResult.duration := 0;
              TestResult.error := None;
              TestResult.stackTrace := None |} ] |}.
Proof.
  repeat (split; [reflexivity|]).
  exact (formatted_skip_line_parses
           {| filePassed := 0; fileFailed := 0; fileTotal := 0;
              testResults := [] |}
           (js " ") (js " ") (js "LoginSuite > skipped-case") []
           eq_refl eq_refl eq_refl eq_refl).
Defined.
(** ** The discovery of the test files *)

Lemma splitFrom_line (name cur : jsstring) :
  forallb (fun c => negb (N.eqb c LF)) name = true ->
  splitFrom [LF] 0 cur name = [rev cur ++ name].
Proof.
  revert cur. induction name as [|c name IH]; intros cur H.
  - cbn [splitFrom]. rewrite app_nil_r. reflexivity.
  - cbn [forallb] in H. apply andb_true_iff in H as [Hc H].
    cbn [splitFrom startsWith]. rewrite N.eqb_sym.
    destruct (N.eqb c LF); [discriminate|]. cbn [andb].
    rewrite (IH (c :: cur) H). cbn [rev]. rewrite <- app_assoc. reflexivity.
Qed.

Lemma split_join_lines (name : jsstring) (names : list jsstring) :
  forallb isPath (name :: names) = true ->
  split [LF] (join [LF] (name :: names)) = name :: names.
Proof.
  revert name. induction names as [|next names IH]; intros name H.
  - cbn [forallb] in H. apply andb_true_iff in H as [H _].
    apply andb_true_iff in H as [_ H].
    cbn [join]. unfold split. apply (splitFrom_line name [] H).
  - cbn [forallb] in H. apply andb_true_iff in H as [Hn H].
    apply andb_true_iff in Hn as [_ Hn].
    change (join [LF] (name :: next :: names))
      with (name ++ LF :: join [LF] (next :: names)).
    unfold split. rewrite split_newline_app, (splitFrom_line name [] Hn).
    cbn [rev app]. f_equal. apply IH. exact H.
Qed.

Lemma trimStart_blank (s : jsstring) :
  forallb isSpace s = true -> trimStart s = [].
Proof.
  induction s as [|c s IH]; [reflexivity|].
  cbn [forallb trimStart]. intros H. apply andb_true_iff in H as [-> H].
  apply IH. exact H.
Qed.

Lemma filter_paths (names : list jsstring) :
  forallb isPath names = true -> List.filter nonEmpty names = names.
Proof.
  induction names as [|name names IH]; [reflexivity|].
  cbn [forallb List.filter]. intros H. apply andb_true_iff in H as [Hn H].
  apply andb_true_iff in Hn as [-> _]. rewrite (IH H). reflexivity.
Qed.

(** X20. The output of [find] is read back as the list of its paths:
    when the output is made of paths, one per line, none of them empty,
    between white space that is not part of the first or the last path
    (the line feed [find] ends its output with, for one), [runTestSuite]
    gets exactly these paths, in order, and [totalFiles] is their
    number.  An output of white space alone gives no file. *)
Theorem find_output_is_read_back (names : list jsstring)
    (pre post : jsstring) :
  forallb isPath names = true ->
  forallb isSpace pre = true -> forallb isSpace post = true ->
  isSpace (hd 0%N (join [LF] names)) = false ->
  isSpace (List.last (join [LF] names) 0%N) = false ->
  testFilesOf (pre ++ join [LF] names ++ post) = names.
Proof.
  intros Hnames Hpre Hpost Hhd Hlast. unfold testFilesOf.
  destruct names as [|name names].
  - cbn [join app]. unfold trim.
    rewrite (trimStart_blank (pre ++ post))
      by (rewrite forallb_app, Hpre, Hpost; reflexivity).
    reflexivity.
  - rewrite trim_padded; try assumption.
    + rewrite (split_join_lines name names Hnames).
      apply filter_paths. exact Hnames.
    + cbn [forallb] in Hnames. apply andb_true_iff in Hnames as [Hn _].
      apply andb_true_iff in Hn as [Hn _].
      destruct name; [discriminate|].
      destruct names; cbn [join]; discriminate.
Qed.

Lemma find_output_is_read_back_witness :
  testFilesOf (js "tests/api/a.test.ts" ++ [LF] ++ js "tests/e2e/my test.ts"
               ++ [LF])
  = [js "tests/api/a.test.ts"; js "tests/e2e/my test.ts"].
Proof.
  exact (find_output_is_read_back
           [js "tests/api/a.test.ts"; js "tests/e2e/my test.ts"] [] [LF]
           eq_refl eq_refl eq_refl eq_refl eq_refl).
Defined.
(** ** The tracker: further properties *)

Lemma latestOf_spec (rows : list (Z * TestRun.t)) :
  match latestOf rows with
  | None => rows = []
  | Some kv => In kv rows /\ Forall (fun kv' => fst kv' <= fst kv) rows
  end.
Proof.
  induction rows as [|kv rows IH]; [reflexivity|].
  cbn [latestOf fold_right]. fold (latestOf rows).
  destruct (latestOf rows) as [b|].
  - destruct IH as [Hin Hall].
    destruct (Z.ltb_spec (fst b) (fst kv)).
    + split; [left; reflexivity|]. constructor; [lia|].
      eapply Forall_impl; [exact Hall|]. cbn. intros. lia.
    + split; [right; exact Hin|]. constructor; [lia | exact Hall].
  - subst rows. split; [left; reflexivity|]. repeat constructor. lia.
Qed.

Lemma selectLatest_after_insert (d : Db) (row : TestRun.t) :
  (forall id r, testRuns d !! id = Some r -> id < nextId d) ->
  selectLatest (applyStmt (InsertTestRun row) d) = Some (nextId d, row).
Proof.
  intros Hbelow. unfold selectLatest, applyStmt. cbn [testRuns].
  pose proof (latestOf_spec (map_to_list (<[nextId d := row]> (testRuns d))))
    as Hspec.
  destruct (latestOf (map_to_list (<[nextId d := row]> (testRuns d))))
    as [[k r]|].
  - destruct Hspec as [Hin Hall].
    apply list_elem_of_In, elem_of_map_to_list in Hin.
    rewrite Forall_forall in Hall.
    assert (Hnew : (nextId d, row) ∈
                   map_to_list (<[nextId d := row]> (testRuns d)))
      by (apply elem_of_map_to_list, lookup_insert_eq).
    specialize (Hall _ Hnew). cbn in Hall.
    destruct (decide (k = nextId d)) as [->|Hne].
    + rewrite lookup_insert_eq in Hin. congruence.
    + rewrite lookup_insert_ne in Hin by congruence.
      specialize (Hbelow _ _ Hin). lia.
  - exfalso. apply map_to_list_empty_iff in Hspec.
    apply (insert_non_empty _ _ _ Hspec).
Qed.

(** X7. On a store whose identifiers are all below the next one it
    assigns, the run a [startTestRun] has just created is what
    [getLatestTestRun] returns next: under the identifier that
    [startTestRun] returned, running, with zero counters. *)
Theorem started_run_is_latest (env : Env) (w : World)
    (commitHash : option jsstring) (branch : jsstring) (totalFiles : Z) :
  failsAt 0 w = None -> failsAt 1 w = None ->
  (forall id r, testRuns (db w) !! id = Some r -> id < nextId (db w)) ->
  let started := startTestRun env commitHash branch totalFiles w in
  fst started = Ret (nextId (db w)) /\
  fst (getLatestTestRun (snd started))
  = Ret (Some (nextId (db w),
               startedRow commitHash branch totalFiles
                 (clock env (S (ticks w))))).
Proof.
  intros H0 H1 Hbelow.
  pose proof (selectLatest_after_insert (db w)
                (startedRow commitHash branch totalFiles
                   (clock env (S (ticks w)))) Hbelow) as Hsel.
  revert H0 H1 Hsel.
  unfold startTestRun, getLatestTestRun, dbQuery, failsAt, bind.
  destruct w as [d th fr sc tk tr cs]. cbn [dbScript db ticks].
  destruct sc as [|[m0|] [|[m1|] sc]]; cbn; intros H0 H1 Hsel;
    try discriminate; run; (split; [reflexivity|]);
    unfold startedRow in Hsel; rewrite Hsel; reflexivity.
Qed.

Lemma started_run_is_latest_witness :
  failsAt 0 idleWorld = None /\ failsAt 1 idleWorld = None /\
  (forall id r, testRuns (db idleWorld) !! id = Some r ->
                id < nextId (db idleWorld)) /\
  fst (getLatestTestRun
         (snd (startTestRun sampleEnv None (js "main") 3 idleWorld)))
  = Ret (Some (1, startedRow None (js "main") 3 1001)).
Proof.
  assert (Hbelow : forall id r, testRuns (db idleWorld) !! id = Some r ->
                                id < nextId (db idleWorld)).
  { intros id r H. cbn in H. rewrite lookup_empty in H. discriminate. }
  split; [reflexivity|]. split; [reflexivity|]. split; [exact Hbelow|].
  exact (proj2 (started_run_is_latest sampleEnv idleWorld None (js "main") 3
                  eq_refl eq_refl Hbelow)).
Defined.

Lemma writeDuration_rows (id duration : Z) (d : Db) (k : Z) :
  testRuns (writeDuration id duration d) !! k
  = if decide (id = k) then setDuration duration <$> testRuns d !! k
    else testRuns d !! k.
Proof.
  unfold writeDuration. cbn [testRuns].
  destruct (decide (id = k)) as [->|Hne].
  - apply lookup_alter_eq.
  - apply lookup_alter_ne; assumption.
Qed.

(** The store [updateRunningDuration] leaves is the one it found, or
    that one with the duration of the run rewritten. *)
Lemma updateRunningDuration_db (env : Env) (runId : Z) (w : World) :
  let w' := snd (updateRunningDuration env runId w) in
  this w' = this w /\ frame w' = frame w /\ calls w' = calls w /\
  trace w' = trace w /\
  (db w' = db w \/ exists duration, db w' = writeDuration runId duration (db w)).
Proof.
  unfold updateRunningDuration, dbQuery, bind, dateNow.
  destruct w as [d th fr sc tk tr cs]. cbn [dbScript db].
  destruct (testRuns d !! runId) as [row|] eqn:Hrow;
    destruct sc as [|[m0|] [|[m1|] sc]]; cbn; rewrite ?Hrow; cbn;
    repeat split; eauto.
Qed.

(** X8. [updateRunningDuration] writes [duration] and nothing else:
    whatever the store does, every run is still there with all its
    other fields as they were, no run is added, and the test cases, the
    tracker and the console are untouched.  The timer that calls it
    cannot disturb the status, the counters or the progress of a run. *)
Theorem updateRunningDuration_writes_duration_only (env : Env) (runId : Z)
    (w : World) :
  let w' := snd (updateRunningDuration env runId w) in
  this w' = this w /\ trace w' = trace w /\
  testCases (db w') = testCases (db w) /\ nextId (db w') = nextId (db w) /\
  forall id,
    match testRuns (db w) !! id, testRuns (db w') !! id with
    | Some row, Some row' =>
        sameButDuration row row' /\ (id <> runId -> row' = row)
    | None, None => True
    | _, _ => False
    end.
Proof.
  destruct (updateRunningDuration_db env runId w)
    as (Hthis & _ & _ & Htrace & Hdb).
  cbv zeta. repeat split; try assumption.
  - destruct Hdb as [->|[duration ->]]; reflexivity.
  - destruct Hdb as [->|[duration ->]]; reflexivity.
  - intros id. destruct Hdb as [->|[duration ->]].
    + destruct (testRuns (db w) !! id); [|exact I].
      split; [reflexivity | auto].
    + rewrite writeDuration_rows.
      destruct (decide (runId = id)) as [->|Hne].
      * destruct (testRuns (db w) !! id); cbn; [|exact I].
        split; [reflexivity | congruence].
      * destruct (testRuns (db w) !! id); [|exact I].
        split; [reflexivity | auto].
Qed.

(** X9. For a stored run, on a store that answers the read and takes
    the write, [updateRunningDuration] returns and the run's [duration]
    is then the clock's reading minus its [startedAt]; for an identifier
    with no run it returns after the read without writing; when the read
    fails the error is raised to the caller, the store unchanged. *)
Theorem updateRunningDuration_sets_elapsed_time (env : Env) (runId : Z)
    (w : World) :
  let result := updateRunningDuration env runId w in
  (forall row, testRuns (db w) !! runId = Some row ->
     failsAt 0 w = None -> failsAt 1 w = None ->
     fst result = Ret tt /\
     testRuns (db (snd result)) !! runId
     = Some (setDuration (clock env (ticks w) - TestRun.startedAt row) row)) /\
  (testRuns (db w) !! runId = None -> failsAt 0 w = None ->
     fst result = Ret tt /\ db (snd result) = db w /\
     dbScript (snd result) = tl (dbScript w)) /\
  (forall msg, failsAt 0 w = Some msg ->
     fst result = Throw (mkError msg) /\ db (snd result) = db w).
Proof.
  unfold updateRunningDuration, dbQuery, bind, dateNow, failsAt.
  destruct w as [d th fr sc tk tr cs]. cbn [dbScript db ticks].
  repeat split; intros.
  all: destruct sc as [|[m0|] [|[m1|] sc]]; cbn in *; try discriminate;
    rewrite ?H; cbn; try reflexivity; try congruence.
  all: try (rewrite lookup_alter_eq, H; reflexivity).
Qed.

Lemma updateRunningDuration_sets_elapsed_time_witness :
  testRuns (db startedWorld) !! 1 = Some (startedRow None (js "main") 0 1001)
  /\ failsAt 0 startedWorld = None /\ failsAt 1 startedWorld = None /\
  testRuns (db (snd (updateRunningDuration sampleEnv 1 startedWorld))) !! 1
  = Some (setDuration (1002 - 1001) (startedRow None (js "main") 0 1001)).
Proof.
  assert (Hrow : testRuns (db startedWorld) !! 1
                 = Some (startedRow None (js "main") 0 1001))
    by (cbn; apply lookup_insert_eq).
  split; [exact Hrow|]. split; [reflexivity|]. split; [reflexivity|].
  exact (proj2 (proj1 (updateRunningDuration_sets_elapsed_time sampleEnv 1
                         startedWorld) _ Hrow eq_refl eq_refl)).
Defined.
(** What [completeTestRun] stores when the store takes its statements. *)
Lemma completeTestRun_applies (env : Env) (result : TestRunResult.t)
    (w : World) (id : Z) :
  activeRun (this w) = Some id -> failsAt 0 w = None ->
  TestRunResult.tests result = [] \/ failsAt 1 w = None ->
  let w' := snd (completeTestRun env result w) in
  testRuns (db w')
    = testRuns (applyStmt (completion env w id result) (db w)) /\
  nextId (db w') = nextId (db w) /\
  testCases (db w')
    = testCases (db w)
      ++ List.map (toTestCase id) (TestRunResult.tests result) /\
  ticks w' = S (S (ticks w)) /\
  exists n, dbScript w' = drop n (dbScript w).
Proof.
  intros H. unfold completion, completeTestRun, bind, gets, failsAt.
  destruct w as [d th fr sc tk tr cs]; cbn [this db dbScript ticks] in *.
  rewrite H.
  destruct (TestRunResult.tests result) as [|test tests] eqn:T;
    split_script sc; cbn; intros H0 H1; try discriminate;
    try (destruct H1; discriminate);
    run; rewrite ?T; cbn; rewrite ?app_nil_r;
    (repeat split; try reflexivity);
    first [ exists 0%nat; reflexivity | exists 1%nat; reflexivity
          | exists 2%nat; reflexivity ].
Qed.

Lemma completeTestRun_idle (env : Env) (result : TestRunResult.t)
    (w : World) :
  activeRun (this w) = None ->
  db (snd (completeTestRun env result w)) = db w /\
  dbScript (snd (completeTestRun env result w)) = dbScript w.
Proof.
  intros H. unfold completeTestRun, bind, gets.
  destruct w as [d th fr sc tk tr cs]; cbn [this db dbScript ticks] in *.
  rewrite H. run. split; reflexivity.
Qed.

(** X10. When the discovery of the test files fails, [runTestSuite]
    starts no run, and yet it calls [completeTestRun]: on a tracker that
    has started a run before (the routes share one tracker), the failure
    is written over that run, which ends up failed with zero counts and
    the message of the error, whatever its outcome had been; on a
    tracker that has started none, nothing is stored.  No run is added
    in either case, and the error is thrown again. *)
Theorem early_failure_lands_on_previous_run (env : Env) (w : World)
    (e : JsError) :
  findFiles env = ExecFailed e ->
  failsAt 0 w = None ->
  let w' := snd (runTestSuite env w) in
  fst (runTestSuite env w) = Throw e /\
  nextId (db w') = nextId (db w) /\
  testCases (db w') = testCases (db w) /\
  testRuns (db w')
  = match activeRun (this w) with
    | Some id =>
        alter (setCompleted failed 0 0 0
                 (clock env (ticks w) - startTime (this w))
                 (clock env (S (ticks w)))
                 (Some (js "Test execution failed: " ++ message e)))
          id (testRuns (db w))
    | None => testRuns (db w)
    end.
Proof.
  intros H Hf.
  unfold runTestSuite, runTestSuiteTry, runTestSuiteCatch,
    runTestSuiteFinally, execSync.
  plumb. rewrite H. plumb.
  match goal with
  | |- context [completeTestRun ?e ?r ?w0] =>
      pose proof (completeTestRun_returns e r w0) as Hc;
      pose proof (completeTestRun_applies e r w0) as Ha;
      pose proof (completeTestRun_idle e r w0) as Hi;
      destruct (completeTestRun e r w0) as [r' w1]
  end.
  cbv zeta in Hc, Ha. plumb_in Hc. plumb_in Ha. plumb_in Hi.
  destruct Hc as (-> & _ & Hfr & _). plumb. rewrite Hfr.
  cbn [freshFrame durationUpdateInterval]. plumb.
  split; [reflexivity|].
  destruct (activeRun (this w)) as [id|].
  - destruct (Ha id eq_refl Hf (or_introl eq_refl))
      as (Hruns & Hnext & Hcases & _).
    rewrite app_nil_r in Hcases. repeat split; assumption.
  - destruct (Hi eq_refl) as (-> & _). repeat split; reflexivity.
Qed.

Lemma early_failure_lands_on_previous_run_witness :
  let done := snd (completeTestRun sampleEnv sampleResult startedWorld) in
  let w' := snd (runTestSuite failingEnv done) in
  (TestRun.status <$> testRuns (db done) !! 1) = Some passed /\
  (TestRun.status <$> testRuns (db w') !! 1) = Some failed /\
  nextId (db w') = 2.
Proof.
  cbv zeta.
  destruct (early_failure_lands_on_previous_run failingEnv
              (snd (completeTestRun sampleEnv sampleResult startedWorld))
              findError eq_refl eq_refl) as (_ & Hn & _ & Hr).
  rewrite Hr, Hn. vm_compute. repeat split; reflexivity.
Defined.
Lemma reliable_next (w : World) : reliable w -> failsAt 0 w = None.
Proof.
  unfold reliable, failsAt. destruct (dbScript w) as [|o sc]; [reflexivity|].
  intros H. inversion H; subst; auto.
Qed.







Lemma afterCategories_completedFiles (env : Env) (files : list jsstring)
    (categories : list Category.t) :
  forall f : Frame,
  completedFiles (afterCategories env files categories f)
  = completedFiles f + sumOver (filesIn files) categories /\
  durationUpdateInterval (afterCategories env files categories f)
  = durationUpdateInterval f.
Proof.
  induction categories as [|category categories IH]; intros f.
  - unfold sumOver. simpl. split; [lia|reflexivity].
  - cbn [afterCategories fold_left].
    fold (afterCategories env files categories
            (afterCategory env files category f)).
    destruct (IH (afterCategory env files category f)) as (-> & ->).
    change (sumOver (filesIn files) (category :: categories))
      with (filesIn files category + sumOver (filesIn files) categories).
    unfold afterCategory, ran, filesIn.
    destruct (length (categoryFilesOf files category) =? 0)%nat eqn:E;
      cbn [negb].
    + apply Nat.eqb_eq in E. rewrite E. split; [simpl; lia|reflexivity].
    + unfold accumulate. cbn [completedFiles durationUpdateInterval].
      split; [lia|reflexivity].
Qed.




Lemma selectLatest_spec (d : Db) :
  match selectLatest d with
  | None => testRuns d = ∅
  | Some (id, row) =>
      testRuns d !! id = Some row /\
      forall id' row', testRuns d !! id' = Some row' -> id' <= id
  end.
Proof.
  unfold selectLatest.
  pose proof (latestOf_spec (map_to_list (testRuns d))) as Hspec.
  destruct (latestOf (map_to_list (testRuns d))) as [[id row]|].
  - destruct Hspec as [Hin Hall]. split.
    + apply elem_of_map_to_list, list_elem_of_In. exact Hin.
    + intros id' row' H'. rewrite Forall_forall in Hall.
      apply elem_of_map_to_list in H'.
      apply (Hall (id', row') H').
  - apply map_to_list_empty_iff. exact Hspec.
Qed.















Lemma runCategory_calls (env : Env) (files : list jsstring) (total : Z)
    (category : Category.t) (w : World) :
  let w' := snd (runCategory env files total category w) in
  fst (runCategory env files total category w) = Ret tt /\
  frame w' = afterCategory env files category (frame w) /\
  exists cs, calls w' = calls w ++ cs /\
             List.map fst cs = updatesFor env files total category (frame w).
Proof.
  unfold runCategory, updatesFor, afterCategory, doneLabel, ran.
  destruct (length (categoryFilesOf files category) =? 0)%nat; cbn [negb].
  - plumb. repeat split. exists []. rewrite app_nil_r. split; reflexivity.
  - unfold execSync, statsOf, resultsOf, outputOf. plumb.
    step_progress.
    destruct (vitest env (Category.pattern category)) as [out|error].
    + destruct (parseAndUpdateTestCounts out []) as [stats results].
      plumb. step_counts. step_progress. plumb.
      destruct Hu as (_ & Hf & _ & Hk & _).
      destruct Hu0 as (_ & Hf0 & _ & Hk0 & _).
      destruct Hu1 as (_ & Hf1 & _ & Hk1 & _).
      rewrite Hf in *.
      split; [reflexivity|]. split; [congruence|].
      eexists. split.
      * rewrite Hk1, Hk0, Hk, <- !app_assoc. reflexivity.
      * reflexivity.
    + destruct (parseAndUpdateTestCounts
                  (orStr (stdout error) (orStr (stderr error) [])) [])
        as [stats results].
      plumb. step_counts. step_progress. plumb.
      destruct Hu as (_ & Hf & _ & Hk & _).
      destruct Hu0 as (_ & Hf0 & _ & Hk0 & _).
      destruct Hu1 as (_ & Hf1 & _ & Hk1 & _).
      rewrite Hf in *.
      split; [reflexivity|]. split; [congruence|].
      eexists. split.
      * rewrite Hk1, Hk0, Hk, <- !app_assoc. reflexivity.
      * reflexivity.
Qed.

Lemma forEachCategory_calls (env : Env) (files : list jsstring) (total : Z)
    (categories : list Category.t) :
  forall w : World,
  let w' := snd (forEachCategory env files total categories w) in
  fst (forEachCategory env files total categories w) = Ret tt /\
  frame w' = afterCategories env files categories (frame w) /\
  exists cs, calls w' = calls w ++ cs /\
             List.map fst cs = updatesOf env files total categories (frame w).
Proof.
  induction categories as [|category categories IH]; intros w.
  - cbn [forEachCategory afterCategories fold_left updatesOf]. plumb.
    repeat split. exists []. rewrite app_nil_r. split; reflexivity.
  - cbn [forEachCategory afterCategories fold_left updatesOf]. unfold bind.
    destruct (runCategory_calls env files total category w)
      as (Hr & Hf & cs1 & Hk & Hm).
    destruct (runCategory env files total category w) as [r w1].
    cbn [fst snd] in *. subst r.
    destruct (IH w1) as (Hr2 & Hf2 & cs2 & Hk2 & Hm2).
    split; [exact Hr2|]. split; [rewrite Hf2, Hf; reflexivity|].
    exists (cs1 ++ cs2). split.
    + rewrite Hk2, Hk, app_assoc. reflexivity.
    + rewrite List.map_app, Hm, Hm2, Hf. reflexivity.
Qed.

(** The calls of a run whose discovery and start succeed. *)
Lemma runTestSuite_calls (env : Env) (w : World) (out : jsstring) :
  findFiles env = ExecOk out -> failsAt 0 w = None ->
  let files := testFilesOf out in
  let total := Z.of_nat (length files) in
  List.map fst (issued (runTestSuite env) w)
  = CallStartTestRun (Some (js "HEAD")) (js "main") total
    :: updatesOf env files total testCategories startedFrame
    ++ [CallCompleteTestRun
          (finalResultOf
             (afterCategories env files testCategories startedFrame))].
Proof.
  intros H Hf. cbv zeta.
  unfold issued, runTestSuite, runTestSuiteTry, runTestSuiteFinally, execSync.
  plumb. rewrite H. plumb.
  match goal with
  | |- context [startTestRun ?e ?a ?b ?c ?w0] =>
      destruct (startTestRun_ok e a b c w0 Hf)
        as (Hr & _ & Hfr & _ & Hk & _);
      destruct (startTestRun e a b c w0) as [r w1]
  end.
  cbn [fst snd db this frame dbScript ticks trace calls
       setDb setThis setFrame setScript tick addEvent addCall] in *.
  subst r. plumb. rewrite Hfr.
  change {| durationUpdateInterval := true;
            totalPassed := totalPassed freshFrame;
            totalFailed := totalFailed freshFrame;
            totalTests := totalTests freshFrame;
            allTestResults := allTestResults freshFrame;
            completedFiles := completedFiles freshFrame |}
    with startedFrame.
  match goal with
  | |- context [forEachCategory ?e ?a ?b ?c ?w0] =>
      destruct (forEachCategory_calls e a b c w0)
        as (Hr1 & Hf1 & cs & Hk1 & Hm);
      destruct (forEachCategory e a b c w0) as [r w2]
  end.
  cbn [fst snd db this frame dbScript ticks trace calls
       setDb setThis setFrame setScript tick addEvent addCall] in *.
  subst r. step_complete. plumb.
  destruct Hc as (_ & Hfr2 & Hk2).
  rewrite Hfr2, Hf1. cbn [startedFrame durationUpdateInterval].
  destruct (afterCategories_completedFiles env (testFilesOf out)
              testCategories startedFrame) as (_ & ->).
  cbn [startedFrame durationUpdateInterval]. plumb.
  rewrite Hk2, Hk1, Hk, <- !app_assoc, drop_app_length.
  cbn [app List.map fst]. rewrite List.map_app, Hm, Hf1. reflexivity.
Qed.
Lemma updatesOf_length (env : Env) (files : list jsstring) (total : Z)
    (categories : list Category.t) :
  forall f : Frame,
  length (updatesOf env files total categories f)
  = (3 * length (List.filter (ran files) categories))%nat.
Proof.
  induction categories as [|category categories IH]; intros f;
    [reflexivity|].
  cbn [updatesOf List.filter]. rewrite length_app, IH.
  unfold updatesFor. destruct (ran files category); cbn [length]; lia.
Qed.

(** X15. What a run reports, and in which order, whatever the store
    does with the updates: a run whose discovery and start succeed
    calls [startTestRun] once, then for each category with files, in
    the order of the categories, [updateFileProgress] with the files
    completed so far, [updateTestCounts] with the running totals and
    [updateFileProgress] again with the files of the category added;
    then [completeTestRun] once.  A failure of [vitest] changes the
    label of the closing update and nothing else; a category without
    files is passed over. *)
Theorem run_reports_each_category_in_turn (env : Env) (w : World)
    (out : jsstring) :
  findFiles env = ExecOk out -> failsAt 0 w = None ->
  let files := testFilesOf out in
  let total := Z.of_nat (length files) in
  let updates := updatesOf env files total testCategories startedFrame in
  List.map fst (issued (runTestSuite env) w)
  = CallStartTestRun (Some (js "HEAD")) (js "main") total
    :: updates
    ++ [CallCompleteTestRun
          (finalResultOf
             (afterCategories env files testCategories startedFrame))] /\
  length updates = (3 * length (processed files))%nat.
Proof.
  intros H Hf. cbv zeta. split.
  - apply runTestSuite_calls; assumption.
  - apply updatesOf_length.
Qed.

Lemma run_reports_each_category_in_turn_witness :
  length (issued (runTestSuite sampleEnv) idleWorld) = 8%nat.
Proof.
  destruct (run_reports_each_category_in_turn sampleEnv idleWorld _ eq_refl
              eq_refl) as (Hcalls & Hlen).
  rewrite <- (length_map fst), Hcalls.
  cbn [length]. rewrite length_app, Hlen. vm_compute. reflexivity.
Defined.

Lemma afterCategory_grows (env : Env) (files : list jsstring)
    (category : Category.t) (f : Frame) :
  let f' := afterCategory env files category f in
  completedFiles f <= completedFiles f' /\
  countsLe (totalPassed f, totalFailed f, totalTests f)
    (totalPassed f', totalFailed f', totalTests f').
Proof.
  unfold afterCategory, countsLe. cbn [fst snd].
  destruct (ran files category); [|lia].
  pose proof (parse_bounds (outputOf env category) []) as Hb.
  unfold accumulate, statsOf.
  cbn [completedFiles totalPassed totalFailed totalTests].
  cbv zeta in Hb. lia.
Qed.

Lemma countsLe_trans (a b c : Z * Z * Z) :
  countsLe a b -> countsLe b c -> countsLe a c.
Proof. unfold countsLe. lia. Qed.

Lemma updatesOf_monotone (env : Env) (files : list jsstring) (total : Z)
    (categories : list Category.t) :
  forall f : Frame,
  let updates := updatesOf env files total categories f in
  (StronglySorted Z.le (progressOf updates) /\
   Forall (Z.le (completedFiles f)) (progressOf updates)) /\
  (StronglySorted countsLe (countsOf updates) /\
   Forall (countsLe (totalPassed f, totalFailed f, totalTests f))
     (countsOf updates)).
Proof.
  induction categories as [|category categories IH]; intros f.
  - cbn. repeat split; constructor.
  - cbn [updatesOf]. cbv zeta. unfold progressOf, countsOf.
    rewrite !flat_map_app.
    fold (progressOf (updatesOf env files total categories
                        (afterCategory env files category f))).
    fold (countsOf (updatesOf env files total categories
                      (afterCategory env files category f))).
    destruct (IH (afterCategory env files category f))
      as ((Hs & Hb) & (Hs' & Hb')).
    destruct (afterCategory_grows env files category f) as (Hc & Hle).
    unfold updatesFor.
    destruct (ran files category); cbn [flat_map app].
    + split; split.
      * constructor.
        { constructor; [exact Hs | exact Hb]. }
        { constructor; [exact Hc|].
          eapply Forall_impl; [exact Hb|]. cbn. intros. lia. }
      * constructor; [lia|]. constructor; [exact Hc|].
        eapply Forall_impl; [exact Hb|]. cbn. intros. lia.
      * constructor; [exact Hs' | exact Hb'].
      * constructor; [exact Hle|].
        eapply Forall_impl; [exact Hb'|]. cbn.
        intros c. apply countsLe_trans. exact Hle.
    + split; split; try assumption.
      * eapply Forall_impl; [exact Hb|]. cbn. intros. lia.
      * eapply Forall_impl; [exact Hb'|]. cbn.
        intros c. apply countsLe_trans. exact Hle.
Qed.

(** X16. The progress a run reports never goes backwards: over the
    calls of a run whose discovery and start succeed, the number of
    completed files passed to [updateFileProgress] never decreases from
    one call to a later one, and neither do the passed, failed and total
    counts passed to [updateTestCounts]; both start from zero. *)
Theorem reported_progress_never_decreases (env : Env) (w : World)
    (out : jsstring) :
  findFiles env = ExecOk out -> failsAt 0 w = None ->
  let reported := List.map fst (issued (runTestSuite env) w) in
  StronglySorted Z.le (progressOf reported) /\
  Forall (Z.le 0) (progressOf reported) /\
  StronglySorted countsLe (countsOf reported) /\
  Forall (countsLe (0, 0, 0)) (countsOf reported).
Proof.
  intros H Hf. cbv zeta.
  rewrite (runTestSuite_calls env w out H Hf).
  unfold progressOf, countsOf.
  cbn [flat_map app]. rewrite !flat_map_app. cbn [flat_map].
  rewrite !app_nil_r.
  destruct (updatesOf_monotone env (testFilesOf out)
              (Z.of_nat (length (testFilesOf out))) testCategories
              startedFrame) as ((Hs & Hb) & (Hs' & Hb')).
  repeat split; assumption.
Qed.

Lemma reported_progress_never_decreases_witness :
  progressOf (List.map fst (issued (runTestSuite sampleEnv) idleWorld))
  = [0; 2; 2; 3] /\
  StronglySorted Z.le
    (progressOf (List.map fst (issued (runTestSuite sampleEnv) idleWorld))).
Proof.
  split; [vm_compute; reflexivity|].
  exact (proj1 (reported_progress_never_decreases sampleEnv idleWorld _
                  eq_refl eq_refl)).
Defined.





(** X21. A tick of the duration timer keeps the invariant of the
    stored run: if the run [id] is within its bounds (passed plus failed
    at most total, completed files at most total files), it still is
    after [updateRunningDuration], for whichever run the timer was set
    and whatever the store does; and what the deploy-readiness check
    reads off the store is unchanged. *)
Theorem timer_tick_keeps_run_within_bounds (env : Env) (testRunId id : Z)
    (w : World) :
  storedOk id (db w) ->
  let w' := snd (updateRunningDuration env testRunId w) in
  storedOk id (db w') /\
  readyOf (selectLatest (db w')) = readyOf (selectLatest (db w)).
Proof.
  intros (row & Hrow & Hok).
  destruct (updateRunningDuration_db env testRunId w)
    as (_ & _ & _ & _ & Hdb).
  cbv zeta. destruct Hdb as [->|[duration ->]].
  - split; [exists row; split; assumption | reflexivity].
  - split.
    + unfold storedOk. rewrite writeDuration_rows.
      destruct (decide (testRunId = id)) as [->|Hne].
      * rewrite Hrow. eexists. split; [reflexivity|]. exact Hok.
      * exists row. split; assumption.
    + pose proof (selectLatest_spec (db w)) as Hold.
      pose proof (selectLatest_spec (writeDuration testRunId duration (db w)))
        as Hnew.
      destruct (selectLatest (db w)) as [[k r]|];
        destruct (selectLatest (writeDuration testRunId duration (db w)))
          as [[k' r']|].
      * destruct Hold as (Hk & Hmax). destruct Hnew as (Hk' & Hmax').
        rewrite writeDuration_rows in Hk'.
        assert (Hle : k' <= k).
        { destruct (decide (testRunId = k'));
            destruct (testRuns (db w) !! k') eqn:E; try discriminate;
            exact (Hmax _ _ E). }
        assert (Hge : k <= k').
        { apply (Hmax' k (if decide (testRunId = k)
                          then setDuration duration r else r)).
          rewrite writeDuration_rows, Hk.
          destruct (decide (testRunId = k)); reflexivity. }
        assert (k' = k) by lia. subst k'. rewrite Hk in Hk'.
        destruct (decide (testRunId = k)); cbn in Hk';
          injection Hk' as <-; reflexivity.
      * exfalso. destruct Hold as (Hk & _).
        assert (E : testRuns (writeDuration testRunId duration (db w)) !! k
                    = None) by (rewrite Hnew; apply lookup_empty).
        rewrite writeDuration_rows, Hk in E.
        destruct (decide (testRunId = k)); discriminate.
      * exfalso. destruct Hnew as (Hk' & _).
        rewrite writeDuration_rows, Hold, lookup_empty in Hk'.
        destruct (decide (testRunId = k')); discriminate.
      * reflexivity.
Qed.

Lemma timer_tick_keeps_run_within_bounds_witness :
  storedOk 1 (db startedWorld) /\
  storedOk 1 (db (snd (updateRunningDuration sampleEnv 1 startedWorld))).
Proof.
  assert (H : storedOk 1 (db startedWorld)).
  { eexists. split; [cbn; apply lookup_insert_eq|].
    unfold rowOk. cbn. lia. }
  split; [exact H|].
  exact (proj1 (timer_tick_keeps_run_within_bounds sampleEnv 1 1 startedWorld
                  H)).
Defined.
Lemma ownRunOnly_refl (id : Z) (d : Db) : ownRunOnly id d d.
Proof.
  split; [reflexivity|]. split; [reflexivity|]. split; [auto|].
  exists []. split; [symmetry; apply app_nil_r | constructor].
Qed.

Lemma ownRunOnly_trans (id : Z) (d1 d2 d3 : Db) :
  ownRunOnly id d1 d2 -> ownRunOnly id d2 d3 -> ownRunOnly id d1 d3.
Proof.
  intros (Hn & Hr & Hs & a & Ha & Hfa) (Hn' & Hr' & Hs' & b & Hb & Hfb).
  split; [congruence|]. split; [|split].
  - intros k Hk. rewrite (Hr' k Hk). apply Hr. exact Hk.
  - auto.
  - exists (a ++ b). split.
    + rewrite Hb, Ha, app_assoc. reflexivity.
    + apply Forall_app. split; assumption.
Qed.

Lemma ownRunOnly_alter (id : Z) (f : TestRun.t -> TestRun.t) (d : Db) :
  ownRunOnly id d {| testRuns := alter f id (testRuns d);
                     nextId := nextId d; testCases := testCases d |}.
Proof.
  split; [reflexivity|]. split; [|split].
  - intros k Hk. cbn [testRuns]. apply lookup_alter_ne. congruence.
  - cbn [testRuns]. rewrite lookup_alter_eq. intros [row ->]. cbn. eauto.
  - exists []. split; [symmetry; apply app_nil_r | constructor].
Qed.

Lemma ownRunOnly_cases (id : Z) (tests : list TestResult.t) (d : Db) :
  ownRunOnly id d {| testRuns := testRuns d; nextId := nextId d;
                     testCases := testCases d
                                  ++ List.map (toTestCase id) tests |}.
Proof.
  split; [reflexivity|]. split; [reflexivity|]. split; [auto|].
  eexists. split; [reflexivity|].
  induction tests as [|t tests IH]; constructor; [reflexivity | exact IH].
Qed.

Lemma ownRunOnly_completed (id : Z) (f : TestRun.t -> TestRun.t)
    (tests : list TestResult.t) (d : Db) :
  ownRunOnly id d {| testRuns := alter f id (testRuns d);
                     nextId := nextId d;
                     testCases := testCases d
                                  ++ List.map (toTestCase id) tests |}.
Proof.
  eapply ownRunOnly_trans; [apply (ownRunOnly_alter id f)|].
  exact (ownRunOnly_cases id tests
           {| testRuns := alter f id (testRuns d); nextId := nextId d;
              testCases := testCases d |}).
Qed.

Lemma dbStep_progress_own (t : TestRunner) (id : Z) cf c ph tf (d d' : Db) :
  testRunId t = Some id ->
  dbStep t (fun id => SetProgress id cf c ph tf) d d' -> ownRunOnly id d d'.
Proof.
  intros Hid [->|(id' & Ha & ->)]; [apply ownRunOnly_refl|].
  rewrite (activeRun_is_testRunId t id id' Hid Ha). apply ownRunOnly_alter.
Qed.

Lemma dbStep_counts_own (t : TestRunner) (id : Z) tt p f (d d' : Db) :
  testRunId t = Some id ->
  dbStep t (fun id => SetCounts id tt p f) d d' -> ownRunOnly id d d'.
Proof.
  intros Hid [->|(id' & Ha & ->)]; [apply ownRunOnly_refl|].
  rewrite (activeRun_is_testRunId t id id' Hid Ha). apply ownRunOnly_alter.
Qed.

Lemma completeTestRun_own (env : Env) (result : TestRunResult.t) (w : World)
    (id : Z) :
  testRunId (this w) = Some id ->
  ownRunOnly id (db w) (db (snd (completeTestRun env result w))).
Proof.
  intros Hid. unfold completeTestRun, bind, gets.
  destruct w as [d th fr sc tk tr cs]; cbn [this db] in *.
  destruct (activeRun th) as [id'|] eqn:Ha.
  - rewrite (activeRun_is_testRunId th id id' Hid Ha). clear Ha Hid.
    destruct (TestRunResult.tests result) as [|test tests] eqn:T;
      destruct sc as [|[m1|] [|[m2|] sc]]; run; rewrite ?T;
      cbn [db snd];
      first [ apply ownRunOnly_refl
            | apply ownRunOnly_alter
            | apply (ownRunOnly_completed id _ (test :: tests)) ].
  - run. apply ownRunOnly_refl.
Qed.

Lemma runCategory_own (env : Env) (files : list jsstring) (total : Z)
    (category : Category.t) (w : World) (id : Z) :
  testRunId (this w) = Some id ->
  let w' := snd (runCategory env files total category w) in
  fst (runCategory env files total category w) = Ret tt /\
  this w' = this w /\ ownRunOnly id (db w) (db w').
Proof.
  intros Hid. unfold runCategory.
  destruct (length (categoryFilesOf files category) =? 0)%nat.
  - plumb. split; [reflexivity|]. split; [reflexivity|].
    apply ownRunOnly_refl.
  - unfold execSync. plumb. step_progress.
    destruct (vitest env (Category.pattern category)) as [out|error].
    + destruct (parseAndUpdateTestCounts out []) as [stats results].
      plumb. step_counts. step_progress. plumb.
      destruct Hu as (Ht & _ & _ & _ & Hd).
      destruct Hu0 as (Ht0 & _ & _ & _ & Hd0).
      destruct Hu1 as (Ht1 & _ & _ & _ & Hd1).
      split; [reflexivity|]. split; [congruence|].
      eapply ownRunOnly_trans;
        [eapply dbStep_progress_own; [exact Hid | exact Hd]|].
      eapply ownRunOnly_trans;
        [eapply dbStep_counts_own; [|exact Hd0]; congruence|].
      eapply dbStep_progress_own; [|exact Hd1]. congruence.
    + destruct (parseAndUpdateTestCounts
                  (orStr (stdout error) (orStr (stderr error) [])) [])
        as [stats results].
      plumb. step_counts. step_progress. plumb.
      destruct Hu as (Ht & _ & _ & _ & Hd).
      destruct Hu0 as (Ht0 & _ & _ & _ & Hd0).
      destruct Hu1 as (Ht1 & _ & _ & _ & Hd1).
      split; [reflexivity|]. split; [congruence|].
      eapply ownRunOnly_trans;
        [eapply dbStep_progress_own; [exact Hid | exact Hd]|].
      eapply ownRunOnly_trans;
        [eapply dbStep_counts_own; [|exact Hd0]; congruence|].
      eapply dbStep_progress_own; [|exact Hd1]. congruence.
Qed.

Lemma forEachCategory_own (env : Env) (files : list jsstring) (total : Z)
    (categories : list Category.t) (id : Z) :
  forall w : World,
  testRunId (this w) = Some id ->
  let w' := snd (forEachCategory env files total categories w) in
  fst (forEachCategory env files total categories w) = Ret tt /\
  this w' = this w /\ ownRunOnly id (db w) (db w').
Proof.
  induction categories as [|category categories IH]; intros w Hid.
  - cbn [forEachCategory]. plumb. split; [reflexivity|]. split; [reflexivity|].
    apply ownRunOnly_refl.
  - cbn [forEachCategory]. unfold bind.
    destruct (runCategory_own env files total category w id Hid)
      as (Hr & Ht & Ho).
    destruct (runCategory env files total category w) as [r w1].
    cbn [fst snd] in *. subst r.
    destruct (IH w1 ltac:(congruence)) as (Hr2 & Ht2 & Ho2).
    split; [exact Hr2|]. split; [congruence|].
    eapply ownRunOnly_trans; eassumption.
Qed.

(** X22. A run keeps to its own row, whatever the store does with its
    statements after the first: once the insert of [startTestRun] has
    gone through, [runTestSuite] adds that one run and no other, changes
    no other run, and adds test cases of that run only; the run itself
    is in the store when [runTestSuite] returns. *)
Theorem run_keeps_to_its_own_row (env : Env) (w : World) (out : jsstring) :
  findFiles env = ExecOk out -> failsAt 0 w = None ->
  let id := nextId (db w) in
  let d' := db (snd (runTestSuite env w)) in
  nextId d' = id + 1 /\
  (forall k, k <> id -> testRuns d' !! k = testRuns (db w) !! k) /\
  is_Some (testRuns d' !! id) /\
  exists added,
    testCases d' = testCases (db w) ++ added /\
    Forall (fun c => TestCase.testRunId c = id) added.
Proof.
  intros H Hf. cbv zeta.
  unfold runTestSuite, runTestSuiteTry, runTestSuiteFinally, execSync.
  plumb. rewrite H. plumb.
  match goal with
  | |- context [startTestRun ?e ?a ?b ?c ?w0] =>
      destruct (startTestRun_ok e a b c w0 Hf)
        as (Hr & Ht & _ & Hd & _ & _);
      destruct (startTestRun e a b c w0) as [r w1]
  end.
  cbn [fst snd db this frame dbScript ticks trace calls
       setDb setThis setFrame setScript tick addEvent addCall] in *.
  subst r. plumb.
  match goal with
  | |- context [forEachCategory ?e ?a ?b ?c ?w0] =>
      destruct (forEachCategory_own e a b c (nextId (db w)) w0
                  ltac:(plumb; rewrite Ht; reflexivity))
        as (Hr1 & Ht1 & Ho1);
      destruct (forEachCategory e a b c w0) as [r w2]
  end.
  cbn [fst snd db this frame dbScript ticks trace calls
       setDb setThis setFrame setScript tick addEvent addCall] in *.
  subst r.
  match goal with
  | |- context [completeTestRun ?e ?r ?w0] =>
      pose proof (completeTestRun_returns e r w0) as Hc;
      pose proof (completeTestRun_own e r w0 (nextId (db w))
                    ltac:(rewrite Ht1, Ht; reflexivity)) as Ho2;
      destruct (completeTestRun e r w0) as [r' w3]
  end.
  cbv zeta in Hc. plumb_in Hc. destruct Hc as (-> & _ & Hfr & _).
  cbn [fst snd] in *. plumb.
  assert (Hdb : forall W : World,
             db (snd ((if durationUpdateInterval (frame w3)
                       then fun w4 : World =>
                              (Ret tt, addEvent EvClearInterval w4)
                       else fun w4 : World => (Ret tt, w4)) W)) = db W)
    by (intros W; destruct (durationUpdateInterval (frame w3)); reflexivity).
  destruct (ownRunOnly_trans _ _ _ _ Ho1 Ho2)
    as (Hn & Hrows & Hstays & added & Ha & Hfa).
  rewrite Hd in Hn, Hrows, Hstays, Ha.
  cbn [applyStmt nextId testRuns testCases] in *.
  assert (Hend : forall W : World,
             db (snd (let (r0, w'') :=
                        (if durationUpdateInterval (frame w3)
                         then fun w0 : World =>
                                (Ret tt, addEvent EvClearInterval w0)
                         else fun w0 : World => (Ret tt, w0)) W in
                      match r0 with
                      | Ret _ => (Ret tt, w'')
                      | Throw e => (Throw e, w'')
                      end)) = db W)
    by (intros W; destruct (durationUpdateInterval (frame w3)); reflexivity).
  rewrite Hend. plumb.
  split; [exact Hn|]. split; [|split].
  - intros k Hk. rewrite (Hrows k Hk). apply lookup_insert_ne. congruence.
  - apply Hstays. rewrite lookup_insert_eq. eauto.
  - exists added. split; assumption.
Qed.

Lemma run_keeps_to_its_own_row_witness :
  let w := setScript [None; Some (js "down")] startedWorld in
  failsAt 0 w = None /\
  nextId (db (snd (runTestSuite sampleEnv w))) = 3 /\
  testRuns (db (snd (runTestSuite sampleEnv w))) !! 1
  = testRuns (db startedWorld) !! 1.
Proof.
  intros w.
  destruct (run_keeps_to_its_own_row sampleEnv w _ eq_refl eq_refl)
    as (Hn & Hrows & _).
  split; [reflexivity|]. split; [exact Hn|].
  exact (Hrows 1 ltac:(discriminate)).
Defined.
(** ** The test generator *)

Lemma fold_insert_keys {A} (key val : A -> jsstring) (l : list A) :
  forall (m0 : gmap jsstring jsstring) (k : jsstring),
  is_Some (fold_left (fun m x => <[key x := val x]> m) l m0 !! k)
  <-> is_Some (m0 !! k) \/ exists x, In x l /\ key x = k.
Proof.
  induction l as [|x l IH]; intros m0 k; cbn [fold_left].
  - split; [auto | intros [H|(x & [] & _)]; exact H].
  - rewrite IH. split.
    + intros [H|(y & Hy & <-)].
      * destruct (decide (key x = k)) as [<-|Hne].
        { right. exists x. split; [left; reflexivity | reflexivity]. }
        { rewrite lookup_insert_ne in H by exact Hne. left. exact H. }
      * right. exists y. split; [right; exact Hy | reflexivity].
    + intros [H|(y & [->|Hy] & <-)].
      * left. destruct (decide (key x = k)) as [<-|Hne].
        { rewrite lookup_insert_eq. eauto. }
        { rewrite lookup_insert_ne by exact Hne. exact H. }
      * left. rewrite lookup_insert_eq. eauto.
      * right. exists y. split; [exact Hy | reflexivity].
Qed.

Lemma size_insert_le (m : gmap jsstring jsstring) (k v : jsstring) :
  (size (<[k := v]> m) <= S (size m))%nat.
Proof.
  rewrite map_size_insert. destruct (m !! k); unfold id; lia.
Qed.

Lemma fold_insert_size {A} (key val : A -> jsstring) (l : list A) :
  forall m0 : gmap jsstring jsstring,
  (size (fold_left (fun m x => <[key x := val x]> m) l m0)
   <= size m0 + length l)%nat.
Proof.
  induction l as [|x l IH]; intros m0; cbn [fold_left length]; [lia|].
  specialize (IH (<[key x := val x]> m0)).
  pose proof (size_insert_le m0 (key x) (val x)). lia.
Qed.

Lemma generated_files (toLowerCase : jsstring -> jsstring)
    (generatePageTest : Page.t -> jsstring)
    (generateAPITest : Endpoint.t -> jsstring)
    (generateRoleAccessTest : list Endpoint.t -> list jsstring -> jsstring)
    (generateDatabaseTests : TestConfig.t -> jsstring)
    (config : TestConfig.t) (k : jsstring) :
  is_Some (generateAllTests toLowerCase generatePageTest generateAPITest
             generateRoleAccessTest generateDatabaseTests config !! k)
  <-> (exists page, In page (TestConfig.pages config) /\
                    pageTestFile toLowerCase page = k) \/
      (exists endpoint, In endpoint (TestConfig.apiEndpoints config) /\
                        apiTestFile endpoint = k) \/
      k = roleAccessFile \/ k = databaseFile.
Proof.
  unfold generateAllTests. cbv zeta.
  destruct (decide (databaseFile = k)) as [<-|Hd].
  { rewrite lookup_insert_eq. split; [auto | eauto]. }
  rewrite lookup_insert_ne by exact Hd.
  destruct (decide (roleAccessFile = k)) as [<-|Hr].
  { rewrite lookup_insert_eq. split; [auto | eauto]. }
  rewrite lookup_insert_ne by exact Hr.
  rewrite (fold_insert_keys apiTestFile generateAPITest).
  rewrite (fold_insert_keys (pageTestFile toLowerCase) generatePageTest).
  rewrite lookup_empty. split.
  - intros [[[x Hx]|H]|H]; [discriminate | auto | auto].
  - intros [H|[H|[H|H]]]; [auto | auto | congruence | congruence].
Qed.

Lemma pageTestFile_categorised (toLowerCase : jsstring -> jsstring)
    (page : Page.t) :
  categorised (pageTestFile toLowerCase page) = true.
Proof.
  unfold pageTestFile. generalize (toLowerCase (Page.name page)).
  intros name. vm_compute. reflexivity.
Qed.

Lemma apiTestFile_categorised (endpoint : Endpoint.t) :
  categorised (apiTestFile endpoint) = true.
Proof.
  unfold apiTestFile. generalize (apiFilename (Endpoint.path endpoint)).
  intros name. vm_compute. reflexivity.
Qed.

(** X18. The generator and the runner agree on where the tests are:
    whatever the configuration, [generateAllTests] writes one file for
    every page and one for every endpoint of the configuration, the
    role-access test and the database test, and nothing else; and every
    one of these files is under the pattern of a category of
    [runTestSuite], so that a run over the generated files leaves none
    of them out. *)
Theorem generated_tests_are_all_run
    (toLowerCase : jsstring -> jsstring)
    (generatePageTest : Page.t -> jsstring)
    (generateAPITest : Endpoint.t -> jsstring)
    (generateRoleAccessTest : list Endpoint.t -> list jsstring -> jsstring)
    (generateDatabaseTests : TestConfig.t -> jsstring)
    (config : TestConfig.t) :
  let tests := generateAllTests toLowerCase generatePageTest generateAPITest
                 generateRoleAccessTest generateDatabaseTests config in
  (forall page, In page (TestConfig.pages config) ->
     is_Some (tests !! pageTestFile toLowerCase page)) /\
  (forall endpoint, In endpoint (TestConfig.apiEndpoints config) ->
     is_Some (tests !! apiTestFile endpoint)) /\
  tests !! roleAccessFile
  = Some (generateRoleAccessTest (TestConfig.apiEndpoints config)
            (List.map Role.name (TestConfig.roles config))) /\
  tests !! databaseFile = Some (generateDatabaseTests config) /\
  (forall file, is_Some (tests !! file) -> categorised file = true) /\
  (size tests <= length (TestConfig.pages config)
                 + length (TestConfig.apiEndpoints config) + 2)%nat.
Proof.
  cbv zeta. repeat split.
  - intros page H. apply generated_files. left. eauto.
  - intros endpoint H. apply generated_files. right. left. eauto.
  - unfold generateAllTests. cbv zeta.
    rewrite lookup_insert_ne by (vm_compute; discriminate).
    apply lookup_insert_eq.
  - unfold generateAllTests. cbv zeta. apply lookup_insert_eq.
  - intros file H. apply generated_files in H.
    destruct H as [(page & _ & <-)|[(endpoint & _ & <-)|[->| ->]]].
    + apply pageTestFile_categorised.
    + apply apiTestFile_categorised.
    + reflexivity.
    + reflexivity.
  - unfold generateAllTests. cbv zeta.
    etransitivity; [apply size_insert_le|].
    etransitivity; [apply le_n_S, size_insert_le|].
    etransitivity;
      [do 2 apply le_n_S; apply (fold_insert_size apiTestFile generateAPITest)|].
    assert (Hadd : forall a b c : nat,
               (a <= 0 + c -> S (S (a + b)) <= c + b + 2)%nat) by (intros; lia).
    apply Hadd. rewrite <- (map_size_empty (M := gmap jsstring) (A := jsstring)).
    apply (fold_insert_size (pageTestFile toLowerCase) generatePageTest).
Qed.

Lemma generated_tests_are_all_run_witness :
  let page := {| Page.name := js "home"; Page.path := js "/";
                 Page.component := js "Home"; Page.viewModes := [];
                 Page.requiredRole := None;
                 Page.hasTabNavigation := None |} in
  let config := {| TestConfig.appName := []; TestConfig.domain := [];
                   TestConfig.entities := []; TestConfig.roles := [];
                   TestConfig.pages := [page];
                   TestConfig.apiEndpoints := [];
                   TestConfig.dbTables := [] |} in
  In page (TestConfig.pages config) /\
  categorised (pageTestFile (fun s => s) page) = true.
Proof.
  intros page config.
  assert (Hin : In page (TestConfig.pages config)) by (left; reflexivity).
  split; [exact Hin|].
  destruct (generated_tests_are_all_run (fun s => s) Page.name Endpoint.path
              (fun _ _ => []) TestConfig.appName config)
    as (Hp & _ & _ & _ & Hc & _).
  exact (Hc _ (Hp page Hin)).
Defined.

Lemma dashed_flat (s : jsstring) : ~ In SLASH (dashed s).
Proof.
  induction s as [|c s IH]; cbn [dashed List.map In]; [tauto|].
  intros [H|H]; [|exact (IH H)].
  destruct (N.eqb_spec c SLASH) as [->|Hne]; [discriminate | congruence].
Qed.

Lemma dashed_inj (s t : jsstring) :
  ~ In DASH s -> ~ In DASH t -> dashed s = dashed t -> s = t.
Proof.
  revert t. induction s as [|a s IH]; intros [|b t] Hs Ht H;
    try discriminate; [reflexivity|].
  cbn [dashed List.map] in H. injection H as Hab H.
  f_equal.
  - destruct (N.eqb_spec a SLASH) as [->|Ha];
      destruct (N.eqb_spec b SLASH) as [->|Hb]; try reflexivity.
    + exfalso. apply Ht. left. symmetry. exact Hab.
    + exfalso. apply Hs. left. exact Hab.
    + exact Hab.
  - apply IH; [intros Hin; apply Hs; right; exact Hin
              | intros Hin; apply Ht; right; exact Hin | exact H].
Qed.

Lemma fold_insert_untouched {A} (key val : A -> jsstring) (l : list A)
    (k : jsstring) :
  Forall (fun x => key x <> k) l ->
  forall m0 : gmap jsstring jsstring,
  fold_left (fun m x => <[key x := val x]> m) l m0 !! k = m0 !! k.
Proof.
  induction 1 as [|x l Hx _ IH]; intros m0; cbn [fold_left]; [reflexivity|].
  rewrite IH. apply lookup_insert_ne. exact Hx.
Qed.

Lemma apiTestFile_not_integration (endpoint : Endpoint.t) :
  apiTestFile endpoint <> roleAccessFile /\
  apiTestFile endpoint <> databaseFile.
Proof.
  unfold apiTestFile. generalize (apiFilename (Endpoint.path endpoint)).
  intros name.
  split; intros H; apply (f_equal (fun s => nth 6 s 0%N)) in H;
    vm_compute in H; discriminate.
Qed.

(** X19. The files of the API tests.  The name made from the path of an
    endpoint has no slash, so that every API test is written directly
    under [tests/api/]; two paths under [/api/] that have no dash get
    different names; and an endpoint finds its own test in its file
    provided no later endpoint of the configuration has the same file
    name: when two paths collide, as [/api/a/b] and [/api/a-b] do, the
    later test replaces the earlier one. *)
Theorem api_test_files
    (toLowerCase : jsstring -> jsstring)
    (generatePageTest : Page.t -> jsstring)
    (generateAPITest : Endpoint.t -> jsstring)
    (generateRoleAccessTest : list Endpoint.t -> list jsstring -> jsstring)
    (generateDatabaseTests : TestConfig.t -> jsstring) :
  (forall path, ~ In SLASH (apiFilename path)) /\
  (forall p q,
     startsWith (js "/api/") p = true -> startsWith (js "/api/") q = true ->
     ~ In DASH p -> ~ In DASH q ->
     apiFilename p = apiFilename q -> p = q) /\
  (forall config earlier endpoint later,
     TestConfig.apiEndpoints config = earlier ++ endpoint :: later ->
     Forall (fun e => apiTestFile e <> apiTestFile endpoint) later ->
     generateAllTests toLowerCase generatePageTest generateAPITest
       generateRoleAccessTest generateDatabaseTests config
       !! apiTestFile endpoint
     = Some (generateAPITest endpoint)).
Proof.
  split; [|split].
  - intros path. apply dashed_flat.
  - intros p q Hp Hq Hdp Hdq H.
    apply startsWith_app_iff in Hp as [p' ->].
    apply startsWith_app_iff in Hq as [q' ->].
    unfold apiFilename, stripApi in H.
    rewrite !(proj2 (startsWith_app_iff _ _)) in H by eauto.
    change (drop 5 (js "/api/" ++ p')) with p' in H.
    change (drop 5 (js "/api/" ++ q')) with q' in H.
    f_equal. apply dashed_inj; [| |exact H].
    + intros Hin. apply Hdp. apply in_or_app. right. exact Hin.
    + intros Hin. apply Hdq. apply in_or_app. right. exact Hin.
  - intros config earlier endpoint later Hcfg Hlater.
    destruct (apiTestFile_not_integration endpoint) as (Hr & Hd).
    unfold generateAllTests. cbv zeta.
    rewrite lookup_insert_ne by congruence.
    rewrite lookup_insert_ne by congruence.
    rewrite Hcfg, fold_left_app. cbn [fold_left].
    rewrite (fold_insert_untouched apiTestFile generateAPITest later _ Hlater).
    apply lookup_insert_eq.
Qed.

Lemma api_test_files_witness :
  let first := {| Endpoint.path := js "/api/a/b"; Endpoint.methods := [];
                  Endpoint.requiresAuth := false;
                  Endpoint.allowedRoles := None |} in
  let second := {| Endpoint.path := js "/api/a-b"; Endpoint.methods := [];
                   Endpoint.requiresAuth := true;
                   Endpoint.allowedRoles := None |} in
  let config := {| TestConfig.appName := []; TestConfig.domain := [];
                   TestConfig.entities := []; TestConfig.roles := [];
                   TestConfig.pages := [];
                   TestConfig.apiEndpoints := [first; second];
                   TestConfig.dbTables := [] |} in
  apiTestFile first = apiTestFile second /\
  generateAllTests (fun s => s) Page.name Endpoint.path (fun _ _ => [])
    TestConfig.appName config !! apiTestFile first
  = Some (js "/api/a-b").
Proof.
  intros first second config.
  assert (Hsame : apiTestFile first = apiTestFile second)
    by (vm_compute; reflexivity).
  split; [exact Hsame|]. rewrite Hsame.
  exact (proj2 (proj2 (api_test_files (fun s => s) Page.name Endpoint.path
                         (fun _ _ => []) TestConfig.appName))
           config [first] second [] eq_refl ltac:(constructor)).
Defined.
